(** * Work-time tracker: calendar and aggregation engine

    A shallow embedding of the holiday routes (generateDateRange, the
    add-holiday handler, the by-person grouping view) and of the monthly
    statistics of the home page, with the properties the specification
    states about them; then of the code around them: the success message
    of the add-holiday handler and the texts of prepareMessages, the delete
    handler, the by-date view, the range of the planning page, the
    work-location calendars of the home page, and the token cache and the
    paged fetch of the Auth0 utilities, with properties read off the code.

    Conventions of the model.
    - A JavaScript [Date] is a whole day: the number of days since
      1970-01-01, or [Invalid_Date].  The process time zone is UTC and the
      date strings carry no time of day, so [getDay], [setDate] and the
      comparison of two dates act on that day number.
    - Hours are exact rationals; binary floating point is not modelled.
    - An awaited call that rejects, and a thrown exception, is the [None] of
      an [option]. *)

From Stdlib Require Import ZArith QArith Qround Qminmax Lia Lqa List Bool.
From Stdlib Require Import Ascii String DecimalString DecimalZ.
From Stdlib Require Import Sorting.Sorted Sorting.Permutation.
From stdpp Require Import base option list gmap strings.

Local Open Scope string_scope.
Local Open Scope list_scope.
Local Open Scope Z_scope.

(** ** CalendarMath: the proleptic Gregorian calendar behind [Date] *)

Module CalendarMath.

(** A [Date] object, at day precision. *)
Inductive JsDate : Type :=
| Invalid_Date
| Day (n : Z).

(** [new Date(year, month - 1, day)] for a month in 1..12: the day number of
    a civil date (days since 1970-01-01). *)
Definition days_from_civil (y m d : Z) : Z :=
  let y' := if m <=? 2 then y - 1 else y in
  let era := y' / 400 in
  let yoe := y' - era * 400 in
  let doy := (153 * (if 2 <? m then m - 3 else m + 9) + 2) / 5 + d - 1 in
  let doe := yoe * 365 + yoe / 4 - yoe / 100 + doy in
  era * 146097 + doe - 719468.

(** [getFullYear()], [getMonth() + 1] and [getDate()] of a day number. *)
Definition civil_from_days (z : Z) : Z * Z * Z :=
  let z := z + 719468 in
  let era := z / 146097 in
  let doe := z - era * 146097 in
  let yoe := (doe - doe / 1460 + doe / 36524 - doe / 146096) / 365 in
  let y := yoe + era * 400 in
  let doy := doe - (365 * yoe + yoe / 4 - yoe / 100) in
  let mp := (5 * doy + 2) / 153 in
  let d := doy - (153 * mp + 2) / 5 + 1 in
  let m := if mp <? 10 then mp + 3 else mp - 9 in
  (if m <=? 2 then y + 1 else y, m, d).

Definition getFullYear (z : Z) : Z := fst (fst (civil_from_days z)).
Definition getMonth1 (z : Z) : Z := snd (fst (civil_from_days z)).
Definition getDate (z : Z) : Z := snd (civil_from_days z).

(** [getDay()]: 0 is Sunday, 6 is Saturday; 1970-01-01 was a Thursday. *)
Definition getDay (z : Z) : Z := (z + 4) mod 7.

(** [getDay()] of a [Date] that may be invalid: [None] stands for NaN. *)
Definition getDay_of (d : JsDate) : option Z :=
  match d with
  | Invalid_Date => None
  | Day n => Some (getDay n)
  end.

Definition isWeekend (z : Z) : bool := (getDay z =? 0) || (getDay z =? 6).

Definition is_leap (y : Z) : bool :=
  ((y mod 4 =? 0) && negb (y mod 100 =? 0)) || (y mod 400 =? 0).

Definition days_in_month (y m : Z) : Z :=
  if m =? 2 then (if is_leap y then 29 else 28)
  else if (m =? 4) || (m =? 6) || (m =? 9) || (m =? 11) then 30
  else 31.

(** Two decimal digits, as [padStart(2, "0")] gives for 0..99. *)
Definition digit (n : Z) : ascii := ascii_of_N (Z.to_N (48 + n mod 10)).
Definition pad2 (n : Z) : string :=
  String (digit (n / 10)) (String (digit n) EmptyString).

Definition pad4 (n : Z) : string :=
  String (digit (n / 1000)) (String (digit (n / 100)) (pad2 n)).

(** The year of the canonical form: four digits from 0 to 9999; outside,
    where the form YYYY does not reach, the decimal number with its sign. *)
Definition year_text (y : Z) : string :=
  if (0 <=? y) && (y <=? 9999) then pad4 y
  else if y <? 0 then NilZero.string_of_int (Z.to_int y)
  else String "+" (NilZero.string_of_int (Z.to_int y)).

(** Modelled from the spec: formatDate of utils/dateUtils is not among the
    sources; the specification has it canonicalize a date to the
    YYYY-MM-DD form. *)
Definition formatDate (z : Z) : string :=
  let '(y, m, d) := civil_from_days z in
  year_text y +:+ "-" +:+ pad2 m +:+ "-" +:+ pad2 d.

Definition digit_value (c : ascii) : option Z :=
  let n := Z.of_N (N_of_ascii c) in
  if (48 <=? n) && (n <=? 57) then Some (n - 48) else None.

(** [new Date(s)] on the date-only form YYYY-MM-DD that a date field
    submits: midnight UTC of that day.  As in V8, a day up to 31 that the
    month does not have runs over into the next month.  Texts in other
    forms, some of which the engine reads as well, are outside the model
    and stand for Invalid Date. *)
Definition new_Date (s : string) : JsDate :=
  match list_ascii_of_string s with
  | [y3; y2; y1; y0; s1; m1; m0; s2; d1; d0] =>
      if negb (Ascii.eqb s1 "-"%char && Ascii.eqb s2 "-"%char) then Invalid_Date else
      match digit_value y3, digit_value y2, digit_value y1, digit_value y0,
            digit_value m1, digit_value m0, digit_value d1, digit_value d0 with
      | Some a, Some b, Some c, Some e, Some f, Some g, Some h, Some i =>
          let y := 1000 * a + 100 * b + 10 * c + e in
          let m := 10 * f + g in
          let d := 10 * h + i in
          if (1 <=? m) && (m <=? 12) && (1 <=? d) && (d <=? 31)
          then Day (days_from_civil y m d)
          else Invalid_Date
      | _, _, _, _, _, _, _, _ => Invalid_Date
      end
  | _ => Invalid_Date
  end.


(** Modelled from the spec: formatDate applied to a request string.  The
    specification has the date utilities raise a computation error on an
    unparseable string, here [None]. *)
Definition formatDate_input (s : string) : option string :=
  match new_Date s with
  | Invalid_Date => None
  | Day n => Some (formatDate n)
  end.

(** The days [first], [first+1], ... ([count] of them). *)
Fixpoint day_seq (first : Z) (count : nat) : list Z :=
  match count with
  | O => []
  | S k => first :: day_seq (first + 1) k
  end.

(** Modelled from the spec: getWeekdaysInMonth of utils/dateUtils is not
    among the sources; the specification has it count the days of the month
    whose day of week is not a weekend day. *)
Definition getWeekdaysInMonth (year month : Z) : Z :=
  Z.of_nat (length (filter (fun d => isWeekend d = false)
    (day_seq (days_from_civil year month 1)
             (Z.to_nat (days_in_month year month))))).

(** The supported window of the views: 1 January 2020 to 31 December
    2030, as day numbers. *)
Definition first_supported_day : Z := days_from_civil 2020 1 1.
Definition last_supported_day : Z := days_from_civil 2030 12 31.

(** The order of the canonical form: text before text. *)
Definition date_text_lt (a b : string) : Prop := String.compare a b = Lt.

End CalendarMath.

(** ** Rows of the directory and of the record tables, as the models return
    them *)

Module PublicHoliday.
Record t : Type := { holiday_date : Z; name : string }.
End PublicHoliday.

Module User.
Record t : Type := {
  id : N; name : option string; email : string; group_id : option N
}.
End User.

Module Group.
Record t : Type := { id : N; name : string }.
End Group.

Module Holiday.
Record t : Type := { user_id : N; holiday_date : Z }.
End Holiday.

Module WorkLocation.
Record t : Type := { user_id : N; work_date : Z; is_onsite : option bool }.
End WorkLocation.

(** ** Values and built-ins of the language that the routes rely on *)

Module Js.

(** A string is falsy when it is absent or empty: [truthy s] is the string
    when it counts as true. *)
Definition truthy (s : option string) : option string :=
  match s with
  | Some "" => None
  | other => other
  end.

(** [s.split(sep)[0]]: the text before the first separator. *)
Fixpoint split0 (sep : ascii) (s : string) : string :=
  match s with
  | "" => ""
  | String c rest => if Ascii.eqb c sep then "" else String c (split0 sep rest)
  end.

(** An object whose keys are array indices ([groupMap]): the entries, kept
    in ascending key order, which is the order of [Object.values]. *)
Fixpoint obj_set {V : Type} (k : N) (v : V) (o : list (N * V)) : list (N * V) :=
  match o with
  | [] => [(k, v)]
  | (k', v') :: rest =>
      if (k <? k')%N then (k, v) :: o
      else if (k =? k')%N then (k, v) :: rest
      else (k', v') :: obj_set k v rest
  end.

Fixpoint obj_get {V : Type} (k : N) (o : list (N * V)) : option V :=
  match o with
  | [] => None
  | (k', v') :: rest => if (k =? k')%N then Some v' else obj_get k rest
  end.

Definition Object_values {V : Type} (o : list (N * V)) : list V := map snd o.

(** [Array.prototype.sort(comparefn)] is a stable sort; by stable insertion:
    an element goes before the first one that it does not follow. *)
Fixpoint sort_insert {A : Type} (comparefn : A -> A -> Z) (x : A) (l : list A)
  : list A :=
  match l with
  | [] => [x]
  | y :: rest =>
      if comparefn x y <=? 0 then x :: l
      else y :: sort_insert comparefn x rest
  end.

Definition Array_sort {A : Type} (comparefn : A -> A -> Z) (l : list A)
  : list A :=
  foldr (sort_insert comparefn) [] l.

End Js.

(** ** BusinessDayFilter: generateDateRange of routes/holidays *)

Module BusinessDays.
Import CalendarMath.

(** [new Set(publicHolidays.map(ph => formatDate(ph.holiday_date)))] *)
Definition publicHolidayDates (publicHolidays : list PublicHoliday.t)
  : gset string :=
  list_to_set (map (fun ph => formatDate (PublicHoliday.holiday_date ph))
                   publicHolidays).

(** The body of one turn of the loop: the date is pushed unless it is a
    Sunday, a Saturday or a member of the set. *)
Definition push_if_business (holidays : gset string) (currentDate : Z)
    (dates : list string) : list string :=
  let dayOfWeek := getDay currentDate in
  let currentDateStr := formatDate currentDate in
  if negb (dayOfWeek =? 0) && negb (dayOfWeek =? 6)
     && negb (bool_decide (currentDateStr ∈ holidays))
  then dates ++ [currentDateStr]
  else dates.

(** [while (currentDate <= lastDate) { ...; currentDate.setDate(+1) }];
    [None] when the fuel runs out before the condition fails. *)
Fixpoint generateDateRange_loop (fuel : nat) (holidays : gset string)
    (currentDate lastDate : Z) (dates : list string) : option (list string) :=
  if currentDate <=? lastDate then
    match fuel with
    | O => None
    | S fuel' =>
        generateDateRange_loop fuel' holidays (currentDate + 1) lastDate
          (push_if_business holidays currentDate dates)
    end
  else Some dates.

(** generateDateRange on the two [Date] objects.  A comparison with an
    Invalid Date is false, so the loop body never runs. *)
Definition generateDateRange_fuel (fuel : nat) (currentDate lastDate : JsDate)
    (publicHolidays : list PublicHoliday.t) : option (list string) :=
  match currentDate, lastDate with
  | Day c, Day l =>
      generateDateRange_loop fuel (publicHolidayDates publicHolidays) c l []
  | _, _ => Some []
  end.

(** The number of turns that the loop takes. *)
Definition turns (currentDate lastDate : JsDate) : nat :=
  match currentDate, lastDate with
  | Day c, Day l => Z.to_nat (l - c + 1)
  | _, _ => O
  end.

Definition generateDateRange (startDate endDate : string)
    (publicHolidays : list PublicHoliday.t) : list string :=
  let currentDate := new_Date startDate in
  let lastDate := new_Date endDate in
  default [] (generateDateRange_fuel (turns currentDate lastDate)
                currentDate lastDate publicHolidays).

(** The business days of the specification: every day from [first] to
    [last] that is neither a weekend day nor in the canonical set. *)
Definition business_day (holidays : gset string) (d : Z) : Prop :=
  isWeekend d = false ∧ formatDate d ∉ holidays.

Definition business_days (holidays : gset string) (first last : Z) : list Z :=
  filter (business_day holidays) (day_seq first (Z.to_nat (last - first + 1))).

(** The calendar days of an interval given by two request strings, from
    the start to the end inclusive; none when a string is no date. *)
Definition interval_days (startDate endDate : string) : list Z :=
  match new_Date startDate, new_Date endDate with
  | Day s, Day e => day_seq s (Z.to_nat (e - s + 1))
  | _, _ => []
  end.

End BusinessDays.

(** ** HolidayRequestValidator and the write: POST / of routes/holidays *)

Module AddHoliday.
Import CalendarMath BusinessDays Js.

(** A row of the holidays table, as the INSERT writes it. *)
Record HolidayRow : Type := { user_id : N; holiday_date : string }.

(** The fields of [req.body]; [None] is an absent field. *)
Record Body : Type := { start_date : option string; end_date : option string }.

(** What the handler reads from outside: the public holidays of a date
    range ([None]: the call rejects), and whether the k-th query of a
    transaction succeeds. *)
Record World : Type := {
  findByDateRange : string -> string -> option (list PublicHoliday.t);
  query_ok : nat -> bool
}.

(** A world in which every read gives the same public holidays and no
    query is rejected. *)
Definition quiet_world (publicHolidays : list PublicHoliday.t) : World :=
  {| findByDateRange := fun _ _ => Some publicHolidays;
     query_ok := fun _ => true |}.

(** The redirects of the handler. *)
Inductive Outcome : Type :=
| invalid_date
| weekend_not_allowed
| public_holiday_not_allowed
| no_valid_days
| failed
| success (holidayDates : list string).

(** The client of a transaction: the table and the number of queries sent
    so far; [None] is a rejected query. *)
Definition Tx (A : Type) : Type :=
  list HolidayRow * nat -> option (A * (list HolidayRow * nat)).

Definition tx_ret {A} (a : A) : Tx A := fun st => Some (a, st).

Definition tx_bind {A B} (m : Tx A) (k : A -> Tx B) : Tx B :=
  fun st => match m st with
            | Some (a, st') => k a st'
            | None => None
            end.

Definition same_key (userId : N) (date : string) (r : HolidayRow) : Prop :=
  user_id r = userId ∧ holiday_date r = date.

Global Instance same_key_dec userId date r : Decision (same_key userId date r).
Proof. unfold same_key. apply _. Defined.

(** SELECT id FROM holidays WHERE user_id = $1 AND holiday_date = $2 *)
Definition select_existing (w : World) (userId : N) (date : string)
  : Tx (list HolidayRow) :=
  fun '(table, sent) =>
    if query_ok w sent
    then Some (filter (same_key userId date) table, (table, S sent))
    else None.

(** INSERT INTO holidays (user_id, holiday_date) VALUES ($1, $2) *)
Definition insert_holiday (w : World) (userId : N) (date : string) : Tx unit :=
  fun '(table, sent) =>
    if query_ok w sent
    then Some (tt, (table ++ [{| user_id := userId; holiday_date := date |}],
                    S sent))
    else None.

(** The body of the transaction: for each date, a check and then an insert
    when no row exists. *)
Fixpoint write_dates (w : World) (userId : N) (holidayDates : list string)
  : Tx unit :=
  match holidayDates with
  | [] => tx_ret tt
  | date :: rest =>
      tx_bind (select_existing w userId date) (fun existing =>
      tx_bind (if (length existing =? 0)%nat
               then insert_holiday w userId date
               else tx_ret tt) (fun _ =>
      write_dates w userId rest))
  end.

(** Whether the table has a row of the user for the date. *)
Definition recorded (userId : N) (date : string) (table : list HolidayRow)
  : bool :=
  negb (length (filter (same_key userId date) table) =? 0)%nat.

(** The table with a row added for every date that has none, in order. *)
Fixpoint add_missing (userId : N) (holidayDates : list string)
    (table : list HolidayRow) : list HolidayRow :=
  match holidayDates with
  | [] => table
  | date :: rest =>
      add_missing userId rest
        (if recorded userId date table then table
         else table ++ [{| user_id := userId; holiday_date := date |}])
  end.

(** Modelled from the spec: dbAsync.transaction of db/database is not among
    the sources; the specification has the write execute as a single
    all-or-nothing transaction, committed or rolled back as a whole.  The
    result is the committed table, or [None] with the table as it was. *)
Definition transaction (body : Tx unit) (table : list HolidayRow)
  : option (list HolidayRow) :=
  match body (table, O) with
  | Some (_, (table', _)) => Some table'
  | None => None
  end.

(** The last steps of the handler, once the public holidays are read and
    the start date is formatted: the public-holiday rule, the generated
    days, the write. *)
Definition check_and_write (w : World) (userId : N)
    (start actualEndDate startDateFormatted : string)
    (publicHolidays : list PublicHoliday.t) (table : list HolidayRow)
  : Outcome * list HolidayRow :=
  if existsb (fun ph =>
                String.eqb (formatDate (PublicHoliday.holiday_date ph))
                           startDateFormatted) publicHolidays
  then (public_holiday_not_allowed, table)
  else
    let holidayDates := generateDateRange start actualEndDate publicHolidays in
    if (length holidayDates =? 0)%nat
    then (no_valid_days, table)
    else
      match transaction (write_dates w userId holidayDates) table with
      | None => (failed, table)
      | Some table' => (success holidayDates, table')
      end.

(** The handler: the redirect and the holidays table afterwards.  The text
    of the success message is left out; [success] carries the dates. *)
Definition post_holidays (w : World) (userId : N) (body : Body)
    (table : list HolidayRow) : Outcome * list HolidayRow :=
  match truthy (start_date body) with
  | None => (invalid_date, table)
  | Some start =>
      let startDayOfWeek := getDay_of (new_Date start) in
      if bool_decide (startDayOfWeek = Some 0 ∨ startDayOfWeek = Some 6)
      then (weekend_not_allowed, table)
      else
        let actualEndDate := default start (truthy (end_date body)) in
        match findByDateRange w start actualEndDate with
        | None => (failed, table)
        | Some publicHolidays =>
            match formatDate_input start with
            | None => (failed, table)
            | Some startDateFormatted =>
                check_and_write w userId start actualEndDate
                  startDateFormatted publicHolidays table
            end
        end
  end.

End AddHoliday.

(** ** MonthlyStatsAggregator: the month statistics of the home page *)

Module MonthlyStats.
Import CalendarMath.

Definition hoursPerDay : Z := 8.

(** [Math.round(x * 100) / 100]; [Math.round] is the floor of [x + 1/2]. *)
Definition round2 (x : Q) : Q :=
  (inject_Z (Qfloor (x * 100 + (1 # 2))%Q) / 100)%Q.

(** [Math.max(0, x)] *)
Definition max0 (x : Q) : Q := if Qle_bool 0 x then x else 0%Q.

(** The public holidays that fall on weekdays. *)
Definition publicHolidaysOnWorkdays (publicHolidays : list PublicHoliday.t)
  : list PublicHoliday.t :=
  filter (fun holiday =>
            let dayOfWeek := getDay (PublicHoliday.holiday_date holiday) in
            dayOfWeek ≠ 0 ∧ dayOfWeek ≠ 6) publicHolidays.

Definition requiredMonthlyHours (currentYear currentMonth : Z)
    (publicHolidays : list PublicHoliday.t) : Z :=
  let workDaysInMonth := getWeekdaysInMonth currentYear currentMonth in
  (workDaysInMonth - Z.of_nat (length publicHolidays)) * hoursPerDay.

Definition totalHolidayHours (holidayCount : Z) : Z :=
  holidayCount * hoursPerDay.

Definition publicHolidayHours (publicHolidays : list PublicHoliday.t) : Z :=
  Z.of_nat (length (publicHolidaysOnWorkdays publicHolidays)) * hoursPerDay.

Definition totalCombinedHours (totalWorkHours : Q) (holidayCount : Z) : Q :=
  (totalWorkHours + inject_Z (totalHolidayHours holidayCount))%Q.

Definition remainingHours (currentYear currentMonth : Z) (totalWorkHours : Q)
    (holidayCount : Z) (publicHolidays : list PublicHoliday.t) : Q :=
  max0 (inject_Z (requiredMonthlyHours currentYear currentMonth publicHolidays)
        - totalCombinedHours totalWorkHours holidayCount)%Q.

(** The [monthStats] object handed to the template: three of its fields
    are rounded to two decimals. *)
Record MonthStats : Type := {
  stat_totalWorkHours : Q;
  stat_holidayCount : Z;
  stat_totalHolidayHours : Z;
  stat_publicHolidaysCount : Z;
  stat_publicHolidayHours : Z;
  stat_totalCombinedHours : Q;
  stat_requiredMonthlyHours : Z;
  stat_remainingHours : Q
}.

Definition monthStats (currentYear currentMonth : Z) (totalWorkHours : Q)
    (holidayCount : Z) (publicHolidays : list PublicHoliday.t) : MonthStats :=
  {| stat_totalWorkHours := round2 totalWorkHours;
     stat_holidayCount := holidayCount;
     stat_totalHolidayHours := totalHolidayHours holidayCount;
     stat_publicHolidaysCount :=
       Z.of_nat (length (publicHolidaysOnWorkdays publicHolidays));
     stat_publicHolidayHours := publicHolidayHours publicHolidays;
     stat_totalCombinedHours :=
       round2 (totalCombinedHours totalWorkHours holidayCount);
     stat_requiredMonthlyHours :=
       requiredMonthlyHours currentYear currentMonth publicHolidays;
     stat_remainingHours :=
       round2 (remainingHours currentYear currentMonth totalWorkHours
                 holidayCount publicHolidays) |}.

End MonthlyStats.

(** ** Month and year of the grouping views *)

Module MonthQuery.
Import CalendarMath.

(** The value of [parseInt(req.query.month)]: an integer or NaN. *)
Inductive JsNumber : Type :=
| NaN
| Num (z : Z).

(** [n || fallback]: NaN and 0 are falsy. *)
Definition or_else (n : JsNumber) (fallback : Z) : Z :=
  match n with
  | NaN => fallback
  | Num z => if z =? 0 then fallback else z
  end.

(** [parseInt(req.query.month) || new Date().getMonth() + 1], then
    [Math.max(1, Math.min(12, queryMonth))]; [today] is the day of the
    request. *)
Definition month_of_query (parsedMonth : JsNumber) (today : Z) : Z :=
  let queryMonth := or_else parsedMonth (getMonth1 today) in
  Z.max 1 (Z.min 12 queryMonth).

(** [parseInt(req.query.year) || new Date().getFullYear()], then
    [Math.max(2020, Math.min(2030, queryYear))]. *)
Definition year_of_query (parsedYear : JsNumber) (today : Z) : Z :=
  let queryYear := or_else parsedYear (getFullYear today) in
  Z.max 2020 (Z.min 2030 queryYear).

(** The nearest value of [lo..hi] to [z], in the words of the
    specification. *)
Definition nearest_in (lo hi z : Z) : Z :=
  if z <? lo then lo else if hi <? z then hi else z.

End MonthQuery.

(** ** CrossUserGroupingEngine: GET /employees/by-person of routes/holidays *)

Module ByPerson.
Import CalendarMath Js MonthQuery.

Record Employee : Type := {
  emp_id : N;
  emp_name : string;
  emp_email : string;
  holidays : list string;
  holidayCount : nat;
  workLocations : gmap string (option bool);
  remoteDates : list string;
  remoteDaysCount : nat
}.

Record GroupEntry : Type := {
  id : N;
  name : string;
  employees : list Employee
}.

Record View : Type := {
  month : Z;
  year : Z;
  groupedEmployees : list GroupEntry;
  daysInMonth : list string;
  publicHolidays : gmap string string;
  totalEmployeesWithHolidays : nat;
  totalEmployeesWithRemoteWork : nat
}.

(** Holidays grouped by user id. *)
Definition holidaysByUser (allHolidays : list Holiday.t)
  : gmap N (list Holiday.t) :=
  foldl (fun acc holiday =>
           let uid := Holiday.user_id holiday in
           <[uid := default [] (acc !! uid) ++ [holiday]]> acc)
        ∅ allHolidays.

(** Work locations grouped by user id, then keyed by formatted date. *)
Definition workLocationsByUser (allWorkLocations : list WorkLocation.t)
  : gmap N (gmap string (option bool)) :=
  foldl (fun acc location =>
           let uid := WorkLocation.user_id location in
           <[uid := <[formatDate (WorkLocation.work_date location) :=
                        WorkLocation.is_onsite location]>
                    (default ∅ (acc !! uid))]> acc)
        ∅ allWorkLocations.

(** [publicHolidaysMap[formatDate(ph.holiday_date)] = ph.name] *)
Definition publicHolidaysMap (publicHolidaysRaw : list PublicHoliday.t)
  : gmap string string :=
  foldl (fun acc ph =>
           <[formatDate (PublicHoliday.holiday_date ph) :=
               PublicHoliday.name ph]> acc)
        ∅ publicHolidaysRaw.

(** [while (date.getMonth() === month - 1) { push; date.setDate(+1) }] *)
Fixpoint daysInMonth_loop (fuel : nat) (month date : Z) (acc : list string)
  : option (list string) :=
  if getMonth1 date =? month then
    match fuel with
    | O => None
    | S fuel' =>
        daysInMonth_loop fuel' month (date + 1) (acc ++ [formatDate date])
    end
  else Some acc.

(** [const date = new Date(year, month - 1, 1)] and the loop.  The route
    calls it with a year from 2020 to 2030 and a month from 1 to 12, where
    the constructor gives the first day of that month ([days_from_civil]);
    a year below 100, which the constructor takes as 1900 + year, does not
    come here. *)
Definition daysInMonth_fuel (fuel : nat) (year month : Z)
  : option (list string) :=
  daysInMonth_loop fuel month (days_from_civil year month 1) [].

(** No month has more than 31 days. *)
Definition allDaysInMonth (year month : Z) : list string :=
  default [] (daysInMonth_fuel 32 year month).

(** The test of the inner loop: a day counts as remote work when the
    declared location is [false] and the day is no weekend, has no entry in
    the public-holiday map that counts as true, and is no holiday of the
    user. *)
Definition counts_as_remote (holidaysMap : gmap string string)
    (holidayDates : list string) (userWorkLocations : gmap string (option bool))
    (dateStr : string) : bool :=
  let dateKey := split0 "T" dateStr in
  let dayOfWeek := getDay_of (new_Date dateStr) in
  let isWeekend := bool_decide (dayOfWeek = Some 0 ∨ dayOfWeek = Some 6) in
  let isPublicHoliday := truthy (holidaysMap !! dateKey) in
  let isHoliday := bool_decide (dateStr ∈ holidayDates) in
  let isRemote := bool_decide (userWorkLocations !! dateKey = Some (Some false)) in
  isRemote && negb isWeekend && negb (bool_decide (is_Some isPublicHoliday))
  && negb isHoliday.

Definition holidayDates_of (byUser : gmap N (list Holiday.t)) (user : User.t)
  : list string :=
  map (fun h => formatDate (Holiday.holiday_date h))
      (default [] (byUser !! User.id user)).

Definition remoteDates_of (holidaysMap : gmap string string)
    (byUser : gmap N (list Holiday.t))
    (locations : gmap N (gmap string (option bool)))
    (days : list string) (user : User.t) : list string :=
  filter
    (fun dateStr =>
       counts_as_remote holidaysMap (holidayDates_of byUser user)
         (default ∅ (locations !! User.id user)) dateStr = true)
    days.

Definition employeeData (holidaysMap : gmap string string)
    (byUser : gmap N (list Holiday.t))
    (locations : gmap N (gmap string (option bool)))
    (days : list string) (user : User.t) : Employee :=
  let holidayDates := holidayDates_of byUser user in
  let remote := remoteDates_of holidaysMap byUser locations days user in
  {| emp_id := User.id user;
     emp_name := default (split0 "@" (User.email user)) (truthy (User.name user));
     emp_email := User.email user;
     holidays := holidayDates;
     holidayCount := length holidayDates;
     workLocations := default ∅ (locations !! User.id user);
     remoteDates := remote;
     remoteDaysCount := length remote |}.

(** Users with holidays or remote work in the month. *)
Definition included (e : Employee) : bool :=
  (0 <? holidayCount e)%nat || (0 <? remoteDaysCount e)%nat.

(** The group map at the start: every group, then the entry 0. *)
Definition initial_groupMap (allGroups : list Group.t) : list (N * GroupEntry) :=
  obj_set 0%N {| id := 0%N; name := "Bez grupy"; employees := [] |}
    (foldl (fun acc group =>
              obj_set (Group.id group)
                {| id := Group.id group; name := Group.name group;
                   employees := [] |} acc)
           [] allGroups).

(** [user.group_id || 0] *)
Definition groupId_of (user : User.t) : N := default 0%N (User.group_id user).

(** [groupMap[groupId].employees.push(employeeData)]; [None] is the
    TypeError on a group that the map does not have. *)
Definition push_employee (groupMap : list (N * GroupEntry)) (user : User.t)
    (e : Employee) : option (list (N * GroupEntry)) :=
  let groupId := groupId_of user in
  match obj_get groupId groupMap with
  | None => None
  | Some g =>
      Some (obj_set groupId
              {| id := id g; name := name g; employees := employees g ++ [e] |}
              groupMap)
  end.

Fixpoint process_users (data : User.t -> Employee) (allUsers : list User.t)
    (groupMap : list (N * GroupEntry)) : option (list (N * GroupEntry)) :=
  match allUsers with
  | [] => Some groupMap
  | user :: rest =>
      let e := data user in
      if included e
      then match push_employee groupMap user e with
           | None => None
           | Some groupMap' => process_users data rest groupMap'
           end
      else process_users data rest groupMap
  end.

(** The days of a month, first to last. *)
Definition month_days (year month : Z) : list Z :=
  day_seq (days_from_civil year month 1) (Z.to_nat (days_in_month year month)).

(** A check on one month: the loop of the days ends on the fuel given and
    lists the days of the month, and each formatted day reads back as the
    same day and has no time part. *)
Definition month_reads_back (year month : Z) : bool :=
  bool_decide (daysInMonth_fuel 32 year month
               = Some (map formatDate (month_days year month)))
  && forallb (fun d =>
                match new_Date (formatDate d) with
                | Day n => n =? d
                | Invalid_Date => false
                end
                && String.eqb (split0 "T" (formatDate d)) (formatDate d))
             (month_days year month).

(** A group entry with the employees of a list of users added: those who
    are included and belong to the key of the entry. *)
Definition with_members (data : User.t -> Employee) (users : list User.t)
    (entry : N * GroupEntry) : N * GroupEntry :=
  (entry.1,
   {| id := id entry.2;
      name := name entry.2;
      employees :=
        employees entry.2
        ++ map data (filter (fun u => included (data u) = true
                                      /\ groupId_of u = entry.1) users) |}).

(** The location that a user declared for a day: the value of the last
    record of the user for that day, if there is one. *)
Definition declared_location (allWorkLocations : list WorkLocation.t)
    (uid : N) (d : Z) : option (option bool) :=
  WorkLocation.is_onsite
  <$> last (filter (fun l => WorkLocation.user_id l = uid
                             /\ WorkLocation.work_date l = d)
                   allWorkLocations).

(** The name under which the view knows a day as a public holiday: the
    name of the last public holiday on that day, when it counts as true. *)
Definition public_holiday_name (publicHolidaysRaw : list PublicHoliday.t)
    (d : Z) : option string :=
  truthy (PublicHoliday.name
          <$> last (filter (fun ph => PublicHoliday.holiday_date ph = d)
                           publicHolidaysRaw)).

(** The days that the view counts as remote work of a user. *)
Definition counted_remote_day (publicHolidaysRaw : list PublicHoliday.t)
    (allHolidays : list Holiday.t) (allWorkLocations : list WorkLocation.t)
    (user : User.t) (d : Z) : Prop :=
  declared_location allWorkLocations (User.id user) d = Some (Some false)
  /\ isWeekend d = false
  /\ public_holiday_name publicHolidaysRaw d = None
  /\ ~ (exists h, h ∈ allHolidays /\ Holiday.user_id h = User.id user
                   /\ Holiday.holiday_date h = d).

(** The remote working days of a user in the words of the specification:
    the declared location is remote, and the day is no weekend day, no
    public holiday and no holiday of the user. *)
Definition qualifying_remote_day (publicHolidaysRaw : list PublicHoliday.t)
    (allHolidays : list Holiday.t) (allWorkLocations : list WorkLocation.t)
    (user : User.t) (d : Z) : Prop :=
  declared_location allWorkLocations (User.id user) d = Some (Some false)
  /\ isWeekend d = false
  /\ ~ (exists ph, ph ∈ publicHolidaysRaw /\ PublicHoliday.holiday_date ph = d)
  /\ ~ (exists h, h ∈ allHolidays /\ Holiday.user_id h = User.id user
                   /\ Holiday.holiday_date h = d).

Global Instance holiday_on_dec (allHolidays : list Holiday.t) (uid : N) (d : Z) :
  Decision (exists h, h ∈ allHolidays /\ Holiday.user_id h = uid
                      /\ Holiday.holiday_date h = d).
Proof.
  refine (cast_if (decide (Exists (fun h => Holiday.user_id h = uid
                                           /\ Holiday.holiday_date h = d)
                                  allHolidays)));
    abstract (rewrite Exists_exists in *; assumption).
Defined.

Global Instance public_holiday_on_dec (publicHolidaysRaw : list PublicHoliday.t)
    (d : Z) :
  Decision (exists ph, ph ∈ publicHolidaysRaw
                       /\ PublicHoliday.holiday_date ph = d).
Proof.
  refine (cast_if (decide (Exists (fun ph => PublicHoliday.holiday_date ph = d)
                                  publicHolidaysRaw)));
    abstract (rewrite Exists_exists in *; assumption).
Defined.

Global Instance counted_remote_day_dec phs hs wls user d :
  Decision (counted_remote_day phs hs wls user d).
Proof. unfold counted_remote_day. apply _. Defined.

Global Instance qualifying_remote_day_dec phs hs wls user d :
  Decision (qualifying_remote_day phs hs wls user d).
Proof. unfold qualifying_remote_day. apply _. Defined.

(** A comparison of names by code points, to run the view on examples. *)
Definition codepoint_compare (a b : string) : Z :=
  match String.compare a b with
  | Lt => -1
  | Eq => 0
  | Gt => 1
  end.

Section Sorting.
Variable localeCompare : string -> string -> Z.

(** The comparison function of the sort of the groups. *)
Definition compare_groups (a b : GroupEntry) : Z :=
  if (id a =? 0)%N then 1
  else if (id b =? 0)%N then -1
  else localeCompare (name a) (name b).

(** The order of the specification: the entry 0 after every other one,
    the others by name. *)
Definition groups_in_order (a b : GroupEntry) : Prop :=
  id b = 0%N
  \/ (id a <> 0%N /\ id b <> 0%N /\ localeCompare (name a) (name b) <= 0).

Definition sort_groups (groupMap : list (N * GroupEntry)) : list GroupEntry :=
  Array_sort compare_groups
    (filter (fun group => (0 < length (employees group))%nat)
       (Object_values groupMap)).

Definition count_employees (p : Employee -> bool) (groups : list GroupEntry)
  : nat :=
  foldl (fun n group =>
           foldl (fun n employee => if p employee then S n else n)
                 n (employees group))
        O groups.

(** The view on records already fetched; [None] is the page of the catch
    branch. *)
Definition groupByPerson (year month : Z) (allUsers : list User.t)
    (allGroups : list Group.t) (publicHolidaysRaw : list PublicHoliday.t)
    (allHolidays : list Holiday.t) (allWorkLocations : list WorkLocation.t)
  : option View :=
  let byUser := holidaysByUser allHolidays in
  let locations := workLocationsByUser allWorkLocations in
  let holidaysMap := publicHolidaysMap publicHolidaysRaw in
  let days := allDaysInMonth year month in
  match process_users (employeeData holidaysMap byUser locations days)
          allUsers (initial_groupMap allGroups) with
  | None => None
  | Some groupMap =>
      let groups := sort_groups groupMap in
      Some {| month := month;
              year := year;
              groupedEmployees := groups;
              daysInMonth := days;
              publicHolidays := holidaysMap;
              totalEmployeesWithHolidays :=
                count_employees (fun e => (0 <? holidayCount e)%nat) groups;
              totalEmployeesWithRemoteWork :=
                count_employees (fun e => (0 <? remoteDaysCount e)%nat) groups |}
  end.

(** What the route awaits from the models; [None] is a rejected call. *)
Record Models : Type := {
  User_getAll : option (list User.t);
  Group_findAll : option (list Group.t);
  PublicHoliday_findByMonthAndYear : Z -> Z -> option (list PublicHoliday.t);
  Holiday_findAllByDateRange : string -> string -> option (list Holiday.t);
  WorkLocation_findAllByDateRange :
    string -> string -> option (list WorkLocation.t)
}.

(** Modelled from the spec: getMonthDateRange of utils/dateUtils is not
    among the sources; the specification has it span the first to the last
    calendar day of the month. *)
Definition getMonthDateRange (year month : Z) : string * string :=
  let first := days_from_civil year month 1 in
  (formatDate first, formatDate (first + days_in_month year month - 1)).

(** The route: month and year of the query, the five reads, the view. *)
Definition by_person (models : Models) (parsedMonth parsedYear : JsNumber)
    (today : Z) : option View :=
  let month := month_of_query parsedMonth today in
  let year := year_of_query parsedYear today in
  let '(startDate, endDate) := getMonthDateRange year month in
  allUsers ← User_getAll models;
  allGroups ← Group_findAll models;
  publicHolidaysRaw ← PublicHoliday_findByMonthAndYear models month year;
  allHolidays ← Holiday_findAllByDateRange models startDate endDate;
  allWorkLocations ← WorkLocation_findAllByDateRange models startDate endDate;
  groupByPerson year month allUsers allGroups publicHolidaysRaw allHolidays
    allWorkLocations.

End Sorting.

(** Records of May 2024 to run the view on.  Day 19844 is Wednesday 1 May
    2024; 4 and 5 May are a weekend. *)
Definition may_groups : list Group.t :=
  [ {| Group.id := 1; Group.name := "Zespol" |};
    {| Group.id := 2; Group.name := "Analitycy" |};
    {| Group.id := 3; Group.name := "Kadry" |} ].

Definition anna : User.t :=
  {| User.id := 10; User.name := Some "Anna"; User.email := "anna@example.com";
     User.group_id := Some 1%N |}.
Definition bartek : User.t :=
  {| User.id := 11; User.name := Some "Bartek";
     User.email := "bartek@example.com"; User.group_id := Some 2%N |}.
Definition celina : User.t :=
  {| User.id := 12; User.name := None; User.email := "celina@example.com";
     User.group_id := None |}.
Definition ewa : User.t :=
  {| User.id := 14; User.name := Some "Ewa"; User.email := "ewa@example.com";
     User.group_id := Some 2%N |}.

Definition may_holidays : list Holiday.t :=
  [ {| Holiday.user_id := 10; Holiday.holiday_date := 19849 |};
    {| Holiday.user_id := 10; Holiday.holiday_date := 19850 |};
    {| Holiday.user_id := 10; Holiday.holiday_date := 19851 |};
    {| Holiday.user_id := 14; Holiday.holiday_date := 19865 |} ].

Definition remote_on (uid : N) (d : Z) : WorkLocation.t :=
  {| WorkLocation.user_id := uid; WorkLocation.work_date := d;
     WorkLocation.is_onsite := Some false |}.

Definition may_locations : list WorkLocation.t :=
  [ remote_on 10 19844; remote_on 10 19847; remote_on 10 19852;
    remote_on 10 19853; remote_on 12 19856;
    {| WorkLocation.user_id := 11; WorkLocation.work_date := 19856;
       WorkLocation.is_onsite := Some true |} ].

Definition labour_day : PublicHoliday.t :=
  {| PublicHoliday.holiday_date := 19844; PublicHoliday.name := "Labour Day" |}.

(** A public holiday on Friday 3 May 2024, recorded without a name. *)
Definition unnamed_holiday : PublicHoliday.t :=
  {| PublicHoliday.holiday_date := 19846; PublicHoliday.name := "" |}.

End ByPerson.

(** ** Text built-ins of the language used by the calendars and the
    message codes *)

Module JsText.

(** [String(n)] and [`${n}`] of an integer of magnitude below 1e21: its
    decimal digits, with a minus sign when negative. *)
Definition Number_toString (z : Z) : string :=
  NilZero.string_of_int (Z.to_int z).

(** [s.padStart(2, "0")] *)
Definition padStart2 (s : string) : string :=
  match s with
  | "" => "00"
  | String c "" => String "0" s
  | _ => s
  end.

(** [s.startsWith(p)] *)
Definition startsWith (s p : string) : bool := String.prefix p s.

(** [s.includes(p)] *)
Fixpoint includes (s p : string) : bool :=
  String.prefix p s
  || match s with
     | "" => false
     | String _ rest => includes rest p
     end.

Fixpoint drop_chars (n : nat) (s : string) : string :=
  match n, s with
  | S k, String _ rest => drop_chars k rest
  | _, _ => s
  end.

(** [s.replace(p, r)] with a string pattern: the first occurrence only.
    The replacement texts of the routes hold no dollar sign. *)
Fixpoint replace (s p r : string) : string :=
  if String.prefix p s then r +:+ drop_chars (String.length p) s
  else match s with
       | "" => ""
       | String c rest => String c (replace rest p r)
       end.

End JsText.

(** ** MultiMonthCalendarBuilder: the work-location calendars of the home
    page *)

Module HomeCalendar.
Import CalendarMath Js JsText.

(** MakeDay of the language: the month index may lie outside 0..11 and the
    day outside the month; both run over into the neighbouring months. *)
Definition MakeDay (year month date : Z) : Z :=
  days_from_civil (year + month / 12) (month mod 12 + 1) 1 + (date - 1).

(** [new Date(year, monthIndex, day)]; a year from 0 to 99 stands for
    1900 + year. *)
Definition new_Date_fields (year monthIndex day : Z) : Z :=
  MakeDay (if (0 <=? year) && (year <=? 99) then 1900 + year else year)
          monthIndex day.

(** The months around the current one, with the wraparound of the year. *)
Record MonthWindow : Type := {
  prevMonth : Z; prevYear : Z;
  nextMonth : Z; nextYear : Z;
  nextMonth2 : Z; nextYear2 : Z
}.

Definition month_window (currentMonth currentYear : Z) : MonthWindow :=
  let prevMonth := if currentMonth =? 1 then 12 else currentMonth - 1 in
  let prevYear := if currentMonth =? 1 then currentYear - 1 else currentYear in
  let nextMonth := if currentMonth =? 12 then 1 else currentMonth + 1 in
  let nextYear := if currentMonth =? 12 then currentYear + 1 else currentYear in
  let nextMonth2 := if nextMonth =? 12 then 1 else nextMonth + 1 in
  let nextYear2 := if nextMonth =? 12 then nextYear + 1 else nextYear in
  {| prevMonth := prevMonth; prevYear := prevYear;
     nextMonth := nextMonth; nextYear := nextYear;
     nextMonth2 := nextMonth2; nextYear2 := nextYear2 |}.

Definition monthNames : list string :=
  [ ""; "Styczeń"; "Luty"; "Marzec"; "Kwiecień"; "Maj"; "Czerwiec"; "Lipiec";
    "Sierpień"; "Wrzesień"; "Październik"; "Listopad"; "Grudzień" ].

(** [monthNames[month] || month]: the name, or the number itself where the
    list has no name that counts as true. *)
Definition monthName_of (month : Z) : string + Z :=
  match truthy (if 0 <=? month then monthNames !! Z.to_nat month else None) with
  | Some name => inl name
  | None => inr month
  end.

Record DayCell : Type := {
  day : Z;
  date : string;
  isWeekend : bool;
  isHoliday : bool;
  isPublicHoliday : bool;
  is_onsite : option bool;
  isRemote : bool
}.

Record MonthCalendar : Type := {
  month : Z;
  year : Z;
  monthName : string + Z;
  days : list DayCell
}.

(** [locationMap[formatDate(loc.work_date)] = loc.is_onsite]; the value
    [None] is null. *)
Definition locationMap (locationEntries : list WorkLocation.t)
  : gmap string (option bool) :=
  foldl (fun acc loc =>
           <[formatDate (WorkLocation.work_date loc) :=
               WorkLocation.is_onsite loc]> acc)
        ∅ locationEntries.

Definition holidaySet (holidayEntries : list Holiday.t) : gset string :=
  list_to_set (map (fun h => formatDate (Holiday.holiday_date h))
                   holidayEntries).

Definition publicHolidaySet (allPublicHolidaysForWindow : list PublicHoliday.t)
  : gset string :=
  list_to_set (map (fun ph => formatDate (PublicHoliday.holiday_date ph))
                   allPublicHolidaysForWindow).

(** The body of the loop of buildLocationCalendar: the cell of one day. *)
Definition day_cell (locations : gmap string (option bool))
    (holidays publicHolidays : gset string)
    (year month : Z) (formattedMonth : string) (day : Z) : DayCell :=
  let dayStr := padStart2 (Number_toString day) in
  let dateStr :=
    Number_toString year +:+ "-" +:+ formattedMonth +:+ "-" +:+ dayStr in
  let dateObj := new_Date_fields year (month - 1) day in
  let dayOfWeek := getDay dateObj in
  let isWeekend := (dayOfWeek =? 0) || (dayOfWeek =? 6) in
  let locationValue := default None (locations !! dateStr) in
  {| day := day;
     date := dateStr;
     isWeekend := isWeekend;
     isHoliday := bool_decide (dateStr ∈ holidays);
     isPublicHoliday := bool_decide (dateStr ∈ publicHolidays);
     is_onsite := locationValue;
     isRemote := bool_decide (locationValue = Some false) |}.

Definition buildLocationCalendar (locations : gmap string (option bool))
    (holidays publicHolidays : gset string) (month year : Z) : MonthCalendar :=
  let daysInMonth := getDate (new_Date_fields year month 0) in
  let formattedMonth := padStart2 (Number_toString month) in
  {| month := month;
     year := year;
     monthName := monthName_of month;
     days := map (day_cell locations holidays publicHolidays
                           year month formattedMonth)
                 (seqZ 1 daysInMonth) |}.

(** What the home page hands to its template about the calendars and
    about today. *)
Record Home : Type := {
  workLocationCalendars : list MonthCalendar;
  todayLocation : option bool;
  isTodayRestricted : bool;
  todayRestrictionReason : option string
}.

(** The calendars of the home page on records already fetched: [today] is
    the day of the request, the public holidays are those of the previous,
    the current and the two next months. *)
Definition home_calendars (today : Z)
    (locationEntries : list WorkLocation.t) (holidayEntries : list Holiday.t)
    (prevPublicHolidays publicHolidays nextPublicHolidays
       next2PublicHolidays : list PublicHoliday.t) : Home :=
  let currentYear := getFullYear today in
  let currentMonth := getMonth1 today in
  let todayIso := formatDate today in
  let w := month_window currentMonth currentYear in
  let allPublicHolidaysForWindow :=
    prevPublicHolidays ++ publicHolidays ++ nextPublicHolidays
    ++ next2PublicHolidays in
  let locations := locationMap locationEntries in
  let build :=
    buildLocationCalendar locations (holidaySet holidayEntries)
      (publicHolidaySet allPublicHolidaysForWindow) in
  let calendars :=
    [ build (prevMonth w) (prevYear w);
      build currentMonth currentYear;
      build (nextMonth w) (nextYear w);
      build (nextMonth2 w) (nextYear2 w) ] in
  let todayInfo :=
    calendars !! 1%nat
    ≫= (fun calendar =>
          find (fun day => String.eqb (date day) todayIso) (days calendar)) in
  {| workLocationCalendars := calendars;
     todayLocation := default None (locations !! formatDate today);
     isTodayRestricted :=
       match todayInfo with
       | Some info => isWeekend info || isHoliday info || isPublicHoliday info
       | None => false
       end;
     todayRestrictionReason :=
       match todayInfo with
       | Some info =>
           if isPublicHoliday info then Some "święto"
           else if isHoliday info then Some "urlop"
           else if isWeekend info then Some "weekend"
           else None
       | None => None
       end |}.

End HomeCalendar.

(** ** The message codes of the redirects and their texts: prepareMessages
    of utils/messageUtils *)

Module Query.
(** The fields of [req.query] that carry a message code; a value of the
    query is taken to be a string. *)
Record t : Type := {
  success : option string;
  error : option string;
  info : option string;
  warning : option string
}.
End Query.

Module Messages.
Import Js JsText.

(** What a lookup in a message table gives: a text, or, for a name that
    every object inherits, the inherited member. *)
Inductive Message : Type :=
| Text (s : string)
| Inherited (name : string).

Definition Object_prototype_names : list string :=
  [ "constructor"; "hasOwnProperty"; "isPrototypeOf"; "propertyIsEnumerable";
    "toLocaleString"; "toString"; "valueOf"; "__proto__"; "__defineGetter__";
    "__defineSetter__"; "__lookupGetter__"; "__lookupSetter__" ].

Definition messageMap_success : list (string * string) :=
  [ ("holiday_added", "Pomyślnie dodano urlop.");
    ("holiday_deleted", "Pomyślnie usunięto urlop.");
    ("work_added", "Pomyślnie dodano wpis czasu pracy.");
    ("work_deleted", "Pomyślnie usunięto wpis czasu pracy.");
    ("work_updated", "Pomyślnie zaktualizowano wpis czasu pracy.");
    ("role_updated", "Rola użytkownika została zaktualizowana pomyślnie.");
    ("users_synced", "Użytkownicy zostali zsynchronizowani z Auth0 pomyślnie.");
    ("user_blocked", "Status użytkownika został zaktualizowany pomyślnie.");
    ("role_changed_to_manager",
     "Rola użytkownika została zmieniona na Menedżera.");
    ("role_changed_to_admin",
     "Rola użytkownika została zmieniona na Administratora.");
    ("role_changed_to_user",
     "Rola użytkownika została zmieniona na Użytkownika.");
    ("group_created", "Grupa została utworzona pomyślnie.");
    ("group_updated", "Nazwa grupy została zaktualizowana pomyślnie.");
    ("group_deleted", "Grupa została usunięta pomyślnie.");
    ("user_assigned", "Użytkownik został przypisany do grupy pomyślnie.");
    ("added", "Pomyślnie dodano wpis.");
    ("deleted", "Pomyślnie usunięto wpis.");
    ("updated", "Pomyślnie zaktualizowano dane.");
    ("imported", "Pomyślnie zaimportowano dane.") ].

Definition messageMap_error : list (string * string) :=
  [ ("failed", "Wystąpił błąd. Spróbuj ponownie.");
    ("not_found", "Nie znaleziono wpisu.");
    ("unauthorized", "Brak uprawnień do wykonania tej operacji.");
    ("admin_only", "Ta operacja wymaga uprawnień administratora.");
    ("group_has_users",
     "Nie można usunąć grupy, która ma przypisanych użytkowników.");
    ("cannot_demote_self",
     "Nie możesz zmienić swojej własnej roli. Poproś innego administratora o dokonanie tej zmiany.");
    ("invalid_date", "Proszę wybrać prawidłową datę.");
    ("work_hours_conflict",
     "Nie można dodać urlopu dla dnia, w którym masz już wpisane godziny pracy.");
    ("holiday_not_found", "Nie znaleziono urlopu.");
    ("weekend_not_allowed", "Nie można ustawić urlopu w weekend.");
    ("public_holiday_not_allowed",
     "Nie można ustawić urlopu w dzień ustawowo wolny.");
    ("weekend_only", "Wybrany zakres zawiera tylko weekendy.");
    ("no_valid_days",
     "Wybrany zakres nie zawiera żadnych dni roboczych (wykluczono weekendy i dni ustawowo wolne).");
    ("holiday", "Nie można dodać wpisu w dzień urlopowy.");
    ("invalid_hours", "Podaj prawidłową liczbę godzin (większą niż 0).");
    ("cannot_update_old", "Możesz edytować wpisy tylko z dzisiaj lub wczoraj.");
    ("cannot_delete_old", "Możesz usuwać wpisy tylko z dzisiaj lub wczoraj.");
    ("work_invalid_date",
     "Możesz dodawać wpisy tylko dla dzisiaj, wczoraj lub przedwczoraj.") ].

Definition messageMap_info : list (string * string) :=
  [ ("no_changes", "Nie wprowadzono żadnych zmian.") ].

Definition messageMap_warning : list (string * string) :=
  [ ("pending", "Operacja oczekuje na zatwierdzenie.") ].

(** The own property of a table under a code. *)
Fixpoint own_text (table : list (string * string)) (code : string)
  : option string :=
  match table with
  | [] => None
  | (key, text) :: rest =>
      if String.eqb code key then Some text else own_text rest code
  end.

(** [table[code] || code] *)
Definition text_or_code (table : list (string * string)) (code : string)
  : Message :=
  match truthy (own_text table code) with
  | Some text => Text text
  | None =>
      if bool_decide (code ∈ Object_prototype_names) then Inherited code
      else Text code
  end.

(** The text for a code of the success field. *)
Definition success_text (success : string) : Message :=
  if startsWith success "added_" && includes success "_days" then
    if includes success "_weekends_and_holidays_excluded" then
      let daysCount :=
        replace (replace success "added_" "")
                "_days_weekends_and_holidays_excluded" "" in
      Text ("Pomyślnie dodano " +:+ daysCount
            +:+ " dni urlopowych. Pominięto weekendy i dni ustawowo wolne.")
    else if includes success "_holidays_excluded" then
      let daysCount :=
        replace (replace success "added_" "") "_days_holidays_excluded" "" in
      Text ("Pomyślnie dodano " +:+ daysCount
            +:+ " dni urlopowych. Pominięto dni ustawowo wolne.")
    else if includes success "_weekends_excluded" then
      let daysCount :=
        replace (replace success "added_" "") "_days_weekends_excluded" "" in
      Text ("Pomyślnie dodano " +:+ daysCount
            +:+ " dni urlopowych. Pominięto weekendy.")
    else
      let daysCount := replace (replace success "added_" "") "_days" "" in
      Text ("Pomyślnie dodano " +:+ daysCount +:+ " dni urlopowych.")
  else if String.eqb success "added_weekends_and_holidays_excluded" then
    Text "Pomyślnie dodano urlop. Pominięto weekendy i dni ustawowo wolne."
  else if String.eqb success "added_holidays_excluded" then
    Text "Pomyślnie dodano urlop. Pominięto dni ustawowo wolne."
  else if String.eqb success "added_weekends_excluded" then
    Text "Pomyślnie dodano urlop. Pominięto weekendy."
  else text_or_code messageMap_success success.

(** The processed messages: a field is set when the query has a code that
    counts as true. *)
Record Prepared : Type := {
  result_success : option Message;
  result_error : option Message;
  result_info : option Message;
  result_warning : option Message
}.

(** prepareMessages; [None] is a missing [messages] object. *)
Definition prepareMessages (messages : option Query.t) : Prepared :=
  match messages with
  | None =>
      {| result_success := None; result_error := None;
         result_info := None; result_warning := None |}
  | Some messages =>
      {| result_success := success_text <$> truthy (Query.success messages);
         result_error :=
           text_or_code messageMap_error <$> truthy (Query.error messages);
         result_info :=
           text_or_code messageMap_info <$> truthy (Query.info messages);
         result_warning :=
           text_or_code messageMap_warning
           <$> truthy (Query.warning messages) |}
  end.

End Messages.

(** ** The message of a successful request: the end of POST / of
    routes/holidays *)

Module AddHolidayMessage.
Import CalendarMath BusinessDays Js JsText AddHoliday.

(** One turn of the loop over the days of the interval: the flags after
    the day [startObj + i]. *)
Definition check_day (startObj : Z) (publicHolidays : list PublicHoliday.t)
    (flags : bool * bool) (i : Z) : bool * bool :=
  let '(hasWeekends, hasPublicHolidays) := flags in
  let checkDate := startObj + i in
  let dayOfWeek := getDay checkDate in
  let checkDateStr := formatDate checkDate in
  (if (dayOfWeek =? 0) || (dayOfWeek =? 6) then true else hasWeekends,
   if existsb (fun ph =>
                 String.eqb (formatDate (PublicHoliday.holiday_date ph))
                            checkDateStr) publicHolidays
   then true else hasPublicHolidays).

(** [for (let i = 0; i < totalDayCount; i++) { ... }] *)
Definition exclusion_flags (startObj totalDayCount : Z)
    (publicHolidays : list PublicHoliday.t) : bool * bool :=
  foldl (check_day startObj publicHolidays) (false, false)
        (seqZ 0 totalDayCount).

(** [Math.round((endObj - startObj) / (1000 * 60 * 60 * 24)) + 1]; [None]
    is NaN, when a string is no date. *)
Definition totalDayCount (startObj endObj : JsDate) : option Z :=
  match startObj, endObj with
  | Day s, Day e => Some (e - s + 1)
  | _, _ => None
  end.

(** The code of the success redirect, from the generated dates. *)
Definition successMessage (start_date actualEndDate : string)
    (publicHolidays : list PublicHoliday.t) (holidayDates : list string)
  : string :=
  let daysCount := Z.of_nat (length holidayDates) in
  let successMessage :=
    if 1 <? daysCount
    then "added_" +:+ Number_toString daysCount +:+ "_days"
    else "added" in
  let startObj := new_Date start_date in
  let endObj := new_Date actualEndDate in
  match startObj, totalDayCount startObj endObj with
  | Day s, Some total =>
      if daysCount <? total then
        let '(hasWeekends, hasPublicHolidays) :=
          exclusion_flags s total publicHolidays in
        if hasWeekends && hasPublicHolidays
        then successMessage +:+ "_weekends_and_holidays_excluded"
        else if hasWeekends then successMessage +:+ "_weekends_excluded"
        else if hasPublicHolidays then successMessage +:+ "_holidays_excluded"
        else successMessage
      else successMessage
  | _, _ => successMessage
  end.

(** The query of the page that the handler redirects to. *)
Definition redirect_query (w : World) (userId : N) (body : Body)
    (table : list HolidayRow) : Query.t :=
  let error code :=
    {| Query.success := None; Query.error := Some code;
       Query.info := None; Query.warning := None |} in
  match (post_holidays w userId body table).1 with
  | invalid_date => error "invalid_date"
  | weekend_not_allowed => error "weekend_not_allowed"
  | public_holiday_not_allowed => error "public_holiday_not_allowed"
  | no_valid_days => error "no_valid_days"
  | failed => error "failed"
  | success holidayDates =>
      let start := default "" (truthy (start_date body)) in
      let actualEndDate := default start (truthy (end_date body)) in
      let publicHolidays :=
        default [] (findByDateRange w start actualEndDate) in
      {| Query.success :=
           Some (successMessage start actualEndDate publicHolidays
                   holidayDates);
         Query.error := None; Query.info := None; Query.warning := None |}
  end.

(** The end of a success code for the kinds of days left out. *)
Definition excluded_suffix (weekends holidays : bool) : string :=
  if weekends && holidays then "_weekends_and_holidays_excluded"
  else if weekends then "_weekends_excluded"
  else if holidays then "_holidays_excluded"
  else "".

(** The sentence about the excluded days at the end of a success text. *)
Definition excluded_sentence (weekends holidays : bool) : string :=
  if weekends && holidays then " Pominięto weekendy i dni ustawowo wolne."
  else if holidays then " Pominięto dni ustawowo wolne."
  else if weekends then " Pominięto weekendy."
  else "".

End AddHolidayMessage.

(** ** Deleting a holiday: POST /:id/delete of routes/holidays *)

Module DeleteHoliday.

(** A row of the holidays table with its id. *)
Record Entry : Type := { id : N; user_id : N; holiday_date : string }.

(** [req.user]: the id of the user and the answer of [isAdmin()]. *)
Record Requester : Type := { userId : N; isAdmin : bool }.

(** Whether the read and the delete of the request succeed. *)
Record World : Type := { find_ok : bool; delete_ok : bool }.

(** The redirects of the handler. *)
Inductive Redirect : Type :=
| not_found
| deleted
| failed.

(** Modelled from the spec: Holiday.findById of models/Holiday is not among
    the sources; the specification has a holiday record destroyed by an
    explicit delete by id, so the read gives the row with that id, or
    null. *)
Definition findById (table : list Entry) (entryId : N) : option Entry :=
  find (fun entry => (id entry =? entryId)%N) table.

(** Modelled from the spec: the delete of an entry removes the row with
    its id from the table. *)
Definition delete (holidayEntry : Entry) (table : list Entry) : list Entry :=
  filter (fun entry => id entry <> id holidayEntry) table.

(** The handler: the redirect and the table afterwards.  Calling
    [delete] on a null entry is a TypeError, which the catch turns into
    the redirect [failed]. *)
Definition delete_holiday (w : World) (user : Requester) (entryId : N)
    (table : list Entry) : Redirect * list Entry :=
  if negb (find_ok w) then (failed, table)
  else
    let holidayEntry := findById table entryId in
    let not_own :=
      match holidayEntry with
      | None => true
      | Some entry => negb (user_id entry =? userId user)%N
      end in
    if not_own && negb (isAdmin user) then (not_found, table)
    else
      match holidayEntry with
      | None => (failed, table)
      | Some entry =>
          if delete_ok w then (deleted, delete entry table)
          else (failed, table)
      end.

End DeleteHoliday.

(** ** The by-date view: GET /employees/by-date of routes/holidays *)

Module ByDate.
Import CalendarMath Js.

Record DateEmployee : Type := { id : N; name : string; email : string }.

Record DateEntry : Type := {
  date : string;
  day_of_week : string;
  employees : list DateEmployee
}.

(** An object with string keys that are no array indices ([holidaysByDate]):
    the entries in the order in which the keys were first set. *)
Fixpoint str_get {V : Type} (k : string) (o : list (string * V)) : option V :=
  match o with
  | [] => None
  | (k', v) :: rest => if String.eqb k k' then Some v else str_get k rest
  end.

Fixpoint str_update {V : Type} (k : string) (f : V -> V) (o : list (string * V))
  : list (string * V) :=
  match o with
  | [] => []
  | (k', v) :: rest =>
      if String.eqb k k' then (k', f v) :: rest
      else (k', v) :: str_update k f rest
  end.

(** [{ id: user.id, name: user.name || user.email.split("@")[0],
       email: user.email }] *)
Definition date_employee (user : User.t) : DateEmployee :=
  {| id := User.id user;
     name := default (split0 "@" (User.email user)) (truthy (User.name user));
     email := User.email user |}.

(** The keys of a scan in the order of their first occurrence. *)
Definition first_occurrences (keys : list string) : list string :=
  foldl (fun seen key => if bool_decide (key ∈ seen) then seen else seen ++ [key])
        [] keys.

Section Display.
(** The two formatters of utils/dateUtils that give the texts shown for a
    date; they are not among the sources and stay parameters. *)
Variables formatDayAndMonthGenitive getDayOfWeekName : Z -> string.

(** The body of the inner loop: one holiday of a user. *)
Definition add_employee (user : User.t)
    (holidaysByDate : list (string * DateEntry)) (holiday : Holiday.t)
  : list (string * DateEntry) :=
  let dateStr := formatDate (Holiday.holiday_date holiday) in
  let displayDate := formatDayAndMonthGenitive (Holiday.holiday_date holiday) in
  let dayOfWeek := getDayOfWeekName (Holiday.holiday_date holiday) in
  let holidaysByDate :=
    match str_get dateStr holidaysByDate with
    | None =>
        holidaysByDate
        ++ [(dateStr, {| date := displayDate; day_of_week := dayOfWeek;
                         employees := [] |})]
    | Some _ => holidaysByDate
    end in
  str_update dateStr
    (fun entry => {| date := date entry; day_of_week := day_of_week entry;
                     employees := employees entry ++ [date_employee user] |})
    holidaysByDate.

(** The view on records already fetched: every user of the directory, and
    for each the holidays of the index by user. *)
Definition groupByDate (allUsers : list User.t) (allHolidays : list Holiday.t)
  : list (string * DateEntry) :=
  let holidaysByUser := ByPerson.holidaysByUser allHolidays in
  foldl (fun holidaysByDate user =>
           let userHolidays := default [] (holidaysByUser !! User.id user) in
           foldl (add_employee user) holidaysByDate userHolidays)
        [] allUsers.

End Display.

(** The holidays that the view comes across, in the order of the scan: the
    users in the order of the directory, the holidays of a user in the
    order of the records. *)
Definition scanned (allUsers : list User.t) (allHolidays : list Holiday.t)
  : list (User.t * Holiday.t) :=
  flat_map (fun user =>
              map (pair user)
                  (filter (fun h => Holiday.user_id h = User.id user)
                          allHolidays))
           allUsers.

End ByDate.

(** ** The planning page: GET / of routes/holidays *)

Module HolidaysPage.
Import CalendarMath HomeCalendar.

(** The range of the holidays fetched for the highlighting of the
    calendar: [new Date(y, m - 6, 1)] and [new Date(y, m + 7, 0)] for the
    year and the month index of today. *)
Definition highlight_range (todayDate : Z) : Z * Z :=
  let sixMonthsAgo :=
    new_Date_fields (getFullYear todayDate) (getMonth1 todayDate - 1 - 6) 1 in
  let sixMonthsAhead :=
    new_Date_fields (getFullYear todayDate) (getMonth1 todayDate - 1 + 7) 0 in
  (sixMonthsAgo, sixMonthsAhead).

(** The number of a month counted from January of the year 0. *)
Definition month_number (z : Z) : Z := 12 * getFullYear z + (getMonth1 z - 1).

End HolidaysPage.

(** ** The Auth0 Management API: utils/auth0 *)

Module Auth0.
Import Js.

(** [auth0Config]; [None] is a setting that is not there. *)
Record Config : Type := {
  domain : option string;
  clientId : option string;
  clientSecret : option string;
  audience : option string
}.

(** The token cache of the module: [managementApiToken] and
    [tokenExpiry], both null at the start. *)
Record Cache : Type := {
  managementApiToken : option string;
  tokenExpiry : option Z
}.

Definition empty_cache : Cache :=
  {| managementApiToken := None; tokenExpiry := None |}.

(** [response.data] of the token request, with the value of [Date.now()]
    when the response is there. *)
Record TokenResponse : Type := {
  access_token : string;
  expires_in : Z;
  received : Z
}.

(** A value returned, or the message of the error thrown. *)
Inductive Result (A : Type) : Type :=
| ok (a : A)
| error (message : string).
Arguments ok {A} a.
Arguments error {A} message.

(** [managementApiToken && tokenExpiry && Date.now() < tokenExpiry]: the
    token when the test holds. *)
Definition valid_token (cache : Cache) (now : Z) : option string :=
  match truthy (managementApiToken cache), tokenExpiry cache with
  | Some token, Some expiry =>
      if negb (expiry =? 0) && (now <? expiry) then Some token else None
  | _, _ => None
  end.

Definition complete (config : Config) : bool :=
  bool_decide (is_Some (truthy (domain config)))
  && bool_decide (is_Some (truthy (clientId config)))
  && bool_decide (is_Some (truthy (clientSecret config)))
  && bool_decide (is_Some (truthy (audience config))).

(** getManagementApiToken at the time [now]; [post] is the answer to the
    token request, [None] when it is rejected. *)
Definition getManagementApiToken (config : Config)
    (post : option TokenResponse) (now : Z) (cache : Cache)
  : Result string * Cache :=
  match valid_token cache now with
  | Some token => (ok token, cache)
  | None =>
      if negb (complete config)
      then (error "Auth0 Management API configuration is incomplete", cache)
      else
        match post with
        | Some data =>
            (ok (access_token data),
             {| managementApiToken := Some (access_token data);
                tokenExpiry :=
                  Some (received data + expires_in data * 1000
                        - 5 * 60 * 1000) |})
        | None => (error "Could not obtain Auth0 Management API token", cache)
        end
  end.

(** [response.data] of a page of users. *)
Record UsersPage (U : Type) : Type := {
  users : list U;
  total : Z;
  start : Z;
  length : Z
}.
Arguments users {U} _.
Arguments total {U} _.
Arguments start {U} _.
Arguments length {U} _.

Definition perPage : Z := 100.

(** The loop of getAuth0Users from the page [page] on; [get] answers the
    request for a page, [None] when it is rejected.  The outer [None] is
    fuel that ran out. *)
Fixpoint fetch_pages {U : Type} (fuel : nat) (get : Z -> option (UsersPage U))
    (page : Z) (allUsers : list U) : option (Result (list U)) :=
  match fuel with
  | O => None
  | S fuel' =>
      match get page with
      | None => Some (error "Could not fetch Auth0 users")
      | Some data =>
          let allUsers := allUsers ++ users data in
          let hasMoreUsers :=
            (start data + length data <? total data)
            && (length data =? perPage) in
          let page := page + 1 in
          if 10 <? page then Some (ok allUsers)
          else if hasMoreUsers then fetch_pages fuel' get page allUsers
          else Some (ok allUsers)
      end
  end.

(** getAuth0Users, given the outcome of getManagementApiToken: an error
    there is caught and thrown again as the error of the fetch. *)
Definition getAuth0Users {U : Type} (fuel : nat) (token : Result string)
    (get : Z -> option (UsersPage U)) : option (Result (list U)) :=
  match token with
  | error _ => Some (error "Could not fetch Auth0 users")
  | ok _ => fetch_pages fuel get 0 []
  end.

End Auth0.

(** ** Changing the role of a user: POST /admin/users/:id/role of the
    server file *)

Module RoleUpdate.
Import Js MonthQuery.

(** What the handler answers. *)
Inductive Response : Type :=
| invalid_role              (* status 400, "Invalid role specified" *)
| redirect_error (code : string)
| redirect_success (code : string)
| error_page.               (* status 500 *)

(** [n === z] for an integer [z]: NaN is equal to nothing. *)
Definition is_number (n : JsNumber) (z : Z) : bool :=
  match n with
  | NaN => false
  | Num x => x =? z
  end.

(** The handler for the administrator [userId]: [id] is the parameter of
    the route, [parsedId] the value of [parseInt(id, 10)], [role] the field
    of the body, and [setRole] tells whether User.setRole succeeds.  The
    second component is the call of User.setRole that was made, if any. *)
Definition update_role (userId : N) (id : string) (parsedId : JsNumber)
    (role : option string) (setRole : string -> string -> bool)
  : Response * option (string * string) :=
  match truthy role with
  | None => (invalid_role, None)
  | Some role =>
      if negb (bool_decide (role ∈ ["admin"; "user"; "manager"]))
      then (invalid_role, None)
      else if is_number parsedId (Z.of_N userId)
              && negb (String.eqb role "admin")
      then (redirect_error "cannot_demote_self", None)
      else if setRole id role then
        let successMessage :=
          if String.eqb role "admin" then "role_changed_to_admin"
          else if String.eqb role "manager" then "role_changed_to_manager"
          else if String.eqb role "user" then "role_changed_to_user"
          else "role_updated" in
        (redirect_success successMessage, Some (id, role))
      else (error_page, Some (id, role))
  end.

End RoleUpdate.

(** * Properties *)

(** ** Facts about the calendar *)

Module CalendarFacts.
Import CalendarMath.
#[local] Arguments String.append !_ _ / : simpl nomatch.

Ltac split_comparisons :=
  repeat match goal with
  | |- context [Z.leb ?a ?b] => destruct (Z.leb_spec a b)
  | |- context [Z.ltb ?a ?b] => destruct (Z.ltb_spec a b)
  end.

(** The day number is recovered from year, month and day. *)
Lemma days_from_civil_from_days (z : Z) :
  days_from_civil (getFullYear z) (getMonth1 z) (getDate z) = z.
Proof.
  unfold getFullYear, getMonth1, getDate, civil_from_days, days_from_civil.
  cbn [fst snd]. cbv zeta.
  split_comparisons; Z.to_euclidean_division_equations; lia.
Qed.

Lemma civil_from_days_inj (z z' : Z) :
  civil_from_days z = civil_from_days z' -> z = z'.
Proof.
  intros E.
  rewrite <- (days_from_civil_from_days z), <- (days_from_civil_from_days z').
  unfold getFullYear, getMonth1, getDate. now rewrite E.
Qed.

Lemma civil_ranges (z : Z) :
  1 <= getMonth1 z <= 12 /\ 1 <= getDate z <= 31.
Proof.
  unfold getMonth1, getDate, civil_from_days. cbn [fst snd]. cbv zeta.
  split_comparisons; Z.to_euclidean_division_equations; lia.
Qed.

Lemma getDay_range (z : Z) : 0 <= getDay z < 7.
Proof. unfold getDay. apply Z.mod_pos_bound. lia. Qed.

Lemma getDay_succ (z : Z) : getDay (z + 1) = (getDay z + 1) mod 7.
Proof.
  unfold getDay. Z.to_euclidean_division_equations. lia.
Qed.

Lemma digit_inj (a b : Z) :
  0 <= a < 10 -> 0 <= b < 10 -> digit a = digit b -> a = b.
Proof.
  intros Ha Hb E. unfold digit in E.
  rewrite !Z.mod_small in E by lia.
  apply (f_equal N_of_ascii) in E.
  rewrite !N_ascii_embedding in E by lia. lia.
Qed.

Lemma pad2_inj (a b : Z) :
  0 <= a < 100 -> 0 <= b < 100 -> pad2 a = pad2 b -> a = b.
Proof.
  intros Ha Hb E. unfold pad2 in E. injection E as E1 E0.
  assert (a / 10 = b / 10).
  { apply digit_inj; [ | | exact E1]; Z.to_euclidean_division_equations; lia. }
  assert (a mod 10 = b mod 10).
  { unfold digit in E0.
    apply (f_equal N_of_ascii) in E0.
    rewrite !N_ascii_embedding in E0
      by (Z.to_euclidean_division_equations; lia).
    Z.to_euclidean_division_equations; lia. }
  Z.to_euclidean_division_equations; lia.
Qed.

Lemma digit_code (a : Z) : 48 <= Z.of_N (N_of_ascii (digit a)) <= 57.
Proof.
  unfold digit. rewrite N_ascii_embedding.
  - Z.to_euclidean_division_equations; lia.
  - Z.to_euclidean_division_equations; lia.
Qed.

Lemma pad4_inj (a b : Z) :
  0 <= a <= 9999 -> 0 <= b <= 9999 -> pad4 a = pad4 b -> a = b.
Proof.
  intros Ha Hb E. unfold pad4, pad2 in E. injection E as E3 E2 E1 E0.
  apply digit_inj in E3;
    [ | Z.to_euclidean_division_equations; lia
      | Z.to_euclidean_division_equations; lia].
  assert (D : forall x y, digit x = digit y -> x mod 10 = y mod 10).
  { intros x y E. unfold digit in E. apply (f_equal N_of_ascii) in E.
    rewrite !N_ascii_embedding in E
      by (Z.to_euclidean_division_equations; lia).
    Z.to_euclidean_division_equations; lia. }
  apply D in E2, E1, E0.
  Z.to_euclidean_division_equations; lia.
Qed.

Lemma decimal_text_inj (y y' : Z) :
  NilZero.string_of_int (Z.to_int y) = NilZero.string_of_int (Z.to_int y')
  -> y = y'.
Proof.
  intros E.
  assert (ok : forall x, Z.to_int x <> Decimal.Pos Decimal.Nil
                       /\ Z.to_int x <> Decimal.Neg Decimal.Nil).
  { intros [ | p | p]; simpl; split; try discriminate;
      intros [= H]; now apply (DecimalPos.Unsigned.to_uint_nonnil p). }
  apply (f_equal NilZero.int_of_string) in E.
  rewrite !NilZero.isi in E by apply ok.
  injection E as E.
  rewrite <- (DecimalZ.of_to y), <- (DecimalZ.of_to y'). now rewrite E.
Qed.

Lemma year_text_inj (y y' : Z) : year_text y = year_text y' -> y = y'.
Proof.
  assert (Hdigit : forall a (c : ascii) (r t : string),
            (c = "-"%char \/ c = "+"%char) ->
            String (digit a) r = String c t -> False).
  { intros a c r t Hc [= E _]. pose proof (digit_code a) as R.
    rewrite E in R. destruct Hc as [-> | ->]; simpl in R; lia. }
  assert (Hneg : forall x, x < 0 ->
            exists t, NilZero.string_of_int (Z.to_int x) = String "-" t).
  { intros [ | p | p] Hx; try lia. simpl. eauto. }
  unfold year_text.
  destruct (Z.leb_spec 0 y), (Z.leb_spec y 9999),
           (Z.leb_spec 0 y'), (Z.leb_spec y' 9999); simpl;
    repeat match goal with
    | |- context [Z.ltb ?a ?b] => destruct (Z.ltb_spec a b); try lia
    end;
    intros E;
    try (apply pad4_inj; [lia | lia | exact E]);
    try (now apply decimal_text_inj);
    try (injection E as E; now apply decimal_text_inj);
    exfalso;
    repeat match goal with
    | H : ?x < 0 |- _ =>
        destruct (Hneg x H) as [? Hn]; rewrite Hn in E; clear H
    end;
    unfold pad4 in E;
    try (eapply Hdigit; [ | exact E]; auto; fail);
    try (eapply Hdigit; [ | symmetry; exact E]; auto; fail);
    try discriminate.
Qed.

Lemma length_append (s t : string) :
  String.length (s +:+ t) = (String.length s + String.length t)%nat.
Proof. induction s as [ | c s IH]; simpl; [reflexivity | now rewrite IH]. Qed.

(** Two texts that end in tails of the same length. *)
Lemma append_inj_tail (s s' t t' : string) :
  String.length t = String.length t' ->
  s +:+ t = s' +:+ t' -> s = s' /\ t = t'.
Proof.
  revert s'. induction s as [ | c s IH]; intros [ | c' s'] L E; simpl in E.
  - now split.
  - exfalso. apply (f_equal String.length) in E. simpl in E.
    rewrite length_append in E. lia.
  - exfalso. apply (f_equal String.length) in E. simpl in E.
    rewrite length_append in E. lia.
  - injection E as -> E. destruct (IH _ L E) as [-> ->]. now split.
Qed.

(** formatDate names each day by a text of its own. *)
Lemma formatDate_inj (z z' : Z) : formatDate z = formatDate z' -> z = z'.
Proof.
  intros E. apply civil_from_days_inj.
  pose proof (civil_ranges z) as R. pose proof (civil_ranges z') as R'.
  unfold formatDate, getMonth1, getDate in *.
  destruct (civil_from_days z) as [[y m] d].
  destruct (civil_from_days z') as [[y' m'] d'].
  cbn [fst snd] in R, R'.
  apply append_inj_tail in E as [Ey Et]; [ | reflexivity].
  apply year_text_inj in Ey.
  unfold pad2 in Et. simpl in Et.
  injection Et as Em1 Em0 Ed1 Ed0.
  assert (m = m').
  { apply pad2_inj; [lia | lia | ]. unfold pad2. now rewrite Em1, Em0. }
  assert (d = d').
  { apply pad2_inj; [lia | lia | ]. unfold pad2. now rewrite Ed1, Ed0. }
  congruence.
Qed.

Example formatDate_2024_05_04 : formatDate 19847 = "2024-05-04".
Proof. reflexivity. Qed.

Example new_Date_2024_05_04 : new_Date "2024-05-04" = Day 19847.
Proof. reflexivity. Qed.

Example new_Date_no_date : new_Date "tomorrow" = Invalid_Date.
Proof. reflexivity. Qed.

Example getDay_2024_05_04 : getDay 19847 = 6.
Proof. reflexivity. Qed.

Example getWeekdaysInMonth_2024_02 : getWeekdaysInMonth 2024 2 = 21.
Proof. reflexivity. Qed.

Lemma day_seq_spec (first : Z) (count : nat) (d : Z) :
  d ∈ day_seq first count <-> first <= d < first + Z.of_nat count.
Proof.
  revert first. induction count as [ | k IH]; intros first; simpl.
  - rewrite elem_of_nil. lia.
  - rewrite elem_of_cons, IH. lia.
Qed.

Lemma date_text_lt_trans (a b c : string) :
  date_text_lt a b -> date_text_lt b c -> date_text_lt a c.
Proof.
  unfold date_text_lt. intros Hab Hbc.
  assert (Lab : String.le a b) by (unfold String.le, String.leb; now rewrite Hab).
  assert (Lbc : String.le b c) by (unfold String.le, String.leb; now rewrite Hbc).
  assert (Lac : String.le a c) by (now transitivity b).
  unfold String.le, String.leb in Lac.
  destruct (String.compare a c) eqn:Hac; [ | reflexivity | easy].
  apply String.compare_eq_iff in Hac. subst c.
  rewrite String.compare_antisym, Hab in Hbc. discriminate.
Qed.

(** Each day of the supported window is formatted to a text before the
    text of the next day, by running through the window. *)
Lemma next_day_text_later :
  forallb (fun d =>
             match String.compare (formatDate d) (formatDate (d + 1)) with
             | Lt => true
             | _ => false
             end)
          (day_seq first_supported_day
                   (Z.to_nat (last_supported_day - first_supported_day)))
  = true.
Proof. vm_compute. reflexivity. Qed.

(** Within the supported window a later day has a later text. *)
Lemma formatDate_ascending (d d' : Z) :
  first_supported_day <= d -> d < d' -> d' <= last_supported_day ->
  date_text_lt (formatDate d) (formatDate d').
Proof.
  intros Lo Lt Hi.
  assert (Step : forall x, first_supported_day <= x < last_supported_day ->
                   date_text_lt (formatDate x) (formatDate (x + 1))).
  { intros x Hx.
    pose proof (proj1 (forallb_forall _ _) next_day_text_later x) as C.
    cbv beta in C. unfold date_text_lt.
    destruct (String.compare (formatDate x) (formatDate (x + 1)));
      try reflexivity; (assert (false = true); [ | discriminate]);
      apply C, list_elem_of_In, day_seq_spec; lia. }
  replace d' with (d + 1 + Z.of_nat (Z.to_nat (d' - d - 1))) in * by lia.
  induction (Z.to_nat (d' - d - 1)) as [ | n IH].
  - rewrite Z.add_0_r. apply Step. lia.
  - apply (date_text_lt_trans _ (formatDate (d + 1 + Z.of_nat n))).
    + apply IH; lia.
    + replace (d + 1 + Z.of_nat (S n)) with (d + 1 + Z.of_nat n + 1) by lia.
      apply Step. lia.
Qed.

Lemma day_seq_sorted (first : Z) (count : nat) :
  StronglySorted Z.lt (day_seq first count).
Proof.
  revert first. induction count as [ | k IH]; intros first; simpl.
  - constructor.
  - constructor; [apply IH | ].
    apply Forall_forall. intros d Hd. apply day_seq_spec in Hd. lia.
Qed.

End CalendarFacts.

(** ** The business-day generator *)

Module BusinessDaysFacts.
Import CalendarMath BusinessDays CalendarFacts.

Lemma business_day_weekday (holidays : gset string) (d : Z) :
  business_day holidays d <->
  getDay d <> 0 /\ getDay d <> 6 /\ formatDate d ∉ holidays.
Proof.
  unfold business_day, isWeekend.
  destruct (Z.eqb_spec (getDay d) 0), (Z.eqb_spec (getDay d) 6); simpl;
    intuition congruence.
Qed.

Lemma push_if_business_filter (holidays : gset string) (c : Z)
    (dates : list string) :
  push_if_business holidays c dates
  = dates ++ map formatDate (filter (business_day holidays) [c]).
Proof.
  unfold push_if_business.
  rewrite filter_cons, filter_nil.
  destruct (decide (business_day holidays c)) as [B | B].
  - apply business_day_weekday in B as (B0 & B6 & BH).
    apply Z.eqb_neq in B0, B6. rewrite B0, B6.
    rewrite bool_decide_eq_false_2 by exact BH. reflexivity.
  - rewrite business_day_weekday in B.
    destruct (Z.eqb_spec (getDay c) 0); simpl; [now rewrite app_nil_r | ].
    destruct (Z.eqb_spec (getDay c) 6); simpl; [now rewrite app_nil_r | ].
    destruct (decide (formatDate c ∈ holidays)) as [I | I].
    + rewrite bool_decide_eq_true_2 by exact I. simpl. now rewrite app_nil_r.
    + exfalso. apply B. auto.
Qed.

Lemma business_days_step (holidays : gset string) (c l : Z) :
  c <= l ->
  business_days holidays c l
  = filter (business_day holidays) [c] ++ business_days holidays (c + 1) l.
Proof.
  intros Hle. unfold business_days.
  replace (Z.to_nat (l - c + 1)) with (S (Z.to_nat (l - (c + 1) + 1))) by lia.
  simpl day_seq. rewrite !filter_cons, filter_nil.
  destruct (decide (business_day holidays c)); reflexivity.
Qed.

Lemma business_days_empty (holidays : gset string) (c l : Z) :
  l < c -> business_days holidays c l = [].
Proof.
  intros Hlt. unfold business_days.
  replace (Z.to_nat (l - c + 1)) with O by lia. reflexivity.
Qed.

(** With enough fuel the loop ends by its condition, having pushed the
    business days in order. *)
Lemma generateDateRange_loop_spec (fuel : nat) (holidays : gset string) :
  forall (c l : Z) (dates : list string),
    (Z.to_nat (l - c + 1) <= fuel)%nat ->
    generateDateRange_loop fuel holidays c l dates
    = Some (dates ++ map formatDate (business_days holidays c l)).
Proof.
  induction fuel as [ | fuel IH]; intros c l dates Hfuel.
  - simpl. destruct (Z.leb_spec c l); [lia | ].
    rewrite business_days_empty by lia. simpl. now rewrite app_nil_r.
  - simpl. destruct (Z.leb_spec c l).
    + rewrite IH by lia.
      rewrite push_if_business_filter, (business_days_step holidays c l) by lia.
      now rewrite map_app, app_assoc.
    + rewrite business_days_empty by lia. simpl. now rewrite app_nil_r.
Qed.

Lemma generateDateRange_fuel_spec (extra : nat) (currentDate lastDate : JsDate)
    (publicHolidays : list PublicHoliday.t) :
  generateDateRange_fuel (turns currentDate lastDate + extra) currentDate
    lastDate publicHolidays
  = Some (map formatDate
            (match currentDate, lastDate with
             | Day c, Day l =>
                 business_days (publicHolidayDates publicHolidays) c l
             | _, _ => []
             end)).
Proof.
  destruct currentDate as [ | c], lastDate as [ | l]; try reflexivity.
  unfold generateDateRange_fuel, turns.
  now rewrite generateDateRange_loop_spec by lia.
Qed.

Lemma generateDateRange_spec (startDate endDate : string)
    (publicHolidays : list PublicHoliday.t) :
  generateDateRange startDate endDate publicHolidays
  = map formatDate
      (filter (business_day (publicHolidayDates publicHolidays))
         (interval_days startDate endDate)).
Proof.
  unfold generateDateRange, interval_days.
  pose proof (generateDateRange_fuel_spec 0 (new_Date startDate)
                (new_Date endDate) publicHolidays) as E.
  rewrite Nat.add_0_r in E. rewrite E. simpl.
  destruct (new_Date startDate), (new_Date endDate); reflexivity.
Qed.

Lemma publicHolidayDates_spec (publicHolidays : list PublicHoliday.t) (d : Z) :
  formatDate d ∈ publicHolidayDates publicHolidays
  <-> exists ph, ph ∈ publicHolidays /\ PublicHoliday.holiday_date ph = d.
Proof.
  unfold publicHolidayDates.
  rewrite elem_of_list_to_set, list_elem_of_fmap.
  split.
  - intros (ph & E & I). exists ph. split; [exact I | ].
    symmetry. now apply formatDate_inj.
  - intros (ph & I & E). exists ph. now rewrite E.
Qed.

Lemma interval_days_spec (startDate endDate : string) (d : Z) :
  d ∈ interval_days startDate endDate
  <-> exists s e, new_Date startDate = Day s /\ new_Date endDate = Day e
                  /\ s <= d <= e.
Proof.
  unfold interval_days.
  destruct (new_Date startDate) as [ | s], (new_Date endDate) as [ | e];
    try (rewrite elem_of_nil; split; [tauto | intros (? & ? & ? & ? & ?); congruence]).
  rewrite day_seq_spec. split.
  - intros Hd. exists s, e. repeat split; lia.
  - intros (s' & e' & [= <-] & [= <-] & Hd). lia.
Qed.

Lemma interval_days_sorted (startDate endDate : string) :
  StronglySorted Z.lt (interval_days startDate endDate).
Proof.
  unfold interval_days.
  destruct (new_Date startDate), (new_Date endDate);
    try constructor. apply day_seq_sorted.
Qed.

Lemma StronglySorted_filter {A} (R : A -> A -> Prop) (P : A -> Prop)
    `{forall x, Decision (P x)} (l : list A) :
  StronglySorted R l -> StronglySorted R (filter P l).
Proof.
  induction 1 as [ | x l S IH F]; [constructor | ].
  rewrite filter_cons. destruct (decide (P x)); [ | exact IH].
  constructor; [exact IH | ].
  apply Forall_forall. intros y Hy. apply list_elem_of_filter in Hy as [_ Hy].
  rewrite Forall_forall in F. now apply F.
Qed.

Lemma filter_none {A} (P : A -> Prop) `{forall x, Decision (P x)}
    (l : list A) :
  (forall x, x ∈ l -> ~ P x) -> filter P l = [].
Proof.
  induction l as [ | x l IH]; intros N; [reflexivity | ].
  rewrite filter_cons_False by (apply N; left).
  apply IH. intros y Hy. apply N. now right.
Qed.

Lemma StronglySorted_lt_NoDup (l : list Z) : StronglySorted Z.lt l -> NoDup l.
Proof.
  induction 1 as [ | x l S IH F]; constructor; [ | exact IH].
  intros I. rewrite Forall_forall in F. specialize (F _ I). lia.
Qed.

(** Days of the supported window in ascending order are formatted to
    texts in ascending order. *)
Lemma formatDate_sorted (l : list Z) :
  StronglySorted Z.lt l ->
  (forall d, d ∈ l -> first_supported_day <= d <= last_supported_day) ->
  StronglySorted date_text_lt (map formatDate l).
Proof.
  induction 1 as [ | x l S IH F]; intros W; simpl; constructor.
  - apply IH. intros d I. apply W. now right.
  - apply Forall_forall. intros t I.
    apply list_elem_of_fmap in I as (d & -> & I).
    rewrite Forall_forall in F.
    apply formatDate_ascending; [apply W; left | now apply F | ].
    apply W. now right.
Qed.

Lemma weekend_pair (sat d : Z) :
  getDay sat = 6 -> sat <= d <= sat + 1 -> isWeekend d = true.
Proof.
  intros Hsat Hd. unfold isWeekend.
  assert (d = sat \/ d = sat + 1) as [-> | ->] by lia.
  - rewrite Hsat. reflexivity.
  - rewrite getDay_succ, Hsat. reflexivity.
Qed.

End BusinessDaysFacts.

Module Claims_BusinessDays.
Import CalendarMath BusinessDays CalendarFacts BusinessDaysFacts.

(** C1.  For every interval and every list of public holidays,
    generateDateRange returns exactly the calendar days from the start to
    the end inclusive that are neither weekend days (day of week 0 or 6)
    nor members of the canonicalized public-holiday set, in strictly
    ascending date order and without duplicates; within the supported
    window 2020 to 2030 the texts themselves ascend.  The loop ends by its
    own condition, whatever fuel is left over; an interval that lies
    within a single weekend (or holds weekend days only) gives the empty
    list, returned as an ordinary result. *)
Theorem generateDateRange_business_days
    (startDate endDate : string) (publicHolidays : list PublicHoliday.t) :
  let holidays := publicHolidayDates publicHolidays in
  let days := filter (business_day holidays) (interval_days startDate endDate) in
  let result := generateDateRange startDate endDate publicHolidays in
  result = map formatDate days
  /\ (forall extra : nat,
        generateDateRange_fuel
          (turns (new_Date startDate) (new_Date endDate) + extra)
          (new_Date startDate) (new_Date endDate) publicHolidays
        = Some result)
  /\ (forall d, d ∈ days <->
        (exists s e, new_Date startDate = Day s /\ new_Date endDate = Day e
                     /\ s <= d <= e)
        /\ getDay d <> 0 /\ getDay d <> 6
        /\ ~ (exists ph, ph ∈ publicHolidays
                         /\ PublicHoliday.holiday_date ph = d))
  /\ StronglySorted Z.lt days
  /\ NoDup result
  /\ (forall s e,
        new_Date startDate = Day s -> new_Date endDate = Day e ->
        first_supported_day <= s -> e <= last_supported_day ->
        StronglySorted date_text_lt result)
  /\ ((forall d, d ∈ interval_days startDate endDate -> isWeekend d = true)
      -> result = [])
  /\ (forall sat s e,
        getDay sat = 6 ->
        new_Date startDate = Day s -> new_Date endDate = Day e ->
        sat <= s -> e <= sat + 1 -> result = []).
Proof.
  intros holidays days result.
  assert (Hres : result = map formatDate days)
    by apply generateDateRange_spec.
  assert (Hsorted : StronglySorted Z.lt days).
  { apply StronglySorted_filter, interval_days_sorted. }
  assert (Hweekend :
    (forall d, d ∈ interval_days startDate endDate -> isWeekend d = true)
    -> result = []).
  { intros W. rewrite Hres. unfold days.
    rewrite filter_none; [reflexivity | ].
    intros d Hd [B _]. rewrite (W d Hd) in B. discriminate. }
  split; [exact Hres | ].
  split.
  { intros extra. rewrite generateDateRange_fuel_spec, Hres.
    unfold days, interval_days, business_days.
    destruct (new_Date startDate), (new_Date endDate); reflexivity. }
  split.
  { intros d. unfold days.
    rewrite list_elem_of_filter, business_day_weekday, interval_days_spec.
    unfold holidays. rewrite publicHolidayDates_spec. tauto. }
  split; [exact Hsorted | ].
  split.
  { rewrite Hres. apply NoDup_fmap_2.
    - intros a b. apply formatDate_inj.
    - now apply StronglySorted_lt_NoDup. }
  split.
  { intros s e Hs He Lo Hi. rewrite Hres.
    apply formatDate_sorted; [exact Hsorted | ].
    intros d Hd. apply list_elem_of_filter in Hd as [_ Hd].
    apply interval_days_spec in Hd as (s' & e' & Es & Ee & Hd).
    rewrite Hs in Es. rewrite He in Ee.
    injection Es as <-. injection Ee as <-. lia. }
  split; [exact Hweekend | ].
  intros sat s e Hsat Hs He Hlo Hhi. apply Hweekend.
  intros d Hd. apply interval_days_spec in Hd as (s' & e' & Es & Ee & Hd).
  rewrite Hs in Es. rewrite He in Ee. injection Es as <-. injection Ee as <-.
  apply (weekend_pair sat); [exact Hsat | lia].
Qed.

(** The theorem at the weekend of 4 and 5 May 2024. *)
Lemma generateDateRange_business_days_witness :
  getDay 19847 = 6
  /\ generateDateRange "2024-05-04" "2024-05-05" [] = [].
Proof.
  split; [reflexivity | ].
  destruct (generateDateRange_business_days "2024-05-04" "2024-05-05" [])
    as (_ & _ & _ & _ & _ & _ & _ & W).
  apply (W 19847 19847 19848); [reflexivity | reflexivity | reflexivity | lia | lia].
Defined.

Example week_with_holiday :
  generateDateRange "2024-04-29" "2024-05-06"
    [{| PublicHoliday.holiday_date := 19844; PublicHoliday.name := "Labour Day" |};
     {| PublicHoliday.holiday_date := 19846; PublicHoliday.name := "" |}]
  = ["2024-04-29"; "2024-04-30"; "2024-05-02"; "2024-05-06"].
Proof. vm_compute. reflexivity. Qed.

Example reversed_interval : generateDateRange "2024-05-06" "2024-04-29" [] = [].
Proof. vm_compute. reflexivity. Qed.

Example no_end_date : generateDateRange "2024-05-06" "soon" [] = [].
Proof. vm_compute. reflexivity. Qed.

End Claims_BusinessDays.

(** ** The add-holiday handler *)

Module AddHolidayFacts.
Import CalendarMath BusinessDays Js AddHoliday CalendarFacts BusinessDaysFacts.

Lemma recorded_app (userId : N) (date : string) (table more : list HolidayRow) :
  recorded userId date table = true ->
  recorded userId date (table ++ more) = true.
Proof.
  unfold recorded. rewrite filter_app, length_app.
  destruct (filter (same_key userId date) table); simpl; [discriminate | easy].
Qed.

Lemma recorded_own_row (userId : N) (date : string) (table : list HolidayRow) :
  recorded userId date
    (table ++ [{| user_id := userId; holiday_date := date |}]) = true.
Proof.
  unfold recorded. rewrite filter_app, length_app.
  rewrite filter_cons_True by (split; reflexivity). simpl.
  rewrite Nat.add_comm. reflexivity.
Qed.

Lemma add_missing_keeps (userId : N) (dates : list string) :
  forall (table : list HolidayRow) (date : string),
    recorded userId date table = true ->
    recorded userId date (add_missing userId dates table) = true.
Proof.
  induction dates as [ | d rest IH]; intros table date R; simpl; [exact R | ].
  apply IH. destruct (recorded userId d table); [exact R | ].
  now apply recorded_app.
Qed.

Lemma add_missing_records (userId : N) (dates : list string) :
  forall (table : list HolidayRow) (date : string),
    date ∈ dates ->
    recorded userId date (add_missing userId dates table) = true.
Proof.
  induction dates as [ | d rest IH]; intros table date I.
  - now apply elem_of_nil in I.
  - simpl. apply elem_of_cons in I as [-> | I]; [ | now apply IH].
    apply add_missing_keeps.
    destruct (recorded userId d table) eqn:R; [exact R | ].
    apply recorded_own_row.
Qed.

Lemma add_missing_recorded (userId : N) (dates : list string)
    (table : list HolidayRow) :
  (forall date, date ∈ dates -> recorded userId date table = true) ->
  add_missing userId dates table = table.
Proof.
  induction dates as [ | d rest IH]; intros R; simpl; [reflexivity | ].
  rewrite (R d) by left. apply IH. intros date I. apply R. now right.
Qed.

(** Writing the same dates a second time adds nothing. *)
Lemma add_missing_idempotent (userId : N) (dates : list string)
    (table : list HolidayRow) :
  add_missing userId dates (add_missing userId dates table)
  = add_missing userId dates table.
Proof.
  apply add_missing_recorded. intros date I. now apply add_missing_records.
Qed.

(** The rows are only ever appended. *)
Lemma add_missing_extends (userId : N) (dates : list string) :
  forall table : list HolidayRow,
    exists added,
      add_missing userId dates table = table ++ added
      /\ Forall (fun r => user_id r = userId /\ holiday_date r ∈ dates
                          /\ recorded userId (holiday_date r) table = false)
                added.
Proof.
  induction dates as [ | d rest IH]; intros table; simpl.
  - exists []. split; [now rewrite app_nil_r | constructor].
  - destruct (recorded userId d table) eqn:R.
    + destruct (IH table) as (added & E & F). exists added. split; [exact E | ].
      eapply Forall_impl; [exact F | ]. cbv beta.
      intros r (U & I & N). repeat split; [exact U | now right | exact N].
    + destruct (IH (table ++ [{| user_id := userId; holiday_date := d |}]))
        as (added & E & F).
      exists ({| user_id := userId; holiday_date := d |} :: added).
      split; [now rewrite E, <- app_assoc | ].
      constructor; [simpl; repeat split; [left | exact R] | ].
      eapply Forall_impl; [exact F | ]. cbv beta.
      intros r (U & I & N). repeat split; [exact U | now right | ].
      destruct (recorded userId (holiday_date r) table) eqn:R'; [ | reflexivity].
      now rewrite (recorded_app _ _ _ _ R') in N.
Qed.

(** A body that runs to its end has written exactly the missing dates,
    and every query that it sent succeeded. *)
Lemma write_dates_commits (w : World) (userId : N) (dates : list string) :
  forall table sent r,
    write_dates w userId dates (table, sent) = Some r ->
    r.2.1 = add_missing userId dates table
    /\ (sent + length dates <= r.2.2)%nat
    /\ (forall i, (sent <= i < r.2.2)%nat -> query_ok w i = true).
Proof.
  induction dates as [ | d rest IH]; intros table sent r E.
  - injection E as <-. simpl. repeat split; [lia | intros i Hi; lia].
  - cbn [write_dates] in E. unfold tx_bind, select_existing in E.
    destruct (query_ok w sent) eqn:Q0; [ | discriminate].
    unfold recorded in *. cbn [add_missing]. unfold recorded.
    destruct (length (filter (same_key userId d) table) =? 0)%nat eqn:L; simpl.
    + unfold insert_holiday in E.
      destruct (query_ok w (S sent)) eqn:Q1; [ | discriminate].
      apply IH in E as (Et & Es & Eq). simpl length.
      repeat split; [exact Et | lia | ].
      intros i Hi.
      destruct (decide (i = sent)) as [-> | ]; [exact Q0 | ].
      destruct (decide (i = S sent)) as [-> | ]; [exact Q1 | ].
      apply Eq. lia.
    + unfold tx_ret in E.
      apply IH in E as (Et & Es & Eq). simpl length.
      repeat split; [exact Et | lia | ].
      intros i Hi.
      destruct (decide (i = sent)) as [-> | ]; [exact Q0 | ].
      apply Eq. lia.
Qed.

(** When every date is on record the body only reads, one query a date. *)
Lemma write_dates_reads (w : World) (userId : N) (dates : list string) :
  forall table sent,
    (forall date, date ∈ dates -> recorded userId date table = true) ->
    (forall i, (sent <= i < sent + length dates)%nat -> query_ok w i = true) ->
    write_dates w userId dates (table, sent)
    = Some (tt, (table, (sent + length dates)%nat)).
Proof.
  induction dates as [ | d rest IH]; intros table sent R Q.
  - simpl. unfold tx_ret. now rewrite Nat.add_0_r.
  - cbn [write_dates]. unfold tx_bind, select_existing.
    rewrite (Q sent) by (simpl; lia).
    pose proof (R d ltac:(left)) as Rd. unfold recorded in Rd.
    apply negb_true_iff in Rd. rewrite Rd. unfold tx_ret.
    rewrite IH.
    + simpl length. do 3 f_equal. lia.
    + intros date I. apply R. now right.
    + intros i Hi. apply Q. simpl. lia.
Qed.

(** With no rejected query the body runs to its end. *)
Lemma write_dates_runs (w : World) (userId : N) (dates : list string) :
  (forall i, query_ok w i = true) ->
  forall table sent, exists sent',
    write_dates w userId dates (table, sent)
    = Some (tt, (add_missing userId dates table, sent')).
Proof.
  intros Q. induction dates as [ | d rest IH]; intros table sent.
  - exists sent. reflexivity.
  - cbn [write_dates add_missing]. unfold tx_bind, select_existing, recorded.
    rewrite Q.
    destruct (length (filter (same_key userId d) table) =? 0)%nat; simpl.
    + unfold insert_holiday. rewrite Q. apply IH.
    + unfold tx_ret. apply IH.
Qed.

Lemma recorded_false (userId : N) (date : string) (table : list HolidayRow) :
  recorded userId date table = false ->
  (userId, date) ∉ map (fun r => (user_id r, holiday_date r)) table.
Proof.
  unfold recorded. intros R I.
  apply list_elem_of_fmap in I as (r & [= U D] & I).
  assert (F : r ∈ filter (same_key userId date) table).
  { apply list_elem_of_filter. split; [split; congruence | exact I]. }
  destruct (filter (same_key userId date) table); [ | discriminate].
  now apply elem_of_nil in F.
Qed.

(** No second row for a user and a date comes from the write. *)
Lemma add_missing_NoDup (userId : N) (dates : list string) :
  forall table : list HolidayRow,
    NoDup (map (fun r => (user_id r, holiday_date r)) table) ->
    NoDup (map (fun r => (user_id r, holiday_date r))
               (add_missing userId dates table)).
Proof.
  induction dates as [ | d rest IH]; intros table ND; simpl; [exact ND | ].
  apply IH. destruct (recorded userId d table) eqn:R; [exact ND | ].
  rewrite map_app. apply NoDup_app. repeat split.
  - exact ND.
  - intros k I J. simpl in J. apply list_elem_of_singleton in J. subst k.
    now apply (recorded_false _ _ _ R).
  - simpl. apply NoDup_singleton.
Qed.

Lemma transaction_commits (w : World) (userId : N) (dates : list string)
    (table table' : list HolidayRow) :
  transaction (write_dates w userId dates) table = Some table' ->
  table' = add_missing userId dates table.
Proof.
  unfold transaction.
  destruct (write_dates w userId dates (table, O)) as [[x [t k]] | ] eqn:E;
    [ | discriminate].
  intros [= <-]. now apply write_dates_commits in E as (Et & _).
Qed.

End AddHolidayFacts.

Module HandlerFacts.
Import CalendarMath BusinessDays Js AddHoliday.
Import CalendarFacts BusinessDaysFacts AddHolidayFacts.



(** The test on the start date: some holiday has its canonical form. *)
Lemma start_is_public_holiday (publicHolidays : list PublicHoliday.t) (d : Z) :
  existsb (fun ph =>
             String.eqb (formatDate (PublicHoliday.holiday_date ph))
                        (formatDate d)) publicHolidays = true
  <-> exists ph, ph ∈ publicHolidays /\ PublicHoliday.holiday_date ph = d.
Proof.
  rewrite existsb_exists. split.
  - intros (ph & I & E). exists ph. split; [now apply list_elem_of_In | ].
    apply String.eqb_eq in E. now apply formatDate_inj.
  - intros (ph & I & E). exists ph. split; [now apply list_elem_of_In | ].
    rewrite E. apply String.eqb_refl.
Qed.

Lemma weekend_test (d : Z) :
  bool_decide (getDay_of (Day d) = Some 0 \/ getDay_of (Day d) = Some 6)
  = isWeekend d.
Proof.
  unfold isWeekend. simpl.
  destruct (Z.eqb_spec (getDay d) 0) as [E0 | N0];
    [rewrite E0; now apply bool_decide_eq_true_2; left | ].
  destruct (Z.eqb_spec (getDay d) 6) as [E6 | N6];
    [rewrite E6; now apply bool_decide_eq_true_2; right | ].
  apply bool_decide_eq_false_2. intros [[=] | [=]]; congruence.
Qed.

Lemma post_holidays_missing (w : World) (userId : N) (body : Body)
    (table : list HolidayRow) :
  truthy (start_date body) = None ->
  post_holidays w userId body table = (invalid_date, table).
Proof. intros E. unfold post_holidays. now rewrite E. Qed.

Lemma post_holidays_unparseable (w : World) (userId : N) (body : Body)
    (table : list HolidayRow) (start : string) :
  truthy (start_date body) = Some start ->
  new_Date start = Invalid_Date ->
  post_holidays w userId body table = (failed, table).
Proof.
  intros E P. unfold post_holidays, formatDate_input. rewrite E, P. simpl.
  now destruct (findByDateRange w start _).
Qed.


Lemma post_holidays_weekend (w : World) (userId : N) (body : Body)
    (table : list HolidayRow) (start : string) (d : Z) :
  truthy (start_date body) = Some start ->
  new_Date start = Day d ->
  isWeekend d = true ->
  post_holidays w userId body table = (weekend_not_allowed, table).
Proof.
  intros E P W. unfold post_holidays. rewrite E, P, weekend_test, W.
  reflexivity.
Qed.

Lemma post_holidays_weekday (w : World) (userId : N) (body : Body)
    (table : list HolidayRow) (start : string) (d : Z) :
  truthy (start_date body) = Some start ->
  new_Date start = Day d ->
  isWeekend d = false ->
  post_holidays w userId body table
  = match findByDateRange w start (default start (truthy (end_date body))) with
    | None => (failed, table)
    | Some publicHolidays =>
        check_and_write w userId start
          (default start (truthy (end_date body))) (formatDate d)
          publicHolidays table
    end.
Proof.
  intros E P W.
  unfold post_holidays, formatDate_input.
  rewrite E, P, weekend_test, W. reflexivity.
Qed.

(** Whatever the redirect, the table is the one before or the one with
    the missing dates of the generated list added. *)
Lemma check_and_write_table (w : World) (userId : N)
    (start finish formatted : string) (phs : list PublicHoliday.t)
    (table : list HolidayRow) :
  let r := check_and_write w userId start finish formatted phs table in
  (exists dates, r.1 = success dates /\ dates <> []
                 /\ dates = generateDateRange start finish phs
                 /\ r.2 = add_missing userId dates table)
  \/ ((forall dates, r.1 <> success dates) /\ r.2 = table).
Proof.
  cbv zeta. unfold check_and_write.
  destruct (existsb _ phs); [right; now split | ].
  destruct (generateDateRange start finish phs) as [ | x dates] eqn:G;
    [right; now split | ].
  cbn [length Nat.eqb].
  destruct (transaction _ table) as [table' | ] eqn:T; [ | right; now split].
  left. exists (x :: dates). repeat split; [discriminate | ].
  now apply transaction_commits in T.
Qed.

Lemma post_holidays_table (w : World) (userId : N) (body : Body)
    (table : list HolidayRow) :
  let r := post_holidays w userId body table in
  (exists dates, r.1 = success dates /\ dates <> []
                 /\ r.2 = add_missing userId dates table)
  \/ ((forall dates, r.1 <> success dates) /\ r.2 = table).
Proof.
  cbv zeta.
  destruct (truthy (start_date body)) as [start | ] eqn:E;
    [ | rewrite post_holidays_missing by exact E; right; now split].
  destruct (new_Date start) as [ | d] eqn:P;
    [rewrite (post_holidays_unparseable _ _ _ _ _ E P); right; now split | ].
  destruct (isWeekend d) eqn:W;
    [rewrite (post_holidays_weekend _ _ _ _ _ _ E P W); right; now split | ].
  rewrite (post_holidays_weekday _ _ _ _ _ _ E P W).
  destruct (findByDateRange w start _) as [phs | ]; [ | right; now split].
  destruct (check_and_write_table w userId start
              (default start (truthy (end_date body))) (formatDate d) phs table)
    as [(dates & Es & Ne & _ & Et) | R]; [left; now exists dates | now right].
Qed.

End HandlerFacts.

Module Claims_AddHoliday.
Import CalendarMath BusinessDays Js AddHoliday.
Import CalendarFacts BusinessDaysFacts AddHolidayFacts HandlerFacts.

(** The redirect, by the first test of the handler that decides it. *)
Lemma outcome_cases (w : World) (userId : N) (body : Body)
    (table : list HolidayRow) :
  let outcome := (post_holidays w userId body table).1 in
  let finish start := default start (truthy (end_date body)) in
  (truthy (start_date body) = None /\ outcome = invalid_date)
  \/ (exists start,
        truthy (start_date body) = Some start
        /\ new_Date start = Invalid_Date /\ outcome = failed)
  \/ (exists start d,
        truthy (start_date body) = Some start /\ new_Date start = Day d
        /\ isWeekend d = true /\ outcome = weekend_not_allowed)
  \/ (exists start d,
        truthy (start_date body) = Some start /\ new_Date start = Day d
        /\ isWeekend d = false
        /\ findByDateRange w start (finish start) = None /\ outcome = failed)
  \/ (exists start d phs,
        truthy (start_date body) = Some start /\ new_Date start = Day d
        /\ isWeekend d = false
        /\ findByDateRange w start (finish start) = Some phs
        /\ (exists ph, ph ∈ phs /\ PublicHoliday.holiday_date ph = d)
        /\ outcome = public_holiday_not_allowed)
  \/ (exists start d phs,
        truthy (start_date body) = Some start /\ new_Date start = Day d
        /\ isWeekend d = false
        /\ findByDateRange w start (finish start) = Some phs
        /\ ~ (exists ph, ph ∈ phs /\ PublicHoliday.holiday_date ph = d)
        /\ generateDateRange start (finish start) phs = []
        /\ outcome = no_valid_days)
  \/ (exists start d phs,
        truthy (start_date body) = Some start /\ new_Date start = Day d
        /\ isWeekend d = false
        /\ findByDateRange w start (finish start) = Some phs
        /\ ~ (exists ph, ph ∈ phs /\ PublicHoliday.holiday_date ph = d)
        /\ generateDateRange start (finish start) phs <> []
        /\ (outcome = success (generateDateRange start (finish start) phs)
            \/ outcome = failed)).
Proof.
  cbv zeta.
  destruct (truthy (start_date body)) as [start | ] eqn:E.
  2: { left. split; [reflexivity | ]. now rewrite post_holidays_missing. }
  right.
  destruct (new_Date start) as [ | d] eqn:P.
  { left. exists start. rewrite (post_holidays_unparseable _ _ _ _ _ E P).
    now repeat split. }
  right.
  destruct (isWeekend d) eqn:W.
  { left. exists start, d. rewrite (post_holidays_weekend _ _ _ _ _ _ E P W).
    now repeat split. }
  right. rewrite (post_holidays_weekday _ _ _ _ _ _ E P W).
  destruct (findByDateRange w start _) as [phs | ] eqn:F.
  2: { left. exists start, d. now repeat split. }
  right. unfold check_and_write.
  destruct (existsb _ phs) eqn:X.
  { left. exists start, d, phs. apply start_is_public_holiday in X.
    now repeat split. }
  right.
  assert (NX : ~ (exists ph, ph ∈ phs /\ PublicHoliday.holiday_date ph = d)).
  { intros H. apply start_is_public_holiday in H. congruence. }
  destruct (generateDateRange start _ phs) as [ | x dates] eqn:G.
  { left. exists start, d, phs. now repeat split. }
  right. exists start, d, phs. rewrite G. cbn [length Nat.eqb].
  repeat split; try assumption; try discriminate.
  destruct (transaction _ table); [now left | now right].
Qed.

Ltac outcome_case w userId body table :=
  destruct (outcome_cases w userId body table)
    as [(E & O)
       | [(start0 & E & P & O)
       | [(start0 & d0 & E & P & W & O)
       | [(start0 & d0 & E & P & W & F & O)
       | [(start0 & d0 & phs0 & E & P & W & F & X & O)
       | [(start0 & d0 & phs0 & E & P & W & F & X & G & O)
       | (start0 & d0 & phs0 & E & P & W & F & X & G & O)]]]]]];
  cbv zeta in O.

Ltac same_request :=
  simplify_eq;
  repeat match goal with
  | H : ?a = Some ?x, H' : ?a = Some ?y |- _ =>
      rewrite H in H'; injection H' as <-
  | H : new_Date ?s = Day ?x, H' : new_Date ?s = Day ?y |- _ =>
      rewrite H in H'; injection H' as <-
  end;
  first [congruence | tauto].




(** The dates of a success are the generated days of the request. *)
Lemma success_dates (w : World) (userId : N) (body : Body)
    (table : list HolidayRow) (dates : list string) :
  (post_holidays w userId body table).1 = success dates ->
  exists start phs,
    truthy (start_date body) = Some start
    /\ findByDateRange w start (default start (truthy (end_date body)))
       = Some phs
    /\ dates
       = generateDateRange start (default start (truthy (end_date body))) phs.
Proof.
  intros O'. outcome_case w userId body table;
    try (rewrite O in O'; discriminate).
  destruct O as [O | O]; rewrite O in O'; [ | discriminate].
  injection O' as <-. now exists start0, phs0.
Qed.




(** A request that starts on Saturday 4 May 2024 and ends on the first of
    May: the start is after the end, the redirect is weekend_not_allowed. *)
Lemma reversed_interval_on_saturday :
  new_Date "2024-05-04" = Day 19847 /\ new_Date "2024-05-01" = Day 19844
  /\ (post_holidays (quiet_world []) 7%N
        {| start_date := Some "2024-05-04"; end_date := Some "2024-05-01" |}
        []).1 <> no_valid_days.
Proof. repeat split; vm_compute; discriminate. Qed.

(** C10, as the handler has it.  When the start date of a request is
    strictly after its end date, generateDateRange returns the empty list,
    the write is never reached and no holiday record is created.  The
    redirect is that of the first rule that fails: weekend_not_allowed or
    public_holiday_not_allowed when the start date is on a weekend or a
    public holiday, failed when the public holidays cannot be read, and
    no_valid_days in every other case. *)
Theorem reversed_interval_rejected (w : World) (userId : N) (body : Body)
    (table : list HolidayRow) (start : string) (s e : Z) :
  let r := post_holidays w userId body table in
  let finish := default start (truthy (end_date body)) in
  truthy (start_date body) = Some start ->
  new_Date start = Day s -> new_Date finish = Day e -> e < s ->
  (forall phs, generateDateRange start finish phs = [])
  /\ r.2 = table
  /\ (forall dates, r.1 <> success dates)
  /\ (isWeekend s = true -> r.1 = weekend_not_allowed)
  /\ (isWeekend s = false -> findByDateRange w start finish = None ->
      r.1 = failed)
  /\ (forall phs,
        isWeekend s = false -> findByDateRange w start finish = Some phs ->
        (exists ph, ph ∈ phs /\ PublicHoliday.holiday_date ph = s) ->
        r.1 = public_holiday_not_allowed)
  /\ (forall phs,
        isWeekend s = false -> findByDateRange w start finish = Some phs ->
        ~ (exists ph, ph ∈ phs /\ PublicHoliday.holiday_date ph = s) ->
        r.1 = no_valid_days).
Proof.
  cbv zeta. intros E' P' Q' L'.
  assert (Hgen : forall phs,
    generateDateRange start (default start (truthy (end_date body))) phs = []).
  { intros phs. rewrite generateDateRange_spec. unfold interval_days.
    rewrite P', Q'. replace (Z.to_nat (e - s + 1)) with O by lia. reflexivity. }
  assert (Hnot : forall dates,
    (post_holidays w userId body table).1 <> success dates).
  { intros dates O'. outcome_case w userId body table;
      try (rewrite O in O'; discriminate).
    rewrite E' in E. injection E as <-. now specialize (Hgen phs0). }
  repeat match goal with |- _ /\ _ => split end.
  - exact Hgen.
  - destruct (post_holidays_table w userId body table)
      as [(dates & Es & _ & _) | [_ Et]]; [now apply Hnot in Es | exact Et].
  - exact Hnot.
  - intros W'. now rewrite (post_holidays_weekend _ _ _ _ _ _ E' P' W').
  - intros W' F'. rewrite (post_holidays_weekday _ _ _ _ _ _ E' P' W').
    now rewrite F'.
  - intros phs W' F' X'.
    outcome_case w userId body table; same_request.
  - intros phs W' F' X'. specialize (Hgen phs).
    outcome_case w userId body table; same_request.
Qed.

(** The theorem at a request from Monday 6 May 2024 back to 1 May. *)
Lemma reversed_interval_rejected_witness :
  (post_holidays (quiet_world []) 7%N
     {| start_date := Some "2024-05-06"; end_date := Some "2024-05-01" |}
     []) = (no_valid_days, []).
Proof.
  destruct (reversed_interval_rejected (quiet_world []) 7%N
              {| start_date := Some "2024-05-06";
                 end_date := Some "2024-05-01" |} [] "2024-05-06" 19849 19844)
    as (_ & T & _ & _ & _ & _ & V); [reflexivity | reflexivity | reflexivity | lia | ].
  apply injective_projections; [ | exact T].
  apply (V []); [reflexivity | reflexivity | ].
  intros (ph & I & _). now apply elem_of_nil in I.
Defined.

(** C6.  The write of the generated days is idempotent, record by record.
    The body of the transaction inserts a row for a date only when the
    user has none for it, so it adds exactly the missing dates and never a
    second row for a user and a date.  The checks and inserts of one
    request run in one transaction: the table afterwards is the one before
    or the one with every missing date added.  Sending the same request
    again therefore leaves the table as the first request left it. *)
Theorem holiday_write_idempotent (w : World) (userId : N) (body : Body)
    (table : list HolidayRow) :
  let r := post_holidays w userId body table in
  (forall dates tbl sent res,
     write_dates w userId dates (tbl, sent) = Some res ->
     res.2.1 = add_missing userId dates tbl)
  /\ (forall dates tbl,
        exists added,
          add_missing userId dates tbl = tbl ++ added
          /\ Forall (fun row => user_id row = userId
                                /\ holiday_date row ∈ dates
                                /\ recorded userId (holiday_date row) tbl = false)
                    added)
  /\ ((exists dates, r.1 = success dates
                     /\ r.2 = add_missing userId dates table)
      \/ ((forall dates, r.1 <> success dates) /\ r.2 = table))
  /\ (NoDup (map (fun row => (user_id row, holiday_date row)) table) ->
      NoDup (map (fun row => (user_id row, holiday_date row)) r.2))
  /\ (post_holidays w userId body r.2).2 = r.2
  /\ (forall w' dates,
        findByDateRange w' = findByDateRange w -> r.1 = success dates ->
        (post_holidays w' userId body r.2).2 = r.2).
Proof.
  cbv zeta.
  assert (Hagain : forall w' dates,
    findByDateRange w' = findByDateRange w ->
    (post_holidays w userId body table).1 = success dates ->
    (post_holidays w' userId body (post_holidays w userId body table).2).2
    = (post_holidays w userId body table).2).
  { intros w' dates Ew O'.
    destruct (post_holidays_table w userId body table)
      as [(dates1 & Es & _ & Et) | [N _]]; [ | now apply N in O'].
    rewrite Et.
    destruct (post_holidays_table w' userId body
                (add_missing userId dates1 table))
      as [(dates2 & Es2 & _ & Et2) | [_ Et2]]; [ | exact Et2].
    rewrite Et2.
    assert (dates2 = dates1) as ->; [ | apply add_missing_idempotent].
    apply success_dates in Es as (start1 & phs1 & E1 & F1 & ->).
    apply success_dates in Es2 as (start2 & phs2 & E2 & F2 & ->).
    rewrite E1 in E2. injection E2 as <-.
    rewrite Ew, F1 in F2. now injection F2 as <-. }
  repeat match goal with |- _ /\ _ => split end.
  - intros dates tbl sent res E. now apply write_dates_commits in E as (Et & _).
  - intros dates tbl. apply add_missing_extends.
  - destruct (post_holidays_table w userId body table)
      as [(dates & Es & _ & Et) | R]; [left; now exists dates | now right].
  - intros ND.
    destruct (post_holidays_table w userId body table)
      as [(dates & Es & _ & Et) | [_ Et]]; rewrite Et;
      [now apply add_missing_NoDup | exact ND].
  - destruct (post_holidays_table w userId body table)
      as [(dates & Es & _ & Et) | [_ Et]].
    + now apply (Hagain w dates).
    + rewrite !Et. reflexivity.
  - exact Hagain.
Qed.

(** The theorem at a request for the week of 29 April 2024, sent twice,
    the second time to a database that rejects the fourth query. *)
Lemma holiday_write_idempotent_witness :
  let body := {| start_date := Some "2024-04-29";
                 end_date := Some "2024-05-05" |} in
  let labour_day := {| PublicHoliday.holiday_date := 19844;
                       PublicHoliday.name := "Labour Day" |} in
  let first := post_holidays (quiet_world [labour_day]) 7%N body [] in
  let flaky := {| findByDateRange := fun _ _ => Some [labour_day];
                  query_ok := fun k => (k <? 3)%nat |} in
  first.1 = success ["2024-04-29"; "2024-04-30"; "2024-05-02"; "2024-05-03"]
  /\ (post_holidays flaky 7%N body first.2).2 = first.2.
Proof.
  cbv zeta. split; [vm_compute; reflexivity | ].
  destruct (holiday_write_idempotent
              (quiet_world [{| PublicHoliday.holiday_date := 19844;
                               PublicHoliday.name := "Labour Day" |}]) 7%N
              {| start_date := Some "2024-04-29";
                 end_date := Some "2024-05-05" |} [])
    as (_ & _ & _ & _ & _ & Again).
  apply (Again _ ["2024-04-29"; "2024-04-30"; "2024-05-02"; "2024-05-03"]);
    vm_compute; reflexivity.
Defined.

End Claims_AddHoliday.

(** ** The month statistics *)

Module MonthlyStatsFacts.
Import CalendarMath MonthlyStats.






Lemma weekday_filter (publicHolidays : list PublicHoliday.t) :
  publicHolidaysOnWorkdays publicHolidays
  = filter (fun holiday => isWeekend (PublicHoliday.holiday_date holiday) = false)
           publicHolidays.
Proof.
  unfold publicHolidaysOnWorkdays. apply list_filter_iff. intros h.
  unfold isWeekend. cbv zeta.
  destruct (Z.eqb_spec (getDay (PublicHoliday.holiday_date h)) 0),
           (Z.eqb_spec (getDay (PublicHoliday.holiday_date h)) 6);
    simpl; intuition congruence.
Qed.

End MonthlyStatsFacts.

Module Claims_MonthlyStats.
Import CalendarMath MonthlyStats MonthlyStatsFacts.

(** C3.  For every month, requiredMonthlyHours is the weekday count of the
    month minus the count of all the public holidays supplied for it,
    those falling on weekends included, times 8; totalHolidayHours is the
    holiday count times 8; publicHolidayHours comes from the public
    holidays that fall on weekdays only and is no part of
    totalCombinedHours, which is the worked hours plus totalHolidayHours.
    For February 2024 with no public holiday, 100 worked hours and 2
    holidays the statistics are 168, 16, 116 and 52 remaining hours. *)
Theorem monthStats_formulas (currentYear currentMonth : Z) (totalWorkHours : Q)
    (holidayCount : Z) (publicHolidays : list PublicHoliday.t) :
  let stats := monthStats currentYear currentMonth totalWorkHours holidayCount
                 publicHolidays in
  requiredMonthlyHours currentYear currentMonth publicHolidays
    = (getWeekdaysInMonth currentYear currentMonth
       - Z.of_nat (length publicHolidays)) * 8
  /\ totalHolidayHours holidayCount = holidayCount * 8
  /\ publicHolidayHours publicHolidays
     = Z.of_nat (length (filter (fun holiday =>
         isWeekend (PublicHoliday.holiday_date holiday) = false)
         publicHolidays)) * 8
  /\ (totalCombinedHours totalWorkHours holidayCount
      == totalWorkHours + inject_Z (totalHolidayHours holidayCount))%Q
  /\ stat_requiredMonthlyHours stats
     = requiredMonthlyHours currentYear currentMonth publicHolidays
  /\ stat_totalHolidayHours stats = totalHolidayHours holidayCount
  /\ stat_publicHolidayHours stats = publicHolidayHours publicHolidays
  /\ stat_totalCombinedHours stats
     = round2 (totalCombinedHours totalWorkHours holidayCount)
  /\ (forall others : list PublicHoliday.t,
        stat_totalCombinedHours
          (monthStats currentYear currentMonth totalWorkHours holidayCount
             others)
        = stat_totalCombinedHours stats)
  /\ (forall ph : PublicHoliday.t,
        isWeekend (PublicHoliday.holiday_date ph) = true ->
        requiredMonthlyHours currentYear currentMonth (ph :: publicHolidays)
        = requiredMonthlyHours currentYear currentMonth publicHolidays - 8
        /\ publicHolidayHours (ph :: publicHolidays)
           = publicHolidayHours publicHolidays)
  /\ (forall ph : PublicHoliday.t,
        isWeekend (PublicHoliday.holiday_date ph) = false ->
        requiredMonthlyHours currentYear currentMonth (ph :: publicHolidays)
        = requiredMonthlyHours currentYear currentMonth publicHolidays - 8
        /\ publicHolidayHours (ph :: publicHolidays)
           = publicHolidayHours publicHolidays + 8)
  /\ (let february := monthStats 2024 2 100 2 [] in
      getWeekdaysInMonth 2024 2 = 21
      /\ stat_requiredMonthlyHours february = 168
      /\ stat_totalHolidayHours february = 16
      /\ (stat_totalCombinedHours february == 116)%Q
      /\ (stat_remainingHours february == 52)%Q
      /\ (totalCombinedHours 100 2 == 116)%Q
      /\ (remainingHours 2024 2 100 2 [] == 52)%Q).
Proof.
  cbv zeta. repeat match goal with |- _ /\ _ => split end;
    try reflexivity.
  - unfold publicHolidayHours. now rewrite weekday_filter.
  - intros ph W. unfold requiredMonthlyHours, publicHolidayHours, hoursPerDay.
    rewrite !weekday_filter, filter_cons_False by congruence.
    split; [simpl length; lia | reflexivity].
  - intros ph W. unfold requiredMonthlyHours, publicHolidayHours, hoursPerDay.
    rewrite !weekday_filter, filter_cons_True by exact W.
    split; simpl length; lia.
Qed.

(** The theorem at May 2024 with a public holiday on Saturday 4 May: it
    lowers the required hours and not the public-holiday hours. *)
Lemma monthStats_formulas_witness :
  requiredMonthlyHours 2024 5
    [{| PublicHoliday.holiday_date := 19847; PublicHoliday.name := "Saturday" |}]
  = requiredMonthlyHours 2024 5 [] - 8
  /\ publicHolidayHours
       [{| PublicHoliday.holiday_date := 19847; PublicHoliday.name := "Saturday" |}]
     = publicHolidayHours [].
Proof.
  destruct (monthStats_formulas 2024 5 0 0 [])
    as (_ & _ & _ & _ & _ & _ & _ & _ & _ & Weekend & _).
  apply Weekend. reflexivity.
Defined.



End Claims_MonthlyStats.

(** ** Month and year of the grouping views *)

Module Claims_MonthQuery.
Import CalendarMath MonthQuery CalendarFacts.

(** A query for month 0, sent on 3 November 2026 (day 20760): the view
    shows November, and the nearest month to 0 is 1. *)
Lemma month_zero_is_current_month :
  days_from_civil 2026 11 3 = 20760
  /\ month_of_query (Num 0) 20760 = 11
  /\ nearest_in 1 12 0 = 1
  /\ month_of_query (Num 0) 20760 <> nearest_in 1 12 0.
Proof. repeat split. discriminate. Qed.

(** C9, as the views have it.  Month and year never make a grouping view
    fail: the month used is always in 1..12 and the year in 2020..2030.
    An integer other than 0 is clamped to the nearest value of the range.
    A zero, like a value that is no number, is first replaced by the
    current month or year; the current year is then clamped. *)
Theorem query_month_year_clamped (parsedMonth parsedYear : JsNumber)
    (today : Z) :
  1 <= month_of_query parsedMonth today <= 12
  /\ 2020 <= year_of_query parsedYear today <= 2030
  /\ (forall z, z <> 0 ->
        month_of_query (Num z) today = nearest_in 1 12 z
        /\ year_of_query (Num z) today = nearest_in 2020 2030 z)
  /\ (forall n, n = NaN \/ n = Num 0 ->
        month_of_query n today = getMonth1 today
        /\ year_of_query n today = nearest_in 2020 2030 (getFullYear today)).
Proof.
  assert (Hnear : forall lo hi z, lo <= hi ->
            Z.max lo (Z.min hi z) = nearest_in lo hi z).
  { intros lo hi z L. unfold nearest_in.
    destruct (Z.ltb_spec z lo); [lia | ].
    destruct (Z.ltb_spec hi z); lia. }
  pose proof (civil_ranges today) as [Hm _].
  repeat match goal with |- _ /\ _ => split end;
    try (unfold month_of_query, year_of_query; lia).
  - intros z Hz. unfold month_of_query, year_of_query, or_else.
    apply Z.eqb_neq in Hz. rewrite Hz.
    split; apply Hnear; lia.
  - intros n [-> | ->]; unfold month_of_query, year_of_query, or_else; simpl;
      (split; [lia | apply Hnear; lia]).
Qed.

(** The theorem at month 13 and year 1999. *)
Lemma query_month_year_clamped_witness :
  month_of_query (Num 13) 20760 = 12 /\ year_of_query (Num 1999) 20760 = 2020.
Proof.
  destruct (query_month_year_clamped NaN NaN 20760) as (_ & _ & Clamp & _).
  split.
  - destruct (Clamp 13) as [M _]; [lia | exact M].
  - destruct (Clamp 1999) as [_ Y]; [lia | exact Y].
Defined.

End Claims_MonthQuery.

(** ** Objects keyed by integers, and the sort *)

Module JsFacts.
Import Js.

Section Objects.
Context {V : Type}.
Implicit Types (o : list (N * V)) (k : N) (v : V).

Lemma obj_get_set_eq k v o : obj_get k (obj_set k v o) = Some v.
Proof.
  induction o as [ | [k' v'] o IH]; simpl.
  - now rewrite N.eqb_refl.
  - destruct (N.ltb_spec k k'); simpl; [now rewrite N.eqb_refl | ].
    destruct (N.eqb_spec k k') as [-> | NE]; simpl.
    + now rewrite N.eqb_refl.
    + apply N.eqb_neq in NE. now rewrite NE.
Qed.

Lemma obj_get_set_ne k k0 v o :
  k <> k0 -> obj_get k0 (obj_set k v o) = obj_get k0 o.
Proof.
  intros NE. induction o as [ | [k' v'] o IH]; simpl.
  - destruct (N.eqb_spec k0 k); congruence.
  - destruct (N.ltb_spec k k'); simpl.
    + destruct (N.eqb_spec k0 k); congruence.
    + destruct (N.eqb_spec k k') as [-> | NE']; simpl.
      * destruct (N.eqb_spec k0 k'); congruence.
      * now rewrite IH.
Qed.

Lemma obj_get_key k v o : obj_get k o = Some v -> (k, v) ∈ o.
Proof.
  induction o as [ | [k' v'] o IH]; simpl; [discriminate | ].
  destruct (N.eqb_spec k k') as [-> | NE].
  - intros [= ->]. left.
  - intros G. right. now apply IH.
Qed.

Lemma obj_set_keys k v o (k0 : N) :
  k0 ∈ map fst (obj_set k v o) <-> k0 = k \/ k0 ∈ map fst o.
Proof.
  induction o as [ | [k' v'] o IH]; simpl.
  - rewrite list_elem_of_singleton, elem_of_nil. tauto.
  - destruct (N.ltb_spec k k'); simpl.
    + rewrite !elem_of_cons. tauto.
    + destruct (N.eqb_spec k k') as [-> | NE]; simpl.
      * rewrite !elem_of_cons. tauto.
      * rewrite !elem_of_cons, IH. tauto.
Qed.

(** The keys stay in ascending order, each of them once. *)
Lemma obj_set_sorted k v o :
  StronglySorted N.lt (map fst o) ->
  StronglySorted N.lt (map fst (obj_set k v o)).
Proof.
  induction o as [ | [k' v'] o IH]; simpl; intros S.
  - repeat constructor.
  - apply StronglySorted_inv in S as [S F].
    destruct (N.ltb_spec k k'); simpl.
    + constructor; [now constructor | ].
      constructor; [exact H | ].
      eapply Forall_impl; [exact F | ]. cbv beta. intros; lia.
    + destruct (N.eqb_spec k k') as [-> | NE]; simpl.
      * now constructor.
      * constructor; [now apply IH | ].
        apply Forall_forall. intros k0 I. apply obj_set_keys in I as [-> | I].
        -- lia.
        -- rewrite Forall_forall in F. now apply F.
Qed.

(** Writing to a key that the object has changes that entry in place. *)
Lemma obj_set_present k v v' o :
  StronglySorted N.lt (map fst o) ->
  obj_get k o = Some v ->
  obj_set k v' o
  = map (fun entry => if (entry.1 =? k)%N then (k, v') else entry) o.
Proof.
  induction o as [ | [k' v0] o IH]; simpl; intros S G; [discriminate | ].
  apply StronglySorted_inv in S as [S F]. rewrite Forall_forall in F.
  destruct (N.eqb_spec k k') as [-> | NE].
  - rewrite N.ltb_irrefl, N.eqb_refl. f_equal.
    rewrite <- (map_id o) at 1. apply map_ext_in. intros [k0 v1] I.
    simpl. destruct (N.eqb_spec k0 k') as [-> | ]; [ | reflexivity].
    assert (k' < k')%N; [ | lia].
    apply F, list_elem_of_fmap. exists (k', v1). split; [reflexivity | ].
    now apply list_elem_of_In.
  - pose proof (obj_get_key _ _ _ G) as I.
    assert (k' < k)%N.
    { apply F, list_elem_of_fmap. now exists (k, v). }
    destruct (N.ltb_spec k k'); [lia | ].
    destruct (N.eqb_spec k' k); [lia | ].
    f_equal. now apply IH.
Qed.

End Objects.

Section Sort.
Context {A : Type} (comparefn : A -> A -> Z).

Lemma sort_insert_perm (x : A) (l : list A) :
  sort_insert comparefn x l ≡ₚ x :: l.
Proof.
  induction l as [ | y l IH]; simpl; [reflexivity | ].
  destruct (comparefn x y <=? 0); [reflexivity | ].
  rewrite IH. apply Permutation_swap.
Qed.

(** The sort keeps the elements. *)
Lemma Array_sort_perm (l : list A) : Array_sort comparefn l ≡ₚ l.
Proof.
  induction l as [ | x l IH]; simpl; [reflexivity | ].
  rewrite sort_insert_perm. now constructor.
Qed.

(** When [before] holds of every pair that the comparison puts in that
    order, and of the swapped pair otherwise, the result is in order. *)
Lemma sort_insert_sorted (before : A -> A -> Prop) (x : A) (l : list A) :
  (forall a b, comparefn a b <= 0 -> before a b) ->
  (forall a b, 0 < comparefn a b -> before b a) ->
  (forall a b c, comparefn a b <= 0 -> before b c -> before a c) ->
  StronglySorted before l ->
  StronglySorted before (sort_insert comparefn x l).
Proof.
  intros Hle Hgt Htrans.
  induction l as [ | y l IH]; simpl; intros S.
  - repeat constructor.
  - apply StronglySorted_inv in S as [S F].
    destruct (Z.leb_spec (comparefn x y) 0) as [L | G].
    + constructor; [now constructor | ].
      constructor; [now apply Hle | ].
      eapply Forall_impl; [exact F | ]. cbv beta.
      intros c Byc. now apply (Htrans x y c).
    + constructor; [now apply IH | ].
      rewrite sort_insert_perm. constructor; [now apply Hgt | exact F].
Qed.

Lemma Array_sort_sorted (before : A -> A -> Prop) (l : list A) :
  (forall a b, comparefn a b <= 0 -> before a b) ->
  (forall a b, 0 < comparefn a b -> before b a) ->
  (forall a b c, comparefn a b <= 0 -> before b c -> before a c) ->
  StronglySorted before (Array_sort comparefn l).
Proof.
  intros Hle Hgt Htrans.
  induction l as [ | x l IH]; simpl; [constructor | ].
  now apply sort_insert_sorted.
Qed.

End Sort.

End JsFacts.

(** ** The by-person view *)

Module ByPersonFacts.
Import CalendarMath Js MonthQuery ByPerson CalendarFacts JsFacts.

(** Every month from 2020 to 2030 passes the check, by running it. *)
Lemma supported_months_read_back (year month : Z) :
  2020 <= year <= 2030 -> 1 <= month <= 12 ->
  month_reads_back year month = true.
Proof.
  intros Hy Hm.
  assert (Ey : exists i : nat, year = 2020 + Z.of_nat i /\ (i < 11)%nat)
    by (exists (Z.to_nat (year - 2020)); lia).
  assert (Em : exists j : nat, month = 1 + Z.of_nat j /\ (j < 12)%nat)
    by (exists (Z.to_nat (month - 1)); lia).
  destruct Ey as (i & -> & Hi). destruct Em as (j & -> & Hj).
  do 11 (destruct i as [ | i];
         [do 12 (destruct j as [ | j]; [vm_compute; reflexivity | ]); lia | ]).
  lia.
Qed.

Lemma daysInMonth_loop_more_fuel (fuel extra : nat) (month : Z) :
  forall (date : Z) (acc r : list string),
    daysInMonth_loop fuel month date acc = Some r ->
    daysInMonth_loop (fuel + extra) month date acc = Some r.
Proof.
  induction fuel as [ | fuel IH]; intros date acc r; simpl.
  - destruct (getMonth1 date =? month) eqn:E; [discriminate | ].
    intros [= <-]. destruct extra; simpl; now rewrite E.
  - destruct (getMonth1 date =? month); [apply IH | easy].
Qed.

Section SupportedMonth.
Variables year month : Z.
Hypothesis year_supported : 2020 <= year <= 2030.
Hypothesis month_supported : 1 <= month <= 12.

Lemma daysInMonth_fuel_enough (extra : nat) :
  daysInMonth_fuel (32 + extra) year month
  = Some (map formatDate (month_days year month)).
Proof.
  pose proof (supported_months_read_back year month year_supported
                month_supported) as C.
  unfold month_reads_back in C. apply andb_prop in C as [C _].
  apply bool_decide_eq_true_1 in C.
  now apply daysInMonth_loop_more_fuel.
Qed.

Lemma allDaysInMonth_month_days :
  allDaysInMonth year month = map formatDate (month_days year month).
Proof.
  unfold allDaysInMonth.
  pose proof (daysInMonth_fuel_enough 0) as E. simpl in E. now rewrite E.
Qed.

Lemma month_day_reads_back (d : Z) :
  d ∈ month_days year month ->
  new_Date (formatDate d) = Day d
  /\ split0 "T" (formatDate d) = formatDate d.
Proof.
  intros I.
  pose proof (supported_months_read_back year month year_supported
                month_supported) as C.
  unfold month_reads_back in C. apply andb_prop in C as [_ C].
  rewrite forallb_forall in C.
  specialize (C d ltac:(now apply list_elem_of_In)).
  apply andb_prop in C as [C1 C2]. split.
  - destruct (new_Date (formatDate d)) as [ | n]; [discriminate | ].
    apply Z.eqb_eq in C1. now subst.
  - now apply String.eqb_eq.
Qed.

End SupportedMonth.

(** The holidays of a user, as the index by user gives them. *)
Lemma holidaysByUser_lookup (allHolidays : list Holiday.t) (uid : N) :
  default [] (holidaysByUser allHolidays !! uid)
  = filter (fun h => Holiday.user_id h = uid) allHolidays.
Proof.
  unfold holidaysByUser.
  enough (G : forall acc : gmap N (list Holiday.t),
    default [] (foldl (fun acc holiday =>
        let uid := Holiday.user_id holiday in
        <[uid := default [] (acc !! uid) ++ [holiday]]> acc) acc allHolidays
      !! uid)
    = default [] (acc !! uid)
      ++ filter (fun h => Holiday.user_id h = uid) allHolidays).
  { rewrite G, lookup_empty. reflexivity. }
  induction allHolidays as [ | h rest IH]; intros acc; simpl.
  - rewrite ?filter_nil. now rewrite app_nil_r.
  - rewrite IH, filter_cons.
    destruct (decide (Holiday.user_id h = uid)) as [-> | NE].
    + rewrite lookup_insert_eq. simpl. now rewrite <- app_assoc.
    + now rewrite lookup_insert_ne.
Qed.

(** The location of a user on a date is the one declared last. *)
Lemma workLocationsByUser_lookup (allWorkLocations : list WorkLocation.t)
    (uid : N) (key : string) :
  default ∅ (workLocationsByUser allWorkLocations !! uid) !! key
  = WorkLocation.is_onsite
    <$> last (filter (fun l => WorkLocation.user_id l = uid
                               /\ formatDate (WorkLocation.work_date l) = key)
                     allWorkLocations).
Proof.
  unfold workLocationsByUser.
  enough (G : forall acc : gmap N (gmap string (option bool)),
    default ∅ (foldl (fun acc location =>
        let uid := WorkLocation.user_id location in
        <[uid := <[formatDate (WorkLocation.work_date location) :=
                     WorkLocation.is_onsite location]>
                 (default ∅ (acc !! uid))]> acc) acc allWorkLocations
      !! uid) !! key
    = match last (filter (fun l => WorkLocation.user_id l = uid
                          /\ formatDate (WorkLocation.work_date l) = key)
                    allWorkLocations) with
      | Some l => Some (WorkLocation.is_onsite l)
      | None => default ∅ (acc !! uid) !! key
      end).
  { rewrite G, lookup_empty. simpl. rewrite lookup_empty.
    now destruct (last _). }
  induction allWorkLocations as [ | l rest IH]; intros acc; simpl.
  - rewrite ?filter_nil. reflexivity.
  - rewrite IH, filter_cons.
    destruct (decide (WorkLocation.user_id l = uid
                      /\ formatDate (WorkLocation.work_date l) = key))
      as [[-> <-] | NE].
    + rewrite last_cons. destruct (last (filter _ rest)); [reflexivity | ].
      rewrite lookup_insert_eq. simpl. now rewrite lookup_insert_eq.
    + destruct (last (filter _ rest)); [reflexivity | ].
      destruct (decide (WorkLocation.user_id l = uid)) as [EU | NU].
      * rewrite EU, lookup_insert_eq. simpl.
        rewrite lookup_insert_ne; [easy | ].
        intros E. apply NE. now split.
      * now rewrite lookup_insert_ne.
Qed.

(** The entry of a date in the public-holiday map is the name of the last
    public holiday on that date. *)
Lemma publicHolidaysMap_lookup (publicHolidaysRaw : list PublicHoliday.t)
    (key : string) :
  publicHolidaysMap publicHolidaysRaw !! key
  = PublicHoliday.name
    <$> last (filter (fun ph => formatDate (PublicHoliday.holiday_date ph) = key)
                     publicHolidaysRaw).
Proof.
  unfold publicHolidaysMap.
  enough (G : forall acc : gmap string string,
    foldl (fun acc ph =>
             <[formatDate (PublicHoliday.holiday_date ph) :=
                 PublicHoliday.name ph]> acc) acc publicHolidaysRaw !! key
    = match last (filter (fun ph =>
                formatDate (PublicHoliday.holiday_date ph) = key)
              publicHolidaysRaw) with
      | Some ph => Some (PublicHoliday.name ph)
      | None => acc !! key
      end).
  { rewrite G, lookup_empty. now destruct (last _). }
  induction publicHolidaysRaw as [ | ph rest IH]; intros acc; simpl.
  - rewrite ?filter_nil. reflexivity.
  - rewrite IH, filter_cons.
    destruct (decide (formatDate (PublicHoliday.holiday_date ph) = key))
      as [<- | NE].
    + rewrite last_cons. destruct (last (filter _ rest)); [reflexivity | ].
      now rewrite lookup_insert_eq.
    + destruct (last (filter _ rest)); [reflexivity | ].
      now rewrite lookup_insert_ne.
Qed.

Lemma filter_fmap_comm {A B} (f : A -> B) (P : B -> Prop)
    `{forall y, Decision (P y)} (l : list A) :
  filter P (map f l) = map f (filter (fun x => P (f x)) l).
Proof.
  induction l as [ | x l IH]; [reflexivity | ].
  simpl. rewrite !filter_cons, IH. now destruct (decide (P (f x))).
Qed.

Lemma filter_ext_elem {A} (P Q : A -> Prop) `{forall x, Decision (P x)}
    `{forall x, Decision (Q x)} (l : list A) :
  (forall x, x ∈ l -> P x <-> Q x) -> filter P l = filter Q l.
Proof.
  induction l as [ | x l IH]; intros E; [reflexivity | ].
  rewrite !filter_cons, IH by (intros y I; apply E; now right).
  destruct (decide (P x)) as [p | np], (decide (Q x)) as [q | nq];
    try reflexivity; exfalso.
  - apply nq, (E x); [left | exact p].
  - apply np, (E x); [left | exact q].
Qed.

(** The test of the loop on a formatted day that reads back as itself. *)
Lemma counts_as_remote_day (publicHolidaysRaw : list PublicHoliday.t)
    (allHolidays : list Holiday.t) (allWorkLocations : list WorkLocation.t)
    (user : User.t) (d : Z) :
  new_Date (formatDate d) = Day d ->
  split0 "T" (formatDate d) = formatDate d ->
  counts_as_remote (publicHolidaysMap publicHolidaysRaw)
    (holidayDates_of (holidaysByUser allHolidays) user)
    (default ∅ (workLocationsByUser allWorkLocations !! User.id user))
    (formatDate d) = true
  <-> counted_remote_day publicHolidaysRaw allHolidays allWorkLocations user d.
Proof.
  intros Hparse Hkey.
  unfold counts_as_remote, counted_remote_day.
  rewrite Hkey, Hparse, HandlerFacts.weekend_test.
  rewrite !andb_true_iff, !negb_true_iff, !bool_decide_eq_false,
    bool_decide_eq_true.
  assert (Eloc :
    default ∅ (workLocationsByUser allWorkLocations !! User.id user)
      !! formatDate d
    = declared_location allWorkLocations (User.id user) d).
  { rewrite workLocationsByUser_lookup. unfold declared_location.
    do 2 f_equal. apply list_filter_iff. intros l.
    split; intros [U D]; (split; [exact U | ]);
      [now apply formatDate_inj | now rewrite D]. }
  assert (Eph :
    truthy (publicHolidaysMap publicHolidaysRaw !! formatDate d)
    = public_holiday_name publicHolidaysRaw d).
  { rewrite publicHolidaysMap_lookup. unfold public_holiday_name.
    do 3 f_equal. apply list_filter_iff. intros ph.
    split; [apply formatDate_inj | now intros ->]. }
  assert (Ehol :
    formatDate d ∈ holidayDates_of (holidaysByUser allHolidays) user
    <-> exists h, h ∈ allHolidays /\ Holiday.user_id h = User.id user
                  /\ Holiday.holiday_date h = d).
  { unfold holidayDates_of.
    rewrite holidaysByUser_lookup, list_elem_of_fmap.
    split.
    - intros (h & E & I). apply list_elem_of_filter in I as [U I].
      exists h. repeat split; [exact I | exact U | ].
      symmetry. now apply formatDate_inj.
    - intros (h & I & U & D). exists h. split; [now rewrite D | ].
      apply list_elem_of_filter. now split. }
  rewrite Eloc, Eph, Ehol.
  destruct (public_holiday_name publicHolidaysRaw d) as [n | ].
  - split; [intros [[[_ _] N] _]; exfalso; apply N; now exists n | ].
    intros (_ & _ & [=] & _).
  - split.
    + intros [[[L W] _] H]. repeat split; assumption.
    + intros (L & W & _ & H). repeat split; try assumption.
      intros [n [=]].
Qed.

Section SupportedMonthDays.
Variables year month : Z.
Hypothesis year_supported : 2020 <= year <= 2030.
Hypothesis month_supported : 1 <= month <= 12.

(** The remote dates of a user are the formatted days of the month that
    the view counts as remote work. *)
Lemma remoteDates_of_month (publicHolidaysRaw : list PublicHoliday.t)
    (allHolidays : list Holiday.t) (allWorkLocations : list WorkLocation.t)
    (user : User.t) :
  remoteDates_of (publicHolidaysMap publicHolidaysRaw)
    (holidaysByUser allHolidays) (workLocationsByUser allWorkLocations)
    (allDaysInMonth year month) user
  = map formatDate
      (filter (counted_remote_day publicHolidaysRaw allHolidays
                 allWorkLocations user)
              (month_days year month)).
Proof.
  unfold remoteDates_of.
  rewrite (allDaysInMonth_month_days year month) by assumption.
  rewrite filter_fmap_comm. f_equal.
  apply filter_ext_elem. intros d I.
  destruct (month_day_reads_back year month year_supported month_supported
              d I) as [Hparse Hkey].
  now apply counts_as_remote_day.
Qed.

End SupportedMonthDays.

(** *** The group map *)

Lemma sorted_keys_unique {V} (o : list (N * V)) (k : N) (v : V) :
  StronglySorted N.lt (map fst o) -> (k, v) ∈ o -> obj_get k o = Some v.
Proof.
  induction o as [ | [k' v'] o IH]; simpl; intros S I.
  - now apply elem_of_nil in I.
  - apply StronglySorted_inv in S as [S F]. rewrite Forall_forall in F.
    apply elem_of_cons in I as [[= -> ->] | I].
    + now rewrite N.eqb_refl.
    + destruct (N.eqb_spec k k') as [-> | NE]; [ | now apply IH].
      assert (k' < k')%N; [ | lia].
      apply F, list_elem_of_fmap. now exists (k', v).
Qed.

(** Adding an employee to a group that the map has. *)
Lemma push_employee_present (groupMap : list (N * GroupEntry)) (user : User.t)
    (e : Employee) (groupMap' : list (N * GroupEntry)) :
  StronglySorted N.lt (map fst groupMap) ->
  push_employee groupMap user e = Some groupMap' ->
  groupMap'
  = map (fun entry =>
           if (entry.1 =? groupId_of user)%N
           then (entry.1, {| id := id entry.2; name := name entry.2;
                             employees := employees entry.2 ++ [e] |})
           else entry) groupMap.
Proof.
  intros S. unfold push_employee.
  destruct (obj_get (groupId_of user) groupMap) as [g | ] eqn:G;
    [ | discriminate].
  intros [= <-]. rewrite (obj_set_present _ g) by assumption.
  apply map_ext_in. intros [k g0] I. simpl.
  destruct (N.eqb_spec k (groupId_of user)) as [-> | ]; [ | reflexivity].
  apply list_elem_of_In, (sorted_keys_unique _ _ _ S) in I.
  rewrite G in I. now injection I as ->.
Qed.

(** The users are added to the entries of their groups, in their order. *)
Lemma process_users_members (data : User.t -> Employee)
    (allUsers : list User.t) :
  forall groupMap groupMap',
    StronglySorted N.lt (map fst groupMap) ->
    process_users data allUsers groupMap = Some groupMap' ->
    groupMap' = map (with_members data allUsers) groupMap.
Proof.
  induction allUsers as [ | u rest IH]; intros gm gm' S; simpl.
  - intros [= <-]. rewrite <- (map_id gm) at 1. apply map_ext.
    intros [k [i n es]]. unfold with_members. simpl.
    rewrite ?filter_nil. simpl. now rewrite app_nil_r.
  - destruct (included (data u)) eqn:Inc.
    + destruct (push_employee gm u (data u)) as [gm1 | ] eqn:P;
        [ | discriminate].
      intros E. apply push_employee_present in P; [ | exact S].
      apply IH in E.
      2: { rewrite P, map_map.
           erewrite map_ext; [exact S | ].
           intros [k g]. simpl. now destruct (k =? groupId_of u)%N. }
      rewrite E, P, map_map. apply map_ext. intros [k g].
      unfold with_members. simpl. rewrite filter_cons.
      destruct (N.eqb_spec k (groupId_of u)) as [-> | NE]; simpl.
      * rewrite decide_True by now split.
        simpl. now rewrite <- app_assoc.
      * rewrite decide_False; [reflexivity | ].
        intros [_ G]. now apply NE.
    + intros E. apply IH in E; [ | exact S].
      rewrite E. apply map_ext. intros [k g].
      unfold with_members. simpl. rewrite filter_cons.
      rewrite decide_False; [reflexivity | ]. intros [I _]. congruence.
Qed.

(** The run fails only on an included user whose group is not in the
    map. *)
Lemma process_users_runs (data : User.t -> Employee) (allUsers : list User.t) :
  forall groupMap,
    StronglySorted N.lt (map fst groupMap) ->
    (forall u, u ∈ allUsers -> included (data u) = true ->
               groupId_of u ∈ map fst groupMap) ->
    is_Some (process_users data allUsers groupMap).
Proof.
  induction allUsers as [ | u rest IH]; intros gm S H; simpl; [eauto | ].
  destruct (included (data u)) eqn:Inc.
  - assert (G : is_Some (obj_get (groupId_of u) gm)).
    { specialize (H u ltac:(left) Inc).
      apply list_elem_of_fmap in H as ([k g] & E & I). simpl in E. subst k.
      exists g. now apply sorted_keys_unique. }
    destruct G as [g G].
    destruct (push_employee gm u (data u)) as [gm1 | ] eqn:P.
    2: { unfold push_employee in P. rewrite G in P. discriminate. }
    pose proof (push_employee_present _ _ _ _ S P) as E.
    assert (K : map fst gm1 = map fst gm).
    { rewrite E, map_map. apply map_ext. intros [k g0]. simpl.
      now destruct (k =? groupId_of u)%N. }
    apply IH.
    + now rewrite K.
    + intros u' I' Inc'. rewrite K. apply H; [now right | exact Inc'].
  - apply IH; [exact S | ]. intros u' I' Inc'. apply H; [now right | exact Inc'].
Qed.

(** The map at the start has the key 0 and the ids of the groups, in
    ascending order, each entry empty and under its own id. *)
Lemma initial_groupMap_spec (allGroups : list Group.t) :
  let groupMap := initial_groupMap allGroups in
  StronglySorted N.lt (map fst groupMap)
  /\ (forall k, k ∈ map fst groupMap <->
                k = 0%N \/ exists group, group ∈ allGroups
                                        /\ Group.id group = k)
  /\ (forall k g, (k, g) ∈ groupMap ->
        id g = k /\ employees g = []
        /\ (k = 0%N -> name g = "Bez grupy")
        /\ (k <> 0%N -> exists group, group ∈ allGroups
                                     /\ Group.id group = k
                                     /\ Group.name group = name g)).
Proof.
  cbv zeta. unfold initial_groupMap.
  set (step := fun acc group =>
         obj_set (Group.id group)
           {| id := Group.id group; name := Group.name group;
              employees := [] |} acc).
  assert (Inv : forall (groups : list Group.t) (acc : list (N * GroupEntry)),
    StronglySorted N.lt (map fst acc) ->
    StronglySorted N.lt (map fst (foldl step acc groups))
    /\ (forall k, k ∈ map fst (foldl step acc groups) <->
                  k ∈ map fst acc
                  \/ exists group, group ∈ groups /\ Group.id group = k)
    /\ (forall k g, (k, g) ∈ foldl step acc groups ->
          (k, g) ∈ acc
          \/ (id g = k /\ employees g = []
              /\ exists group, group ∈ groups /\ Group.id group = k
                               /\ Group.name group = name g))).
  { induction groups as [ | grp rest IH]; intros acc S; simpl.
    - split; [exact S | split].
      + intros k. split; [now left | ].
        intros [I | (g0 & I & _)]; [exact I | now apply elem_of_nil in I].
      + intros k g I. now left.
    - destruct (IH (step acc grp)) as (S' & K' & E');
        [now apply obj_set_sorted | ].
      split; [exact S' | split].
      + intros k. rewrite K'. unfold step at 1. rewrite obj_set_keys.
        split.
        * intros [[-> | I] | (g0 & I & E)].
          -- right. exists grp. split; [left | reflexivity].
          -- now left.
          -- right. exists g0. split; [now right | exact E].
        * intros [I | (g0 & I & E)]; [left; now right | ].
          apply elem_of_cons in I as [-> | I]; [left; now left | ].
          right. now exists g0.
      + intros k g I. apply E' in I as [I | (Ei & Ee & g0 & I & Eg & En)].
        * apply sorted_keys_unique in I; [ | now apply obj_set_sorted].
          unfold step in I.
          destruct (decide (k = Group.id grp)) as [-> | NE].
          -- rewrite obj_get_set_eq in I. injection I as <-. right. simpl.
             split; [reflexivity | split; [reflexivity | ]].
             exists grp. split; [left | now split].
          -- left. rewrite obj_get_set_ne in I by congruence.
             now apply obj_get_key.
        * right. split; [exact Ei | split; [exact Ee | ]].
          exists g0. split; [now right | now split]. }
  destruct (Inv allGroups [] ltac:(constructor)) as (S & K & E).
  assert (S0 : StronglySorted N.lt
                 (map fst (obj_set 0%N
                    {| id := 0%N; name := "Bez grupy"; employees := [] |}
                    (foldl step [] allGroups))))
    by now apply obj_set_sorted.
  split; [exact S0 | split].
  - intros k. rewrite obj_set_keys, K. split.
    + intros [-> | [I | I]];
        [now left | now apply elem_of_nil in I | now right].
    + intros [-> | I]; [now left | right; now right].
  - intros k g I. apply sorted_keys_unique in I; [ | exact S0].
    destruct (decide (k = 0%N)) as [-> | NE].
    + rewrite obj_get_set_eq in I. injection I as <-. simpl.
      split; [reflexivity | split; [reflexivity | split; [reflexivity | ]]].
      intros N. congruence.
    + rewrite obj_get_set_ne in I by congruence.
      apply obj_get_key, E in I as [I | (Ei & Ee & g0 & I & Eg & En)];
        [now apply elem_of_nil in I | ].
      split; [exact Ei | split; [exact Ee | split; [congruence | ]]].
      intros _. now exists g0.
Qed.

(** *** The sorted groups and the counters *)

Section SortedGroups.
Variable localeCompare : string -> string -> Z.
Hypothesis localeCompare_total :
  forall a b, 0 < localeCompare a b -> localeCompare b a <= 0.
Hypothesis localeCompare_trans :
  forall a b c,
    localeCompare a b <= 0 -> localeCompare b c <= 0 -> localeCompare a c <= 0.

Lemma compare_groups_le (a b : GroupEntry) :
  compare_groups localeCompare a b <= 0 ->
  id a <> 0%N /\ (id b = 0%N \/ localeCompare (name a) (name b) <= 0).
Proof.
  unfold compare_groups.
  destruct (N.eqb_spec (id a) 0); [lia | ].
  destruct (N.eqb_spec (id b) 0); [now split; [ | left] | ].
  intros L. split; [assumption | now right].
Qed.

Lemma sort_groups_sorted (groupMap : list (N * GroupEntry)) :
  StronglySorted (groups_in_order localeCompare)
    (sort_groups localeCompare groupMap).
Proof.
  unfold sort_groups. apply Array_sort_sorted.
  - intros a b L. apply compare_groups_le in L as [Na [Zb | L]].
    + now left.
    + destruct (decide (id b = 0%N)); [now left | right; now repeat split].
  - intros a b G. unfold compare_groups in G. unfold groups_in_order.
    destruct (N.eqb_spec (id a) 0) as [Za | Na]; [now left | ].
    destruct (N.eqb_spec (id b) 0) as [Zb | Nb]; [lia | ].
    right. repeat split; [assumption .. | now apply localeCompare_total].
  - intros a b c L [Zc | (Nb & Nc & Lbc)]; [now left | ].
    apply compare_groups_le in L as [Na [Zb | L]]; [contradiction | ].
    right. repeat split; [assumption .. | ].
    now apply (localeCompare_trans _ (name b)).
Qed.

End SortedGroups.

Lemma sort_groups_perm (localeCompare : string -> string -> Z)
    (groupMap : list (N * GroupEntry)) :
  sort_groups localeCompare groupMap
  ≡ₚ filter (fun group => (0 < length (employees group))%nat)
            (Object_values groupMap).
Proof. unfold sort_groups. apply Array_sort_perm. Qed.

(** In a list in that order with distinct ids, the entry 0 is the last. *)
Lemma entry_zero_last (localeCompare : string -> string -> Z)
    (groups : list GroupEntry) (g : GroupEntry) :
  StronglySorted (groups_in_order localeCompare) groups ->
  NoDup (map id groups) ->
  g ∈ groups -> id g = 0%N -> last groups = Some g.
Proof.
  induction 1 as [ | x rest S IH F]; intros ND I Z.
  - now apply elem_of_nil in I.
  - simpl in ND. apply NoDup_cons in ND as [NI ND].
    destruct rest as [ | y rest']; [apply elem_of_cons in I as [-> | I];
      [reflexivity | now apply elem_of_nil in I] | ].
    rewrite last_cons_cons.
    apply elem_of_cons in I as [-> | I]; [ | now apply IH].
    exfalso. apply NI. apply Forall_inv in F.
    destruct F as [Zy | (Nx & _)]; [ | contradiction].
    simpl. rewrite Z, <- Zy. left.
Qed.

Lemma count_employees_length (p : Employee -> bool) (groups : list GroupEntry) :
  count_employees p groups
  = length (filter (fun e => p e = true) (mjoin (map employees groups))).
Proof.
  unfold count_employees.
  assert (Inner : forall (es : list Employee) (n : nat),
    foldl (fun n e => if p e then S n else n) n es
    = (n + length (filter (fun e => p e = true) es))%nat).
  { induction es as [ | e es IH]; intros n; simpl; [lia | ].
    rewrite IH, filter_cons. destruct (p e) eqn:E.
    - rewrite decide_True by reflexivity. simpl. lia.
    - rewrite decide_False by discriminate. reflexivity. }
  enough (G : forall n,
    foldl (fun n group =>
             foldl (fun n e => if p e then S n else n) n (employees group))
          n groups
    = (n + length (filter (fun e => p e = true)
                          (mjoin (map employees groups))))%nat)
    by apply (G O).
  induction groups as [ | g groups IH]; intros n; simpl; [lia | ].
  rewrite IH, Inner, filter_app, length_app. lia.
Qed.

Lemma query_month_year_in_range (parsedMonth parsedYear : JsNumber)
    (today : Z) :
  1 <= month_of_query parsedMonth today <= 12
  /\ 2020 <= year_of_query parsedYear today <= 2030.
Proof. unfold month_of_query, year_of_query. lia. Qed.

(** *** The view as a whole *)

Lemma process_users_groups_present (data : User.t -> Employee)
    (allUsers : list User.t) :
  forall groupMap groupMap',
    StronglySorted N.lt (map fst groupMap) ->
    process_users data allUsers groupMap = Some groupMap' ->
    forall u, u ∈ allUsers -> included (data u) = true ->
              is_Some (obj_get (groupId_of u) groupMap).
Proof.
  induction allUsers as [ | u0 rest IH]; intros gm gm' S E u I Inc.
  - now apply elem_of_nil in I.
  - simpl in E. destruct (included (data u0)) eqn:Inc0.
    + destruct (push_employee gm u0 (data u0)) as [gm1 | ] eqn:P;
        [ | discriminate].
      pose proof (push_employee_present _ _ _ _ S P) as E1.
      assert (K : map fst gm1 = map fst gm).
      { rewrite E1, map_map. apply map_ext. intros [k g0]. simpl.
        now destruct (k =? groupId_of u0)%N. }
      apply elem_of_cons in I as [-> | I].
      * unfold push_employee in P.
        destruct (obj_get (groupId_of u0) gm); [eauto | discriminate].
      * assert (S1 : StronglySorted N.lt (map fst gm1)) by now rewrite K.
        destruct (IH gm1 gm' S1 E u I Inc) as [g G].
        apply obj_get_key in G.
        assert (Ik : groupId_of u ∈ map fst gm).
        { rewrite <- K. apply list_elem_of_fmap. now exists (groupId_of u, g). }
        apply list_elem_of_fmap in Ik as ([k g0] & Ek & Ig). simpl in Ek.
        subst k. exists g0. now apply sorted_keys_unique.
    + apply elem_of_cons in I as [-> | I]; [congruence | ].
      now apply (IH gm gm' S E).
Qed.

Section View.
Variable localeCompare : string -> string -> Z.
Variables (year month : Z) (allUsers : list User.t) (allGroups : list Group.t).
Variables (publicHolidaysRaw : list PublicHoliday.t).
Variables (allHolidays : list Holiday.t).
Variables (allWorkLocations : list WorkLocation.t).
Variable view : View.
Hypothesis rendered :
  groupByPerson localeCompare year month allUsers allGroups publicHolidaysRaw
    allHolidays allWorkLocations = Some view.

Let data : User.t -> Employee :=
  employeeData (publicHolidaysMap publicHolidaysRaw)
    (holidaysByUser allHolidays) (workLocationsByUser allWorkLocations)
    (allDaysInMonth year month).

Lemma view_groups :
  groupedEmployees view
  = sort_groups localeCompare
      (map (with_members data allUsers) (initial_groupMap allGroups))
  /\ totalEmployeesWithHolidays view
     = count_employees (fun e => (0 <? holidayCount e)%nat)
         (groupedEmployees view)
  /\ totalEmployeesWithRemoteWork view
     = count_employees (fun e => (0 <? remoteDaysCount e)%nat)
         (groupedEmployees view)
  /\ forall u, u ∈ allUsers -> included (data u) = true ->
               groupId_of u ∈ map fst (initial_groupMap allGroups).
Proof.
  pose proof rendered as R. unfold groupByPerson in R. fold data in R.
  destruct (initial_groupMap_spec allGroups) as (S & _ & _).
  destruct (process_users data allUsers (initial_groupMap allGroups))
    as [gm | ] eqn:P; [ | discriminate].
  pose proof (process_users_groups_present _ _ _ _ S P) as Present.
  apply process_users_members in P; [ | exact S].
  injection R as <-. cbn [groupedEmployees totalEmployeesWithHolidays
                          totalEmployeesWithRemoteWork].
  rewrite P. repeat split.
  intros u I Inc. destruct (Present u I Inc) as [g G].
  apply obj_get_key in G. apply list_elem_of_fmap. now exists (groupId_of u, g).
Qed.

(** The groups of the view: the entries of the map that have an employee. *)
Lemma view_group_elem (g : GroupEntry) :
  g ∈ groupedEmployees view
  <-> exists k g0,
        (k, g0) ∈ initial_groupMap allGroups
        /\ g = (with_members data allUsers (k, g0)).2
        /\ employees g <> [].
Proof.
  destruct view_groups as (E & _). rewrite E, sort_groups_perm.
  rewrite list_elem_of_filter. unfold Object_values.
  rewrite list_elem_of_fmap. split.
  - intros (L & [k g1] & -> & I). apply list_elem_of_fmap in I
      as ([k0 g0] & E1 & I).
    exists k0, g0. split; [exact I | ]. rewrite E1 in L |- *.
    split; [reflexivity | ].
    intros N. rewrite N in L. simpl in L. lia.
  - intros (k & g0 & I & -> & N). split.
    + destruct (employees _); [contradiction | simpl; lia].
    + exists (with_members data allUsers (k, g0)). split; [reflexivity | ].
      apply list_elem_of_fmap. now exists (k, g0).
Qed.

Lemma view_ids_distinct : NoDup (map id (groupedEmployees view)).
Proof.
  destruct view_groups as (E & _). rewrite E, sort_groups_perm.
  destruct (initial_groupMap_spec allGroups) as (S & _ & Entries).
  assert (Ids : map id (Object_values
                  (map (with_members data allUsers) (initial_groupMap allGroups)))
                = map fst (initial_groupMap allGroups)).
  { unfold Object_values. rewrite !map_map. apply map_ext_in.
    intros [k g0] I. simpl. apply list_elem_of_In in I.
    now destruct (Entries k g0 I) as (Ei & _). }
  apply (sublist_NoDup _ (map id (Object_values
           (map (with_members data allUsers) (initial_groupMap allGroups))))).
  - rewrite Ids. clear -S.
    induction S as [ | k ks S IH F]; constructor; [ | exact IH].
    intros I. rewrite Forall_forall in F. specialize (F k I). lia.
  - apply fmap_sublist, sublist_filter.
Qed.

End View.

Lemma StronglySorted_lookup {A} (R : A -> A -> Prop) (l : list A) :
  StronglySorted R l ->
  forall (i j : nat) (x y : A),
    (i < j)%nat -> l !! i = Some x -> l !! j = Some y -> R x y.
Proof.
  induction 1 as [ | a l S IH F]; intros i j x y L Hx Hy.
  - discriminate.
  - destruct j as [ | j]; [lia | ]. simpl in Hy.
    destruct i as [ | i]; simpl in Hx.
    + injection Hx as <-. rewrite Forall_forall in F. apply F.
      apply list_elem_of_lookup. now exists j.
    + apply (IH i j); [lia | assumption | assumption].
Qed.

(** The comparison by code points is a total preorder. *)
Lemma codepoint_compare_le (a b : string) :
  codepoint_compare a b <= 0 <-> String.le a b.
Proof.
  unfold codepoint_compare, String.le, String.leb.
  destruct (String.compare a b); simpl; split; intros H; try lia; try easy.
Qed.

Lemma codepoint_compare_total (a b : string) :
  0 < codepoint_compare a b -> codepoint_compare b a <= 0.
Proof.
  unfold codepoint_compare. rewrite (String.compare_antisym a b).
  destruct (String.compare b a); simpl; lia.
Qed.

Lemma codepoint_compare_trans (a b c : string) :
  codepoint_compare a b <= 0 -> codepoint_compare b c <= 0 ->
  codepoint_compare a c <= 0.
Proof.
  rewrite !codepoint_compare_le. intros H1 H2. now transitivity b.
Qed.

End ByPersonFacts.

Module Claims_ByPerson.
Import CalendarMath Js MonthQuery ByPerson.
Import CalendarFacts JsFacts ByPersonFacts.

(** The route renders the view of the records that it has read, for the
    month and year of the query. *)
Lemma by_person_renders (localeCompare : string -> string -> Z)
    (models : Models) (parsedMonth parsedYear : JsNumber) (today : Z)
    (view : View) :
  let year := year_of_query parsedYear today in
  let month := month_of_query parsedMonth today in
  by_person localeCompare models parsedMonth parsedYear today = Some view
  <-> exists allUsers allGroups publicHolidaysRaw allHolidays allWorkLocations,
        User_getAll models = Some allUsers
        /\ Group_findAll models = Some allGroups
        /\ PublicHoliday_findByMonthAndYear models month year
           = Some publicHolidaysRaw
        /\ Holiday_findAllByDateRange models
             (getMonthDateRange year month).1 (getMonthDateRange year month).2
           = Some allHolidays
        /\ WorkLocation_findAllByDateRange models
             (getMonthDateRange year month).1 (getMonthDateRange year month).2
           = Some allWorkLocations
        /\ groupByPerson localeCompare year month allUsers allGroups
             publicHolidaysRaw allHolidays allWorkLocations = Some view.
Proof.
  cbv zeta. unfold by_person.
  destruct (getMonthDateRange _ _) as [startDate endDate]. simpl.
  split.
  - intros R.
    destruct (User_getAll models) as [us | ]; [ | discriminate].
    destruct (Group_findAll models) as [gs | ]; [ | discriminate].
    destruct (PublicHoliday_findByMonthAndYear models _ _) as [phs | ];
      [ | discriminate].
    destruct (Holiday_findAllByDateRange models _ _) as [hs | ];
      [ | discriminate].
    destruct (WorkLocation_findAllByDateRange models _ _) as [wls | ];
      [ | discriminate].
    now exists us, gs, phs, hs, wls.
  - intros (us & gs & phs & hs & wls & -> & -> & -> & -> & -> & R). exact R.
Qed.

(** C8.  In the by-person view a group is listed exactly when it has an
    employee who qualifies (one with a holiday or a remote day in the
    month); a listed group holds the qualifying users of that group, in
    the order of the directory.  The groups other than the entry 0 are in
    the order of localeCompare on their names, and the entry 0, named
    "Bez grupy" and holding the qualifying users without a group, is the
    last one whenever it is listed, whatever the names.  localeCompare is
    taken to be a total preorder on names. *)
Theorem by_person_groups_sorted
    (localeCompare : string -> string -> Z)
    (parsedMonth parsedYear : JsNumber) (today : Z)
    (allUsers : list User.t) (allGroups : list Group.t)
    (publicHolidaysRaw : list PublicHoliday.t) (allHolidays : list Holiday.t)
    (allWorkLocations : list WorkLocation.t) (view : View) :
  (forall a b, 0 < localeCompare a b -> localeCompare b a <= 0) ->
  (forall a b c, localeCompare a b <= 0 -> localeCompare b c <= 0 ->
                 localeCompare a c <= 0) ->
  let year := year_of_query parsedYear today in
  let month := month_of_query parsedMonth today in
  groupByPerson localeCompare year month allUsers allGroups publicHolidaysRaw
    allHolidays allWorkLocations = Some view ->
  let data :=
    employeeData (publicHolidaysMap publicHolidaysRaw)
      (holidaysByUser allHolidays) (workLocationsByUser allWorkLocations)
      (allDaysInMonth year month) in
  let qualifying k :=
    filter (fun u => included (data u) = true /\ groupId_of u = k) allUsers in
  (forall g, g ∈ groupedEmployees view ->
     employees g <> []
     /\ employees g = map data (qualifying (id g))
     /\ ((id g = 0%N /\ name g = "Bez grupy")
         \/ (id g <> 0%N
             /\ exists group, group ∈ allGroups /\ Group.id group = id g
                              /\ Group.name group = name g)))
  /\ (forall k,
        (k = 0%N \/ exists group, group ∈ allGroups /\ Group.id group = k) ->
        qualifying k <> [] ->
        exists g, g ∈ groupedEmployees view /\ id g = k)
  /\ NoDup (map id (groupedEmployees view))
  /\ StronglySorted (groups_in_order localeCompare) (groupedEmployees view)
  /\ (forall (i j : nat) gi gj,
        (i < j)%nat ->
        groupedEmployees view !! i = Some gi ->
        groupedEmployees view !! j = Some gj ->
        id gi <> 0%N
        /\ (id gj <> 0%N -> localeCompare (name gi) (name gj) <= 0))
  /\ (forall g, g ∈ groupedEmployees view -> id g = 0%N ->
                last (groupedEmployees view) = Some g).
Proof.
  intros Htotal Htrans year month R data qualifying.
  destruct (initial_groupMap_spec allGroups) as (S & Keys & Entries).
  pose proof (view_group_elem _ _ _ _ _ _ _ _ _ R) as Elem.
  pose proof (view_ids_distinct _ _ _ _ _ _ _ _ _ R) as ND.
  destruct (view_groups _ _ _ _ _ _ _ _ _ R) as (E & _).
  fold data in Elem, E.
  assert (Sorted : StronglySorted (groups_in_order localeCompare)
                     (groupedEmployees view)).
  { rewrite E. now apply sort_groups_sorted. }
  repeat match goal with |- _ /\ _ => split end.
  - intros g I. apply Elem in I as (k & g0 & I & -> & N).
    destruct (Entries k g0 I) as (Ei & Ee & Zero & Other).
    split; [exact N | ]. unfold with_members. simpl.
    split; [now rewrite Ee, Ei | ].
    destruct (decide (k = 0%N)) as [Z | NZ].
    + left. split; [congruence | now apply Zero].
    + right. split; [congruence | ]. rewrite Ei. now apply Other.
  - intros k Hk Q.
    assert (Ik : k ∈ map fst (initial_groupMap allGroups)) by now apply Keys.
    apply list_elem_of_fmap in Ik as ([k0 g0] & Ek & I). simpl in Ek. subst k0.
    destruct (Entries k g0 I) as (Ei & Ee & _).
    exists (with_members data allUsers (k, g0)).2. split; [ | exact Ei].
    apply Elem. exists k, g0. split; [exact I | split; [reflexivity | ]].
    unfold with_members. simpl. rewrite Ee. simpl.
    fold (qualifying k). destruct (qualifying k); [contradiction | discriminate].
  - exact ND.
  - exact Sorted.
  - intros i j gi gj L Hi Hj.
    pose proof (StronglySorted_lookup _ _ Sorted i j gi gj L Hi Hj) as O.
    assert (Ni : id gi = 0%N -> id gj = 0%N -> False).
    { intros Zi Zj.
      assert (Hi' : map id (groupedEmployees view) !! i = Some 0%N)
        by (rewrite list_lookup_fmap, Hi; simpl; now rewrite Zi).
      assert (Hj' : map id (groupedEmployees view) !! j = Some 0%N)
        by (rewrite list_lookup_fmap, Hj; simpl; now rewrite Zj).
      pose proof (NoDup_lookup _ _ _ _ ND Hi' Hj'). lia. }
    destruct O as [Zj | (Ngi & Ngj & Le)]; split; tauto.
  - intros g I Z. now apply (entry_zero_last localeCompare).
Qed.

(** The theorem on the records of May 2024: the group without a
    qualifying employee is gone, the others come by name, the entry 0 is
    the last. *)
Lemma by_person_groups_sorted_witness :
  exists view,
    groupByPerson codepoint_compare 2024 5 [anna; bartek; celina; ewa]
      may_groups [labour_day] may_holidays may_locations = Some view
    /\ map name (groupedEmployees view) = ["Analitycy"; "Zespol"; "Bez grupy"]
    /\ map (fun g => map emp_name (employees g)) (groupedEmployees view)
       = [["Ewa"]; ["Anna"]; ["celina"]]
    /\ StronglySorted (groups_in_order codepoint_compare)
         (groupedEmployees view).
Proof.
  eexists. split; [vm_compute; reflexivity | ].
  split; [vm_compute; reflexivity | ].
  split; [vm_compute; reflexivity | ].
  refine (proj1 (proj2 (proj2 (proj2
    (by_person_groups_sorted codepoint_compare (Num 5) (Num 2024) 20760
       [anna; bartek; celina; ewa] may_groups [labour_day] may_holidays
       may_locations _ codepoint_compare_total codepoint_compare_trans _))))).
  vm_compute. reflexivity.
Defined.

(** What the view holds for each user: the holiday dates, the remote
    dates, who is listed, and the two counters. *)
Lemma by_person_employees
    (localeCompare : string -> string -> Z)
    (parsedMonth parsedYear : JsNumber) (today : Z)
    (allUsers : list User.t) (allGroups : list Group.t)
    (publicHolidaysRaw : list PublicHoliday.t) (allHolidays : list Holiday.t)
    (allWorkLocations : list WorkLocation.t) (view : View) :
  let year := year_of_query parsedYear today in
  let month := month_of_query parsedMonth today in
  groupByPerson localeCompare year month allUsers allGroups publicHolidaysRaw
    allHolidays allWorkLocations = Some view ->
  let data :=
    employeeData (publicHolidaysMap publicHolidaysRaw)
      (holidaysByUser allHolidays) (workLocationsByUser allWorkLocations)
      (allDaysInMonth year month) in
  (forall u,
     holidays (data u)
     = map (fun h => formatDate (Holiday.holiday_date h))
           (filter (fun h => Holiday.user_id h = User.id u) allHolidays)
     /\ remoteDates (data u)
        = map formatDate
            (filter (counted_remote_day publicHolidaysRaw allHolidays
                       allWorkLocations u)
                    (month_days year month))
     /\ holidayCount (data u) = length (holidays (data u))
     /\ remoteDaysCount (data u) = length (remoteDates (data u)))
  /\ (forall u, u ∈ allUsers ->
        (exists g, g ∈ groupedEmployees view /\ data u ∈ employees g)
        <-> holidays (data u) <> [] \/ remoteDates (data u) <> [])
  /\ (forall g e, g ∈ groupedEmployees view -> e ∈ employees g ->
        exists u, u ∈ allUsers /\ e = data u /\ groupId_of u = id g)
  /\ totalEmployeesWithHolidays view
     = length (filter (fun e => (0 < holidayCount e)%nat)
                      (mjoin (map employees (groupedEmployees view))))
  /\ totalEmployeesWithRemoteWork view
     = length (filter (fun e => (0 < remoteDaysCount e)%nat)
                      (mjoin (map employees (groupedEmployees view)))).
Proof.
  intros year month R data.
  destruct (query_month_year_in_range parsedMonth parsedYear today)
    as [Hm Hy].
  fold year in Hy. fold month in Hm.
  destruct (initial_groupMap_spec allGroups) as (S & Keys & Entries).
  pose proof (view_group_elem _ _ _ _ _ _ _ _ _ R) as Elem.
  destruct (view_groups _ _ _ _ _ _ _ _ _ R) as (E & CH & CR & Present).
  fold data in Elem, Present.
  assert (Hdata : forall u,
    holidays (data u)
    = map (fun h => formatDate (Holiday.holiday_date h))
          (filter (fun h => Holiday.user_id h = User.id u) allHolidays)
    /\ remoteDates (data u)
       = map formatDate
           (filter (counted_remote_day publicHolidaysRaw allHolidays
                      allWorkLocations u)
                   (month_days year month))
    /\ holidayCount (data u) = length (holidays (data u))
    /\ remoteDaysCount (data u) = length (remoteDates (data u))).
  { intros u. unfold data, employeeData. cbn [holidays remoteDates
      holidayCount remoteDaysCount].
    repeat split.
    - unfold holidayDates_of. now rewrite holidaysByUser_lookup.
    - now apply remoteDates_of_month. }
  assert (Hinc : forall u,
    included (data u) = true
    <-> holidays (data u) <> [] \/ remoteDates (data u) <> []).
  { intros u. destruct (Hdata u) as (_ & _ & Ch & Cr).
    unfold included. rewrite orb_true_iff, !Nat.ltb_lt, Ch, Cr.
    destruct (holidays (data u)), (remoteDates (data u)); simpl;
      split; intros [H | H]; try lia; try congruence;
      try (left; discriminate); try (right; discriminate);
      try (left; lia); try (right; lia). }
  repeat match goal with |- _ /\ _ => split end.
  - exact Hdata.
  - intros u I. rewrite <- Hinc. split.
    + intros (g & Ig & Ie). apply Elem in Ig as (k & g0 & Ik & -> & _).
      destruct (Entries k g0 Ik) as (_ & Ee & _).
      unfold with_members in Ie. simpl in Ie. rewrite Ee in Ie. simpl in Ie.
      apply list_elem_of_fmap in Ie as (u' & Eu & Iu).
      apply list_elem_of_filter in Iu as [[Inc _] _]. now rewrite Eu.
    + intros Inc.
      pose proof (Present u I Inc) as Ik.
      apply list_elem_of_fmap in Ik as ([k g0] & Ek & Ik). simpl in Ek.
      assert (Ie : data u ∈ employees (with_members data allUsers (k, g0)).2).
      { unfold with_members. simpl. apply elem_of_app. right.
        apply list_elem_of_fmap. exists u. split; [reflexivity | ].
        apply list_elem_of_filter. now repeat split. }
      exists (with_members data allUsers (k, g0)).2. split; [ | exact Ie].
      apply Elem. exists k, g0. split; [exact Ik | split; [reflexivity | ]].
      intros N. rewrite N in Ie. now apply elem_of_nil in Ie.
  - intros g e Ig Ie. apply Elem in Ig as (k & g0 & Ik & -> & _).
    destruct (Entries k g0 Ik) as (Ei & Ee & _).
    unfold with_members in Ie |- *. simpl in Ie |- *.
    rewrite Ee in Ie. simpl in Ie.
    apply list_elem_of_fmap in Ie as (u & Eu & Iu).
    apply list_elem_of_filter in Iu as [[_ G] Iu].
    exists u. repeat split; [exact Iu | exact Eu | congruence].
  - rewrite CH, count_employees_length. f_equal.
    apply list_filter_iff. intros e. apply Nat.ltb_lt.
  - rewrite CR, count_employees_length. f_equal.
    apply list_filter_iff. intros e. apply Nat.ltb_lt.
Qed.

(** When every public holiday has a name, the days counted as remote work
    are the qualifying remote days of the specification. *)
Lemma named_holidays_counted_remote_day
    (publicHolidaysRaw : list PublicHoliday.t) (allHolidays : list Holiday.t)
    (allWorkLocations : list WorkLocation.t) (user : User.t) (d : Z) :
  (forall ph, ph ∈ publicHolidaysRaw -> PublicHoliday.name ph <> "") ->
  counted_remote_day publicHolidaysRaw allHolidays allWorkLocations user d
  <-> qualifying_remote_day publicHolidaysRaw allHolidays allWorkLocations
        user d.
Proof.
  intros Named. unfold counted_remote_day, qualifying_remote_day.
  enough (G : public_holiday_name publicHolidaysRaw d = None
              <-> ~ (exists ph, ph ∈ publicHolidaysRaw
                               /\ PublicHoliday.holiday_date ph = d))
    by (rewrite G; reflexivity).
  unfold public_holiday_name.
  destruct (last (filter (fun ph => PublicHoliday.holiday_date ph = d)
                         publicHolidaysRaw)) as [ph | ] eqn:L.
  - assert (I : ph ∈ filter (fun ph => PublicHoliday.holiday_date ph = d)
                      publicHolidaysRaw).
    { apply last_Some in L as (l' & ->). apply elem_of_app. right. left. }
    apply list_elem_of_filter in I as [D I].
    simpl. split.
    + intros T. exfalso. apply (Named ph I).
      destruct (PublicHoliday.name ph); [reflexivity | discriminate].
    + intros N. exfalso. apply N. now exists ph.
  - simpl. split; [ | reflexivity]. intros _ (ph & I & D).
    apply last_None in L.
    assert (I' : ph ∈ filter (fun ph => PublicHoliday.holiday_date ph = d)
                       publicHolidaysRaw)
      by (apply list_elem_of_filter; now split).
    rewrite L in I'. now apply elem_of_nil in I'.
Qed.

(** The scenario of the specification: one user with three holiday dates
    and two remote days, another with none. *)
Example scenario_two_users :
  exists view,
    groupByPerson codepoint_compare 2024 5 [anna; bartek] may_groups
      [labour_day] may_holidays may_locations = Some view
    /\ map (fun g => map (fun e => (emp_name e, holidayCount e,
                                    remoteDaysCount e)) (employees g))
           (groupedEmployees view)
       = [[("Anna", 3%nat, 2%nat)]]
    /\ totalEmployeesWithHolidays view = 1%nat
    /\ totalEmployeesWithRemoteWork view = 1%nat.
Proof.
  eexists. split; [vm_compute; reflexivity | ].
  split; [vm_compute; reflexivity | ].
  split; vm_compute; reflexivity.
Qed.

(** C5, at a public holiday without a name.  Friday 3 May 2024 is a public
    holiday recorded with an empty name, and a user declared remote work
    for it.  The view lists the day among the remote dates of the user and
    counts the user as working remotely, although the day is a public
    holiday and so no qualifying remote day. *)
Theorem remote_day_on_unnamed_public_holiday :
  let publicHolidays := [labour_day; unnamed_holiday] in
  let locations := [remote_on 12 19844; remote_on 12 19846] in
  exists view celina_data,
    groupByPerson codepoint_compare 2024 5 [celina] may_groups publicHolidays
      [] locations = Some view
    /\ map employees (groupedEmployees view) = [[celina_data]]
    /\ formatDate 19846 = "2024-05-03"
    /\ remoteDates celina_data = ["2024-05-03"]
    /\ totalEmployeesWithRemoteWork view = 1%nat
    /\ unnamed_holiday ∈ publicHolidays
    /\ ~ qualifying_remote_day publicHolidays [] locations celina 19846
    /\ filter (qualifying_remote_day publicHolidays [] locations celina)
         (month_days 2024 5) = [].
Proof.
  cbv zeta. eexists. eexists.
  split; [vm_compute; reflexivity | ].
  split; [vm_compute; reflexivity | ].
  split; [reflexivity | ].
  split; [vm_compute; reflexivity | ].
  split; [vm_compute; reflexivity | ].
  split; [right; left | ].
  split.
  - intros (_ & _ & N & _). apply N. exists unnamed_holiday.
    split; [right; left | reflexivity].
  - apply BusinessDaysFacts.filter_none. intros d I (L & _ & N & _).
    unfold declared_location in L.
    assert (d = 19844 \/ d = 19846) as [-> | ->].
    { destruct (decide (d = 19844)) as [ | N1]; [now left | ].
      destruct (decide (d = 19846)) as [ | N2]; [now right | ].
      exfalso. simpl in L.
      rewrite !filter_cons, filter_nil in L. simpl in L.
      rewrite !decide_False in L by (intros [_ E]; congruence).
      discriminate. }
    + apply N. exists labour_day. split; [left | reflexivity].
    + apply N. exists unnamed_holiday. split; [right; left | reflexivity].
Qed.

End Claims_ByPerson.

(** ** Months of the calendar *)

Module MonthFacts.
Import CalendarMath JsText HomeCalendar CalendarFacts.

Ltac split_tests :=
  split_comparisons;
  repeat match goal with
  | |- context [(?x =? ?y)%Z] => destruct (Z.eqb_spec x y)
  end.

(** The first day of the next month is the first day of the month plus the
    days of the month; month 13 is January of the next year. *)
Lemma first_of_next_month (y m : Z) :
  1 <= m <= 12 ->
  days_from_civil y (m + 1) 1 = days_from_civil y m 1 + days_in_month y m.
Proof.
  intros Hm.
  assert (m = 1 \/ m = 2 \/ m = 3 \/ m = 4 \/ m = 5 \/ m = 6 \/ m = 7 \/ m = 8
          \/ m = 9 \/ m = 10 \/ m = 11 \/ m = 12) as Hc by lia.
  unfold days_from_civil, days_in_month, is_leap.
  repeat (destruct Hc as [-> | Hc]); try subst m; simpl;
    try (Z.to_euclidean_division_equations; lia).
  all: split_tests; simpl; Z.to_euclidean_division_equations; lia.
Qed.

Lemma days_in_month_range (y m : Z) : 28 <= days_in_month y m <= 31.
Proof.
  unfold days_in_month.
  destruct (m =? 2); [destruct (is_leap y); lia | ].
  destruct ((m =? 4) || (m =? 6) || (m =? 9) || (m =? 11)); lia.
Qed.

Lemma days_from_civil_day (y m d : Z) :
  days_from_civil y m d = days_from_civil y m 1 + (d - 1).
Proof. unfold days_from_civil. cbv zeta. lia. Qed.

(** The day of the month never exceeds the length of the month. *)
Lemma getDate_le_days_in_month (z : Z) :
  getDate z <= days_in_month (getFullYear z) (getMonth1 z).
Proof.
  unfold getDate, getFullYear, getMonth1, civil_from_days, days_in_month,
    is_leap.
  cbn [fst snd]. cbv zeta.
  set (zz := z + 719468).
  set (era := zz / 146097).
  set (doe := zz - era * 146097).
  set (yoe := (doe - doe / 1460 + doe / 36524 - doe / 146096) / 365).
  set (doy := doe - (365 * yoe + yoe / 4 - yoe / 100)).
  set (mp := (5 * doy + 2) / 153).
  assert (0 <= doe < 146097)
    by (subst doe era; Z.to_euclidean_division_equations; lia).
  assert (0 <= yoe < 400) by (subst yoe; Z.to_euclidean_division_equations; lia).
  assert (Hdoy : 0 <= doy < 366)
    by (subst doy yoe; Z.to_euclidean_division_equations; lia).
  assert (Hleap : doy = 365 ->
                  (yoe mod 4 = 3 /\ yoe mod 100 <> 99) \/ yoe = 399)
    by (subst doy yoe; Z.to_euclidean_division_equations; lia).
  assert (0 <= mp <= 11) by (subst mp; Z.to_euclidean_division_equations; lia).
  clearbody doy. clearbody yoe. clearbody era.
  assert (mp = 0 \/ mp = 1 \/ mp = 2 \/ mp = 3 \/ mp = 4 \/ mp = 5 \/ mp = 6
          \/ mp = 7 \/ mp = 8 \/ mp = 9 \/ mp = 10 \/ mp = 11) as Hc by lia.
  repeat (destruct Hc as [Hc | Hc]); rewrite Hc; simpl;
    try (subst mp; Z.to_euclidean_division_equations; lia).
  split_tests; cbn [andb orb negb]; subst mp;
    Z.to_euclidean_division_equations; lia.
Qed.

(** The first day of the month with index [k], counted from January of the
    year 0. *)
Lemma MakeDay_succ (k : Z) :
  MakeDay 0 (k + 1) 1
  = MakeDay 0 k 1 + days_in_month (k / 12) (k mod 12 + 1).
Proof.
  unfold MakeDay. rewrite !Z.add_0_l, !Z.sub_diag, !Z.add_0_r.
  destruct (Z.eq_dec (k mod 12) 11) as [E | NE].
  - assert (E1 : (k + 1) / 12 = k / 12 + 1)
      by (Z.to_euclidean_division_equations; lia).
    assert (E2 : (k + 1) mod 12 = 0)
      by (Z.to_euclidean_division_equations; lia).
    rewrite E1, E2, E. change (11 + 1) with 12. change (0 + 1) with 1.
    rewrite <- (first_of_next_month (k / 12) 12) by lia.
    unfold days_from_civil. simpl.
    replace (k / 12 + 1 - 1) with (k / 12) by lia. reflexivity.
  - assert (E1 : (k + 1) / 12 = k / 12)
      by (Z.to_euclidean_division_equations; lia).
    assert (E2 : (k + 1) mod 12 = k mod 12 + 1)
      by (Z.to_euclidean_division_equations; lia).
    rewrite E1, E2. apply first_of_next_month.
    Z.to_euclidean_division_equations; lia.
Qed.

Lemma MakeDay_mono (k : Z) (n : nat) :
  MakeDay 0 (k + 1) 1 <= MakeDay 0 (k + 1 + Z.of_nat n) 1.
Proof.
  induction n as [ | n IH].
  - rewrite Z.add_0_r. lia.
  - replace (k + 1 + Z.of_nat (S n)) with (k + 1 + Z.of_nat n + 1) by lia.
    rewrite (MakeDay_succ (k + 1 + Z.of_nat n)).
    pose proof (days_in_month_range ((k + 1 + Z.of_nat n) / 12)
                  ((k + 1 + Z.of_nat n) mod 12 + 1)).
    lia.
Qed.

Lemma MakeDay_lt (k k' : Z) :
  k < k' -> MakeDay 0 (k + 1) 1 <= MakeDay 0 k' 1.
Proof.
  intros L. replace k' with (k + 1 + Z.of_nat (Z.to_nat (k' - k - 1))) by lia.
  apply MakeDay_mono.
Qed.

Lemma MakeDay_month (y m : Z) :
  1 <= m <= 12 -> MakeDay 0 (12 * y + (m - 1)) 1 = days_from_civil y m 1.
Proof.
  intros Hm. unfold MakeDay.
  replace ((12 * y + (m - 1)) / 12) with y
    by (Z.to_euclidean_division_equations; lia).
  replace ((12 * y + (m - 1)) mod 12 + 1) with m
    by (Z.to_euclidean_division_equations; lia).
  rewrite Z.add_0_l. lia.
Qed.

(** A day of a month lies from the first day of the month up to the day
    before the first day of the next one. *)
Lemma day_in_its_month (y m d : Z) :
  1 <= m <= 12 -> 1 <= d <= days_in_month y m ->
  let k := 12 * y + (m - 1) in
  MakeDay 0 k 1 <= days_from_civil y m d < MakeDay 0 (k + 1) 1.
Proof.
  intros Hm Hd k. rewrite MakeDay_succ. subst k.
  rewrite (MakeDay_month y m Hm), (days_from_civil_day y m d).
  replace ((12 * y + (m - 1)) / 12) with y
    by (Z.to_euclidean_division_equations; lia).
  replace ((12 * y + (m - 1)) mod 12 + 1) with m
    by (Z.to_euclidean_division_equations; lia).
  lia.
Qed.

(** The fields of a date made from a year, a month and a day of that
    month. *)
Lemma civil_of_days_from_civil (y m d : Z) :
  1 <= m <= 12 -> 1 <= d <= days_in_month y m ->
  civil_from_days (days_from_civil y m d) = (y, m, d).
Proof.
  intros Hm Hd.
  set (z := days_from_civil y m d).
  pose proof (days_from_civil_from_days z) as R.
  pose proof (civil_ranges z) as [HM _].
  pose proof (getDate_le_days_in_month z) as HD.
  assert (HD1 : 1 <= getDate z) by apply civil_ranges.
  pose proof (day_in_its_month y m d Hm Hd) as I.
  pose proof (day_in_its_month (getFullYear z) (getMonth1 z) (getDate z) HM
                ltac:(lia)) as I'.
  cbv zeta in I, I'. rewrite R in I'. fold z in I.
  set (k := 12 * y + (m - 1)) in *.
  set (k' := 12 * getFullYear z + (getMonth1 z - 1)) in *.
  assert (K : k = k').
  { destruct (Z.lt_trichotomy k k') as [L | [E | L]]; [ | exact E | ].
    - pose proof (MakeDay_lt k k' L). lia.
    - pose proof (MakeDay_lt k' k L). lia. }
  assert (Y : getFullYear z = y) by (subst k k'; lia).
  assert (M : getMonth1 z = m) by (subst k k'; lia).
  assert (D : getDate z = d).
  { rewrite Y, M in R. rewrite (days_from_civil_day y m (getDate z)) in R.
    unfold z in R at 2. rewrite (days_from_civil_day y m d) in R. lia. }
  unfold getFullYear in Y. unfold getMonth1 in M. unfold getDate in D.
  destruct (civil_from_days z) as [[y' m'] d']. simpl in *. congruence.
Qed.

(** [new Date(year, month, 0).getDate()] is the number of days of the
    month. *)
Lemma daysInMonth_days_in_month (year month : Z) :
  100 <= year -> 1 <= month <= 12 ->
  getDate (new_Date_fields year month 0) = days_in_month year month.
Proof.
  intros Hy Hm. unfold new_Date_fields.
  replace ((0 <=? year) && (year <=? 99)) with false by lia.
  assert (E : MakeDay year month 0
              = days_from_civil year month (days_in_month year month)).
  { unfold MakeDay.
    transitivity (days_from_civil year (month + 1) 1 - 1).
    - destruct (Z.eq_dec month 12) as [-> | NE].
      + change (12 / 12) with 1. change (12 mod 12 + 1) with 1.
        unfold days_from_civil. simpl.
        replace (year + 1 - 1) with year by lia.
        Z.to_euclidean_division_equations; lia.
      + replace (month / 12) with 0
          by (Z.to_euclidean_division_equations; lia).
        replace (month mod 12) with month
          by (Z.to_euclidean_division_equations; lia).
        rewrite Z.add_0_r. lia.
    - rewrite first_of_next_month by exact Hm.
      rewrite (days_from_civil_day year month (days_in_month year month)).
      lia. }
  rewrite E. unfold getDate.
  pose proof (days_in_month_range year month).
  rewrite civil_of_days_from_civil by lia. reflexivity.
Qed.

(** [new Date(year, month - 1, day)] for a month from 1 to 12. *)
Lemma new_Date_fields_day (year month day : Z) :
  100 <= year -> 1 <= month <= 12 ->
  new_Date_fields year (month - 1) day = days_from_civil year month day.
Proof.
  intros Hy Hm. unfold new_Date_fields, MakeDay.
  replace ((0 <=? year) && (year <=? 99)) with false by lia.
  replace ((month - 1) / 12) with 0
    by (Z.to_euclidean_division_equations; lia).
  replace ((month - 1) mod 12 + 1) with month
    by (Z.to_euclidean_division_equations; lia).
  rewrite Z.add_0_r. symmetry. apply days_from_civil_day.
Qed.

End MonthFacts.

(** ** The calendars of the home page *)

Module HomeCalendarFacts.
Import CalendarMath Js JsText HomeCalendar ByPerson.
Import CalendarFacts MonthFacts.

Lemma year_digits :
  forallb (fun y => String.eqb (Number_toString y) (pad4 y)) (seqZ 1000 9000)
  = true.
Proof. vm_compute. reflexivity. Qed.

Lemma two_digits :
  forallb (fun n => String.eqb (padStart2 (Number_toString n)) (pad2 n))
          (seqZ 0 100)
  = true.
Proof. vm_compute. reflexivity. Qed.

Lemma Number_toString_year (y : Z) :
  1000 <= y <= 9999 -> Number_toString y = year_text y.
Proof.
  intros Hy. unfold year_text.
  replace ((0 <=? y) && (y <=? 9999)) with true by lia.
  pose proof year_digits as F. rewrite forallb_forall in F.
  apply String.eqb_eq, F, list_elem_of_In, elem_of_seqZ. lia.
Qed.

Lemma padStart2_pad2 (n : Z) :
  0 <= n <= 99 -> padStart2 (Number_toString n) = pad2 n.
Proof.
  intros Hn. pose proof two_digits as F. rewrite forallb_forall in F.
  apply String.eqb_eq, F, list_elem_of_In, elem_of_seqZ. lia.
Qed.

(** The text that the calendar builds by hand for a day is the canonical
    form of that day. *)
Lemma dateStr_formatDate (year month day : Z) :
  1000 <= year <= 9999 -> 1 <= month <= 12 ->
  1 <= day <= days_in_month year month ->
  Number_toString year +:+ "-" +:+ padStart2 (Number_toString month)
  +:+ "-" +:+ padStart2 (Number_toString day)
  = formatDate (days_from_civil year month day).
Proof.
  intros Hy Hm Hd. unfold formatDate.
  rewrite civil_of_days_from_civil by assumption.
  pose proof (days_in_month_range year month).
  rewrite Number_toString_year, !padStart2_pad2 by lia. reflexivity.
Qed.

Lemma day_seq_seqZ (first : Z) (count : nat) :
  day_seq first count = seqZ first (Z.of_nat count).
Proof.
  revert first. induction count as [ | n IH]; intros first; [reflexivity | ].
  rewrite seqZ_cons by lia. simpl day_seq. rewrite IH.
  do 2 f_equal; lia.
Qed.

Lemma month_days_seqZ (year month : Z) :
  month_days year month
  = map (days_from_civil year month) (seqZ 1 (days_in_month year month)).
Proof.
  unfold month_days. rewrite day_seq_seqZ.
  pose proof (days_in_month_range year month).
  rewrite Z2Nat.id by lia.
  transitivity (Z.add (days_from_civil year month 1 - 1)
                <$> seqZ 1 (days_in_month year month)).
  - rewrite fmap_add_seqZ. f_equal. lia.
  - apply map_ext. intros d. rewrite (days_from_civil_day year month d). lia.
Qed.

(** The cell of a day of the month. *)
Lemma day_cell_spec (locations : gmap string (option bool))
    (holidays publicHolidays : gset string) (year month d : Z) :
  1000 <= year <= 9999 -> 1 <= month <= 12 ->
  1 <= d <= days_in_month year month ->
  let z := days_from_civil year month d in
  day_cell locations holidays publicHolidays year month
    (padStart2 (Number_toString month)) d
  = {| day := d;
       date := formatDate z;
       isWeekend := CalendarMath.isWeekend z;
       isHoliday := bool_decide (formatDate z ∈ holidays);
       isPublicHoliday := bool_decide (formatDate z ∈ publicHolidays);
       is_onsite := default None (locations !! formatDate z);
       isRemote :=
         bool_decide (default None (locations !! formatDate z) = Some false) |}.
Proof.
  intros Hy Hm Hd z. unfold day_cell.
  rewrite dateStr_formatDate by assumption.
  rewrite new_Date_fields_day by lia. reflexivity.
Qed.

Lemma buildLocationCalendar_cells (locations : gmap string (option bool))
    (holidays publicHolidays : gset string) (month year : Z) :
  1000 <= year <= 9999 -> 1 <= month <= 12 ->
  days (buildLocationCalendar locations holidays publicHolidays month year)
  = map (fun d =>
           let z := days_from_civil year month d in
           {| day := d;
              date := formatDate z;
              isWeekend := CalendarMath.isWeekend z;
              isHoliday := bool_decide (formatDate z ∈ holidays);
              isPublicHoliday := bool_decide (formatDate z ∈ publicHolidays);
              is_onsite := default None (locations !! formatDate z);
              isRemote :=
                bool_decide (default None (locations !! formatDate z)
                             = Some false) |})
        (seqZ 1 (days_in_month year month)).
Proof.
  intros Hy Hm. unfold buildLocationCalendar. cbn [days].
  rewrite daysInMonth_days_in_month by lia.
  apply map_ext_in. intros d I.
  apply list_elem_of_In, elem_of_seqZ in I.
  apply day_cell_spec; [assumption | assumption | lia].
Qed.

End HomeCalendarFacts.

Module HomeCalendarLookups.
Import CalendarMath Js JsText HomeCalendar ByPerson.
Import CalendarFacts MonthFacts HomeCalendarFacts.

(** The location kept for a day is that of the last entry of the day. *)
Lemma locationMap_lookup (locationEntries : list WorkLocation.t) (z : Z) :
  locationMap locationEntries !! formatDate z
  = WorkLocation.is_onsite
    <$> last (filter (fun l => WorkLocation.work_date l = z) locationEntries).
Proof.
  unfold locationMap.
  induction locationEntries as [ | x l IH] using rev_ind; [reflexivity | ].
  rewrite foldl_app. cbn [foldl]. rewrite filter_app, filter_cons, filter_nil.
  destruct (decide (WorkLocation.work_date x = z)) as [E | NE].
  - rewrite E, lookup_insert_eq, last_snoc. reflexivity.
  - rewrite lookup_insert_ne by (intros F; apply formatDate_inj in F; congruence).
    rewrite app_nil_r. exact IH.
Qed.

Lemma holidaySet_spec (holidayEntries : list Holiday.t) (z : Z) :
  formatDate z ∈ holidaySet holidayEntries
  <-> exists h, h ∈ holidayEntries /\ Holiday.holiday_date h = z.
Proof.
  unfold holidaySet. rewrite elem_of_list_to_set, list_elem_of_fmap.
  split.
  - intros (h & E & I). exists h. split; [exact I | ].
    symmetry. now apply formatDate_inj.
  - intros (h & I & E). exists h. now rewrite E.
Qed.

Lemma publicHolidaySet_spec (all : list PublicHoliday.t) (z : Z) :
  formatDate z ∈ publicHolidaySet all
  <-> exists ph, ph ∈ all /\ PublicHoliday.holiday_date ph = z.
Proof.
  unfold publicHolidaySet. rewrite elem_of_list_to_set, list_elem_of_fmap.
  split.
  - intros (h & E & I). exists h. split; [exact I | ].
    symmetry. now apply formatDate_inj.
  - intros (h & I & E). exists h. now rewrite E.
Qed.

Lemma MakeDay_lt_succ (k : Z) : MakeDay 0 k 1 < MakeDay 0 (k + 1) 1.
Proof.
  rewrite MakeDay_succ.
  pose proof (days_in_month_range (k / 12) (k mod 12 + 1)). lia.
Qed.

Lemma seqZ_join (a b c : Z) :
  a <= b <= c -> seqZ a (b - a) ++ seqZ b (c - b) = seqZ a (c - a).
Proof.
  intros H. replace (c - a) with ((b - a) + (c - b)) by lia.
  rewrite seqZ_app by lia. do 2 f_equal. lia.
Qed.

Lemma MakeDay_index (y mi d : Z) :
  MakeDay y mi d = MakeDay 0 (12 * y + mi) 1 + (d - 1).
Proof.
  unfold MakeDay.
  replace ((12 * y + mi) / 12) with (y + mi / 12)
    by (Z.to_euclidean_division_equations; lia).
  replace ((12 * y + mi) mod 12) with (mi mod 12)
    by (Z.to_euclidean_division_equations; lia).
  rewrite Z.add_0_l. lia.
Qed.

(** The dates of a calendar, from the first day of its month up to the
    first day of the next. *)
Lemma calendar_dates (locations : gmap string (option bool))
    (holidays publicHolidays : gset string) (month year : Z) :
  1000 <= year <= 9999 -> 1 <= month <= 12 ->
  let k := 12 * year + (month - 1) in
  map date
    (days (buildLocationCalendar locations holidays publicHolidays month year))
  = map formatDate (seqZ (MakeDay 0 k 1) (MakeDay 0 (k + 1) 1 - MakeDay 0 k 1)).
Proof.
  intros Hy Hm k.
  rewrite buildLocationCalendar_cells by assumption.
  rewrite map_map. cbn [date].
  rewrite MakeDay_succ. subst k. rewrite MakeDay_month by assumption.
  replace ((12 * year + (month - 1)) / 12) with year
    by (Z.to_euclidean_division_equations; lia).
  replace ((12 * year + (month - 1)) mod 12 + 1) with month
    by (Z.to_euclidean_division_equations; lia).
  replace (days_from_civil year month 1 + days_in_month year month
           - days_from_civil year month 1)
    with (days_in_month year month) by lia.
  pose proof (month_days_seqZ year month) as MD.
  unfold month_days in MD. rewrite day_seq_seqZ in MD.
  pose proof (days_in_month_range year month).
  rewrite Z2Nat.id in MD by lia. rewrite MD, map_map. reflexivity.
Qed.

Lemma find_map_unique {A B} (p : B -> bool) (f : A -> B) (l : list A) (x : A) :
  x ∈ l -> (forall y, y ∈ l -> p (f y) = true <-> y = x) ->
  find p (map f l) = Some (f x).
Proof.
  induction l as [ | y l IH]; intros I U; [now apply elem_of_nil in I | ].
  simpl. destruct (p (f y)) eqn:P.
  - apply U in P; [ | left]. now subst y.
  - apply elem_of_cons in I as [-> | I].
    + assert (p (f y) = true) by (apply U; [left | reflexivity]). congruence.
    + apply IH; [exact I | ]. intros y' I'. apply U. now right.
Qed.

End HomeCalendarLookups.

Module HomeCalendarProperties.
Import CalendarMath Js JsText HomeCalendar ByPerson.
Import CalendarFacts MonthFacts HomeCalendarFacts HomeCalendarLookups.

(** X14.  A calendar of the home page has one cell for each day of its month, in
    order: the cells are numbered from 1 to the length of the month (28 to
    31, 29 for February of a leap year), the date text of a cell is the
    canonical form of its day, and the weekend flag is that of the day; the
    calendar is named by the name of its month.  Years of four digits. *)
Theorem buildLocationCalendar_month (locations : gmap string (option bool))
    (holidays publicHolidays : gset string) (month year : Z) :
  1000 <= year <= 9999 -> 1 <= month <= 12 ->
  let calendar :=
    buildLocationCalendar locations holidays publicHolidays month year in
  map day (days calendar) = seqZ 1 (days_in_month year month)
  /\ map date (days calendar) = map formatDate (month_days year month)
  /\ map isWeekend (days calendar)
     = map CalendarMath.isWeekend (month_days year month)
  /\ (exists name, monthName calendar = inl name
                   /\ monthNames !! Z.to_nat month = Some name
                   /\ name <> "").
Proof.
  intros Hy Hm calendar. subst calendar.
  rewrite buildLocationCalendar_cells by assumption.
  rewrite month_days_seqZ, !map_map. cbn [day date isWeekend].
  split; [apply map_id | ]. split; [reflexivity | ]. split; [reflexivity | ].
  cbn [monthName]. unfold monthName_of.
  replace (0 <=? month) with true by lia.
  assert (E : exists j : nat, month = 1 + Z.of_nat j /\ (j < 12)%nat)
    by (exists (Z.to_nat (month - 1)); lia).
  destruct E as (j & -> & Hj).
  do 12 (destruct j as [ | j];
         [eexists; split; [reflexivity | split; [reflexivity | discriminate]] | ]).
  lia.
Qed.

Lemma buildLocationCalendar_month_witness :
  let calendar := buildLocationCalendar ∅ ∅ ∅ 2 2024 in
  map day (days calendar) = seqZ 1 (days_in_month 2024 2)
  /\ map date (days calendar) = map formatDate (month_days 2024 2)
  /\ map isWeekend (days calendar)
     = map CalendarMath.isWeekend (month_days 2024 2)
  /\ (exists name, monthName calendar = inl name
                   /\ monthNames !! Z.to_nat 2 = Some name
                   /\ name <> "").
Proof. apply (buildLocationCalendar_month ∅ ∅ ∅ 2 2024); lia. Defined.

(** X15.  The flags of a cell come from the records of its day: the cell is a
    holiday exactly when the user has a holiday entry on that day, a public
    holiday exactly when one of the public holidays handed in falls on it;
    the location is that of the last location entry of the day, null when
    there is none; and the cell is remote exactly when that location is
    [false]. *)
Theorem calendar_cell_flags (locationEntries : list WorkLocation.t)
    (holidayEntries : list Holiday.t)
    (allPublicHolidaysForWindow : list PublicHoliday.t)
    (month year : Z) (cell : DayCell) :
  1000 <= year <= 9999 -> 1 <= month <= 12 ->
  cell ∈ days (buildLocationCalendar (locationMap locationEntries)
                 (holidaySet holidayEntries)
                 (publicHolidaySet allPublicHolidaysForWindow) month year) ->
  let z := days_from_civil year month (day cell) in
  (isHoliday cell = true
   <-> exists h, h ∈ holidayEntries /\ Holiday.holiday_date h = z)
  /\ (isPublicHoliday cell = true
      <-> exists ph, ph ∈ allPublicHolidaysForWindow
                     /\ PublicHoliday.holiday_date ph = z)
  /\ is_onsite cell
     = default None
         (WorkLocation.is_onsite
          <$> last (filter (fun l => WorkLocation.work_date l = z)
                           locationEntries))
  /\ (isRemote cell = true <-> is_onsite cell = Some false).
Proof.
  intros Hy Hm I z.
  rewrite buildLocationCalendar_cells in I by assumption.
  apply list_elem_of_fmap in I as (d & -> & _). subst z.
  cbn [day date isHoliday isPublicHoliday is_onsite isRemote].
  rewrite !bool_decide_eq_true, holidaySet_spec, publicHolidaySet_spec,
    locationMap_lookup.
  repeat match goal with |- _ /\ _ => split end; reflexivity.
Qed.

Lemma calendar_cell_flags_witness :
  let cell :=
    {| day := 1; date := "2024-05-01"; isWeekend := false; isHoliday := false;
       isPublicHoliday := true; is_onsite := Some false; isRemote := true |} in
  let z := days_from_civil 2024 5 (day cell) in
  (isHoliday cell = true
   <-> exists h, h ∈ may_holidays /\ Holiday.holiday_date h = z)
  /\ (isPublicHoliday cell = true
      <-> exists ph, ph ∈ [labour_day] /\ PublicHoliday.holiday_date ph = z)
  /\ is_onsite cell
     = default None
         (WorkLocation.is_onsite
          <$> last (filter (fun l => WorkLocation.work_date l = z)
                           [remote_on 10 19844]))
  /\ (isRemote cell = true <-> is_onsite cell = Some false).
Proof.
  apply (calendar_cell_flags [remote_on 10 19844] may_holidays [labour_day]
           5 2024); [lia | lia | ].
  vm_compute. left.
Defined.

(** X16.  The four calendars of the home page follow one another without a gap
    or an overlap: their cells, taken together, are the days from the first
    day of the previous month to the last day of the month after the next,
    each once and in order, across the turn of the year; today is one of
    them. *)
Theorem calendars_cover_window (today : Z)
    (locationEntries : list WorkLocation.t) (holidayEntries : list Holiday.t)
    (prevPublicHolidays publicHolidays nextPublicHolidays
       next2PublicHolidays : list PublicHoliday.t) :
  1001 <= getFullYear today <= 9998 ->
  let home :=
    home_calendars today locationEntries holidayEntries prevPublicHolidays
      publicHolidays nextPublicHolidays next2PublicHolidays in
  let first := new_Date_fields (getFullYear today) (getMonth1 today - 2) 1 in
  let last := new_Date_fields (getFullYear today) (getMonth1 today + 2) 0 in
  concat (map (fun calendar => map date (days calendar))
             (workLocationCalendars home))
  = map formatDate (seqZ first (last - first + 1))
  /\ first <= today <= last.
Proof.
  intros Hy home first last.
  pose proof (civil_ranges today) as [HM HD].
  pose proof (getDate_le_days_in_month today) as HD'.
  set (Y := getFullYear today) in *. set (M := getMonth1 today) in *.
  set (k := 12 * Y + (M - 1)).
  assert (F : first = MakeDay 0 (k - 1) 1).
  { subst first. unfold new_Date_fields.
    replace ((0 <=? Y) && (Y <=? 99)) with false by lia.
    rewrite MakeDay_index. subst k.
    replace (12 * Y + (M - 2)) with (12 * Y + (M - 1) - 1) by lia. lia. }
  assert (L : last = MakeDay 0 (k + 3) 1 - 1).
  { subst last. unfold new_Date_fields.
    replace ((0 <=? Y) && (Y <=? 99)) with false by lia.
    rewrite MakeDay_index. subst k.
    replace (12 * Y + (M + 2)) with (12 * Y + (M - 1) + 3) by lia. lia. }
  pose proof (MakeDay_lt_succ (k - 1)) as L0.
  pose proof (MakeDay_lt_succ k) as L1.
  pose proof (MakeDay_lt_succ (k + 1)) as L2.
  pose proof (MakeDay_lt_succ (k + 2)) as L3.
  replace (k - 1 + 1) with k in L0 by lia.
  replace (k + 1 + 1) with (k + 2) in L2 by lia.
  replace (k + 2 + 1) with (k + 3) in L3 by lia.
  split.
  - subst home. unfold home_calendars. cbn [workLocationCalendars].
    fold Y M. unfold month_window. cbn [prevMonth prevYear nextMonth nextYear
                                         nextMonth2 nextYear2].
    cbn [map concat]. rewrite app_nil_r.
    pose proof (fun ls hs ps m y Hy' Hm' =>
                  calendar_dates ls hs ps m y Hy' Hm') as C. cbv zeta in C.
    assert (P : 1000 <= (if M =? 1 then Y - 1 else Y) <= 9999
                /\ 1 <= (if M =? 1 then 12 else M - 1) <= 12
                /\ 12 * (if M =? 1 then Y - 1 else Y)
                   + ((if M =? 1 then 12 else M - 1) - 1) = k - 1).
    { subst k. destruct (Z.eqb_spec M 1); lia. }
    assert (N1 : 1000 <= (if M =? 12 then Y + 1 else Y) <= 9999
                 /\ 1 <= (if M =? 12 then 1 else M + 1) <= 12
                 /\ 12 * (if M =? 12 then Y + 1 else Y)
                    + ((if M =? 12 then 1 else M + 1) - 1) = k + 1).
    { subst k. destruct (Z.eqb_spec M 12); lia. }
    set (nm := if M =? 12 then 1 else M + 1) in *.
    set (ny := if M =? 12 then Y + 1 else Y) in *.
    assert (N2 : 1000 <= (if nm =? 12 then ny + 1 else ny) <= 9999
                 /\ 1 <= (if nm =? 12 then 1 else nm + 1) <= 12
                 /\ 12 * (if nm =? 12 then ny + 1 else ny)
                    + ((if nm =? 12 then 1 else nm + 1) - 1) = k + 2).
    { destruct (Z.eqb_spec nm 12); lia. }
    destruct P as (P1 & P2 & P3), N1 as (N11 & N12 & N13),
             N2 as (N21 & N22 & N23).
    rewrite !C by (assumption || lia).
    rewrite P3, N13, N23. fold k.
    replace (k - 1 + 1) with k by lia.
    replace (k + 1 + 1) with (k + 2) by lia.
    replace (k + 2 + 1) with (k + 3) by lia.
    rewrite <- !map_app.
    rewrite (seqZ_join (MakeDay 0 (k + 1) 1)) by lia.
    rewrite (seqZ_join (MakeDay 0 k 1)) by lia.
    rewrite (seqZ_join (MakeDay 0 (k - 1) 1)) by lia.
    rewrite F, L. do 2 f_equal. lia.
  - pose proof (day_in_its_month Y M (getDate today) HM ltac:(lia)) as I.
    cbv zeta in I. fold k in I.
    subst Y M. rewrite days_from_civil_from_days in I. lia.
Qed.

Lemma calendars_cover_window_witness :
  let home := home_calendars 19847 [] [] [] [] [] [] in
  let first := new_Date_fields (getFullYear 19847) (getMonth1 19847 - 2) 1 in
  let last := new_Date_fields (getFullYear 19847) (getMonth1 19847 + 2) 0 in
  concat (map (fun calendar => map date (days calendar))
             (workLocationCalendars home))
  = map formatDate (seqZ first (last - first + 1))
  /\ first <= 19847 <= last.
Proof.
  apply (calendars_cover_window 19847 [] [] [] [] [] []). vm_compute.
  split; discriminate.
Defined.

End HomeCalendarProperties.

Module HomeTodayProperties.
Import CalendarMath Js JsText HomeCalendar ByPerson.
Import CalendarFacts MonthFacts HomeCalendarFacts HomeCalendarLookups.

Lemma existsb_holiday (holidayEntries : list Holiday.t) (z : Z) :
  bool_decide (formatDate z ∈ holidaySet holidayEntries)
  = existsb (fun h => Holiday.holiday_date h =? z) holidayEntries.
Proof.
  apply eq_true_iff_eq.
  rewrite bool_decide_eq_true, holidaySet_spec, existsb_exists.
  split; intros (h & I & E); exists h.
  - split; [now apply list_elem_of_In | now apply Z.eqb_eq].
  - split; [now apply list_elem_of_In | now apply Z.eqb_eq].
Qed.

Lemma existsb_public_holiday (all : list PublicHoliday.t) (z : Z) :
  bool_decide (formatDate z ∈ publicHolidaySet all)
  = existsb (fun ph => PublicHoliday.holiday_date ph =? z) all.
Proof.
  apply eq_true_iff_eq.
  rewrite bool_decide_eq_true, publicHolidaySet_spec, existsb_exists.
  split; intros (h & I & E); exists h.
  - split; [now apply list_elem_of_In | now apply Z.eqb_eq].
  - split; [now apply list_elem_of_In | now apply Z.eqb_eq].
Qed.

(** The cell of today is found in the calendar of the current month. *)
Lemma todayInfo_found (locations : gmap string (option bool))
    (holidays publicHolidays : gset string) (today : Z) :
  1000 <= getFullYear today <= 9999 ->
  find (fun day => String.eqb (date day) (formatDate today))
       (days (buildLocationCalendar locations holidays publicHolidays
                (getMonth1 today) (getFullYear today)))
  = Some {| day := getDate today;
            date := formatDate today;
            isWeekend := CalendarMath.isWeekend today;
            isHoliday := bool_decide (formatDate today ∈ holidays);
            isPublicHoliday := bool_decide (formatDate today ∈ publicHolidays);
            is_onsite := default None (locations !! formatDate today);
            isRemote :=
              bool_decide (default None (locations !! formatDate today)
                           = Some false) |}.
Proof.
  intros Hy.
  pose proof (civil_ranges today) as [HM HD].
  pose proof (getDate_le_days_in_month today) as HD'.
  rewrite buildLocationCalendar_cells by assumption.
  rewrite (find_map_unique _ _ _ (getDate today)).
  - cbv zeta. rewrite days_from_civil_from_days. reflexivity.
  - apply elem_of_seqZ. lia.
  - intros d I. apply elem_of_seqZ in I. cbn [date].
    rewrite String.eqb_eq. split.
    + intros E. apply formatDate_inj in E.
      pose proof (days_from_civil_from_days today) as R.
      rewrite (days_from_civil_day _ _ d) in E.
      rewrite (days_from_civil_day _ _ (getDate today)) in R. lia.
    + intros ->. now rewrite days_from_civil_from_days.
Qed.

(** X17.  On the home page today counts as restricted exactly when it is a
    weekend day, a day with a holiday entry of the user, or a day of one of
    the public holidays of the four months; the reason names the public
    holiday before the personal holiday and that before the weekend, and is
    null exactly when today is not restricted.  The location of today is
    that of the last location entry of today, null when there is none. *)
Theorem today_restriction (today : Z)
    (locationEntries : list WorkLocation.t) (holidayEntries : list Holiday.t)
    (prevPublicHolidays publicHolidays nextPublicHolidays
       next2PublicHolidays : list PublicHoliday.t) :
  1000 <= getFullYear today <= 9999 ->
  let home :=
    home_calendars today locationEntries holidayEntries prevPublicHolidays
      publicHolidays nextPublicHolidays next2PublicHolidays in
  let publicHoliday :=
    existsb (fun ph => PublicHoliday.holiday_date ph =? today)
      (prevPublicHolidays ++ publicHolidays ++ nextPublicHolidays
       ++ next2PublicHolidays) in
  let holiday :=
    existsb (fun h => Holiday.holiday_date h =? today) holidayEntries in
  let weekend := CalendarMath.isWeekend today in
  isTodayRestricted home = weekend || holiday || publicHoliday
  /\ todayRestrictionReason home
     = (if publicHoliday then Some "święto"
        else if holiday then Some "urlop"
        else if weekend then Some "weekend"
        else None)
  /\ (todayRestrictionReason home = None <-> isTodayRestricted home = false)
  /\ todayLocation home
     = default None
         (WorkLocation.is_onsite
          <$> last (filter (fun l => WorkLocation.work_date l = today)
                           locationEntries)).
Proof.
  intros Hy home publicHoliday holiday weekend.
  subst home. unfold home_calendars.
  cbn [isTodayRestricted todayRestrictionReason todayLocation].
  simpl (_ !! 1%nat).
  cbn [mbind option_bind].
  rewrite todayInfo_found by assumption.
  cbn [isWeekend isHoliday isPublicHoliday].
  rewrite existsb_holiday, existsb_public_holiday, locationMap_lookup.
  fold publicHoliday holiday weekend.
  repeat match goal with |- _ /\ _ => split end; try reflexivity.
  destruct publicHoliday, holiday, weekend; cbn; split; congruence.
Qed.

Lemma today_restriction_witness :
  let home := home_calendars 19844 [remote_on 10 19844] may_holidays []
                [labour_day] [] [] in
  let publicHoliday :=
    existsb (fun ph => PublicHoliday.holiday_date ph =? 19844)
      ([] ++ [labour_day] ++ [] ++ []) in
  let holiday :=
    existsb (fun h => Holiday.holiday_date h =? 19844) may_holidays in
  let weekend := CalendarMath.isWeekend 19844 in
  isTodayRestricted home = weekend || holiday || publicHoliday
  /\ todayRestrictionReason home
     = (if publicHoliday then Some "święto"
        else if holiday then Some "urlop"
        else if weekend then Some "weekend"
        else None)
  /\ (todayRestrictionReason home = None <-> isTodayRestricted home = false)
  /\ todayLocation home
     = default None
         (WorkLocation.is_onsite
          <$> last (filter (fun l => WorkLocation.work_date l = 19844)
                           [remote_on 10 19844])).
Proof.
  apply (today_restriction 19844 [remote_on 10 19844] may_holidays []
           [labour_day] [] []).
  vm_compute. split; discriminate.
Defined.

End HomeTodayProperties.

(** ** Message codes and their texts *)

Module MessageFacts.
Import CalendarMath BusinessDays Js JsText AddHoliday Messages AddHolidayMessage.
Import CalendarFacts BusinessDaysFacts HandlerFacts.
#[local] Arguments String.append !_ _ / : simpl nomatch.

Lemma append_assoc (a b c : string) : (a +:+ b) +:+ c = a +:+ (b +:+ c).
Proof. induction a as [ | x a IH]; simpl; [reflexivity | now rewrite IH]. Qed.

Lemma append_empty_r (a : string) : a +:+ "" = a.
Proof. induction a as [ | x a IH]; simpl; [reflexivity | now rewrite IH]. Qed.

(** The digits of a number. *)
Lemma digits_of_uint (u : Decimal.uint) :
  Forall (fun c => is_Some (digit_value c))
         (list_ascii_of_string (NilEmpty.string_of_uint u)).
Proof.
  induction u; simpl; constructor; try assumption; vm_compute; eauto.
Qed.

Lemma count_text (n : Z) :
  0 <= n ->
  exists d rest,
    Number_toString n = String d rest
    /\ is_Some (digit_value d)
    /\ Forall (fun c => is_Some (digit_value c)) (list_ascii_of_string rest).
Proof.
  intros Hn. unfold Number_toString.
  assert (E : exists u, Z.to_int n = Decimal.Pos u).
  { destruct n as [ | p | p]; [ | | lia]; simpl; eauto. }
  destruct E as [u ->].
  destruct u; simpl.
  1: exists "0"%char, ""; split; [reflexivity | ];
       split; [vm_compute; eauto | constructor].
  all: eexists _, _; split; [reflexivity | ];
         split; [vm_compute; eauto | apply digits_of_uint].
Qed.

Section Digits.
Variables (c : ascii) (p : string).
Hypothesis not_digit : digit_value c = None.

Lemma prefix_digit (d : ascii) (s : string) :
  is_Some (digit_value d) -> String.prefix (String c p) (String d s) = false.
Proof.
  intros [v Hv]. cbn [String.prefix].
  destruct (ascii_dec c d) as [-> | _]; [ | reflexivity].
  congruence.
Qed.

Lemma includes_digits (s t : string) :
  Forall (fun c => is_Some (digit_value c)) (list_ascii_of_string s) ->
  includes (s +:+ t) (String c p) = includes t (String c p).
Proof.
  induction s as [ | d s IH]; intros D; [reflexivity | ].
  inversion D as [ | ? ? Hd D']; subst.
  change (String d s +:+ t) with (String d (s +:+ t)).
  cbn [includes]. rewrite (prefix_digit d _ Hd). now apply IH.
Qed.

Lemma replace_digits (s t r : string) :
  Forall (fun c => is_Some (digit_value c)) (list_ascii_of_string s) ->
  replace (s +:+ t) (String c p) r = s +:+ replace t (String c p) r.
Proof.
  induction s as [ | d s IH]; intros D; [reflexivity | ].
  inversion D as [ | ? ? Hd D']; subst.
  change (String d s +:+ t) with (String d (s +:+ t)).
  cbn [replace]. rewrite (prefix_digit d _ Hd). now rewrite IH.
Qed.

End Digits.

(** The tests and the replacements of the success text on a code that
    starts with "added_" and a number. *)
Section Code.
Variables (d : ascii) (rest tail : string).
Hypothesis digit_d : is_Some (digit_value d).
Hypothesis digits_rest :
  Forall (fun c => is_Some (digit_value c)) (list_ascii_of_string rest).

Lemma code_startsWith :
  startsWith ("added_" +:+ String d rest +:+ tail) "added_" = true.
Proof. reflexivity. Qed.

Lemma code_without_added :
  replace ("added_" +:+ String d rest +:+ tail) "added_" ""
  = String d rest +:+ tail.
Proof. reflexivity. Qed.

Lemma code_includes (c : ascii) (p : string) :
  digit_value c = None ->
  includes ("added_" +:+ String d rest +:+ tail) (String "_" (String c p))
  = includes tail (String "_" (String c p)).
Proof.
  intros Hc.
  change ("added_" +:+ String d rest +:+ tail)
    with (String "a" (String "d" (String "d" (String "e" (String "d"
           (String "_" (String d (rest +:+ tail)))))))).
  cbn [includes].
  assert (P : forall x s, x <> "_"%char ->
                String.prefix (String "_" (String c p)) (String x s) = false).
  { intros x s N. cbn [String.prefix].
    destruct (ascii_dec "_" x) as [E | _]; [ | reflexivity].
    now subst x. }
  rewrite !P by discriminate.
  assert (Q : String.prefix (String "_" (String c p))
                (String "_" (String d (rest +:+ tail))) = false).
  { change (String.prefix (String "_" (String c p))
              (String "_" (String d (rest +:+ tail))))
      with (String.prefix (String c p) (String d (rest +:+ tail))).
    now apply prefix_digit. }
  rewrite Q. cbn [orb].
  rewrite (prefix_digit "_" (String c p) eq_refl d _ digit_d). cbn [orb].
  now apply includes_digits.
Qed.

Lemma count_without (p r : string) :
  replace (String d rest +:+ tail) (String "_" p) r
  = String d rest +:+ replace tail (String "_" p) r.
Proof.
  apply (replace_digits "_" p eq_refl (String d rest)).
  now constructor.
Qed.

End Code.

End MessageFacts.

Module SuccessMessageFacts.
Import CalendarMath BusinessDays Js JsText AddHoliday Messages AddHolidayMessage.
Import CalendarFacts BusinessDaysFacts HandlerFacts MessageFacts.
Import HomeCalendarFacts.
#[local] Arguments String.append !_ _ / : simpl nomatch.

(** The text for the code of a request that added several days. *)
Lemma success_text_days (d : ascii) (rest : string) (weekends holidays : bool) :
  is_Some (digit_value d) ->
  Forall (fun c => is_Some (digit_value c)) (list_ascii_of_string rest) ->
  success_text (("added_" +:+ String d rest +:+ "_days")
                +:+ excluded_suffix weekends holidays)
  = Text ("Pomyślnie dodano " +:+ String d rest +:+ " dni urlopowych."
          +:+ excluded_sentence weekends holidays).
Proof.
  intros Hd Hr.
  rewrite (append_assoc "added_"), (append_assoc (String d rest)).
  unfold success_text.
  rewrite (code_startsWith d rest).
  rewrite !(code_includes d rest _ Hd Hr) by reflexivity.
  rewrite (code_without_added d rest).
  rewrite !(count_without d rest _ Hd Hr).
  destruct weekends, holidays; vm_compute excluded_suffix;
    vm_compute excluded_sentence;
    repeat match goal with
    | |- context [includes ?t ?p] =>
        let b := eval vm_compute in (includes t p) in
        change (includes t p) with b
    end;
    cbn [andb];
    repeat match goal with
    | |- context [replace ?t ?p ""] =>
        let b := eval vm_compute in (replace t p "") in
        change (replace t p "") with b
    end;
    rewrite append_empty_r; reflexivity.
Qed.

(** The flags after the loop over the days of the interval. *)
Lemma exclusion_flags_spec (s total : Z) (publicHolidays : list PublicHoliday.t) :
  exclusion_flags s total publicHolidays
  = (existsb isWeekend (seqZ s total),
     existsb (fun d => existsb (fun ph => PublicHoliday.holiday_date ph =? d)
                               publicHolidays)
             (seqZ s total)).
Proof.
  unfold exclusion_flags.
  replace (seqZ s total) with (Z.add s <$> seqZ 0 total)
    by (rewrite fmap_add_seqZ; f_equal; lia).
  assert (G : forall l a b,
            foldl (check_day s publicHolidays) (a, b) l
            = (a || existsb isWeekend (Z.add s <$> l),
               b || existsb (fun d =>
                               existsb (fun ph =>
                                          PublicHoliday.holiday_date ph =? d)
                                       publicHolidays)
                            (Z.add s <$> l))).
  { induction l as [ | i l IH]; intros a b.
    - simpl. now rewrite !orb_false_r.
    - cbn [foldl]. unfold check_day at 2. rewrite IH.
      cbn [fmap list_fmap existsb]. unfold isWeekend at 2.
      assert (E : existsb (fun ph =>
                             String.eqb
                               (formatDate (PublicHoliday.holiday_date ph))
                               (formatDate (s + i))) publicHolidays
                  = existsb (fun ph => PublicHoliday.holiday_date ph =? s + i)
                            publicHolidays).
      { apply eq_true_iff_eq. rewrite start_is_public_holiday, existsb_exists.
        split; intros (ph & I & E); exists ph.
        - split; [now apply list_elem_of_In | now apply Z.eqb_eq].
        - split; [now apply list_elem_of_In | now apply Z.eqb_eq]. }
      rewrite E.
      destruct ((getDay (s + i) =? 0) || (getDay (s + i) =? 6)),
        (existsb (fun ph => PublicHoliday.holiday_date ph =? s + i)
                 publicHolidays), a, b; reflexivity. }
  apply G.
Qed.

Lemma filter_length_all {A} (P : A -> Prop) `{forall x, Decision (P x)}
    (l : list A) :
  length (filter P l) = length l <-> Forall P l.
Proof.
  induction l as [ | x l IH].
  - split; [constructor | reflexivity].
  - rewrite filter_cons. pose proof (length_filter P l) as B.
    destruct (decide (P x)) as [Px | NPx]; simpl.
    + rewrite Forall_cons. split.
      * intros E. split; [exact Px | ]. apply IH. lia.
      * intros [_ F]. f_equal. now apply IH.
    + rewrite Forall_cons. split; [lia | tauto].
Qed.

(** Every day of a list is a business day exactly when none is a weekend
    day and none is the day of a public holiday. *)
Lemma all_business_days (publicHolidays : list PublicHoliday.t) (days : list Z) :
  Forall (business_day (publicHolidayDates publicHolidays)) days
  <-> existsb isWeekend days = false
      /\ existsb (fun d => existsb (fun ph => PublicHoliday.holiday_date ph =? d)
                                   publicHolidays) days = false.
Proof.
  induction days as [ | d days IH].
  - split; [now split | constructor].
  - rewrite Forall_cons, IH. cbn [existsb]. rewrite !orb_false_iff.
    unfold business_day. rewrite publicHolidayDates_spec.
    assert (E : existsb (fun ph => PublicHoliday.holiday_date ph =? d)
                        publicHolidays = false
                <-> ~ (exists ph, ph ∈ publicHolidays
                                  /\ PublicHoliday.holiday_date ph = d)).
    { rewrite <- not_true_iff_false, existsb_exists.
      split; intros N (ph & I & E); apply N; exists ph.
      - split; [now apply list_elem_of_In | now apply Z.eqb_eq].
      - split; [now apply list_elem_of_In | now apply Z.eqb_eq]. }
    rewrite E. tauto.
Qed.

(** The success code, by the days of the interval. *)
Lemma successMessage_code (start_date actualEndDate : string)
    (publicHolidays : list PublicHoliday.t) :
  let holidayDates := generateDateRange start_date actualEndDate publicHolidays in
  let days := interval_days start_date actualEndDate in
  let weekends := existsb isWeekend days in
  let holidays :=
    existsb (fun d => existsb (fun ph => PublicHoliday.holiday_date ph =? d)
                              publicHolidays) days in
  let daysCount := Z.of_nat (length holidayDates) in
  successMessage start_date actualEndDate publicHolidays holidayDates
  = (if 1 <? daysCount
     then "added_" +:+ Number_toString daysCount +:+ "_days"
     else "added")
    +:+ excluded_suffix weekends holidays
  /\ (length holidayDates = length days
      <-> weekends = false /\ holidays = false).
Proof.
  intros holidayDates days weekends holidays daysCount.
  assert (Len : length holidayDates
                = length (filter (business_day (publicHolidayDates publicHolidays))
                                 days)).
  { subst holidayDates. now rewrite generateDateRange_spec, length_map. }
  assert (All : length holidayDates = length days
                <-> weekends = false /\ holidays = false).
  { rewrite Len, filter_length_all. apply all_business_days. }
  split; [ | exact All].
  pose proof (length_filter (business_day (publicHolidayDates publicHolidays))
                days) as Bound.
  unfold successMessage. fold daysCount.
  set (base := if 1 <? daysCount
               then "added_" +:+ Number_toString daysCount +:+ "_days"
               else "added").
  assert (Empty : days = [] -> base = base +:+ excluded_suffix weekends holidays).
  { intros E. subst weekends holidays. rewrite E. simpl.
    now rewrite append_empty_r. }
  unfold interval_days in days.
  destruct (new_Date start_date) as [ | s];
    [now apply Empty | ].
  destruct (new_Date actualEndDate) as [ | e]; cbn [totalDayCount];
    [now apply Empty | ].
  set (total := e - s + 1) in *.
  rewrite exclusion_flags_spec.
  destruct (Z.le_gt_cases total 0) as [NP | Pos].
  - assert (E : days = []).
    { subst days. replace (Z.to_nat total) with O by lia. reflexivity. }
    replace (daysCount <? total) with false by lia. now apply Empty.
  - assert (E : days = seqZ s total).
    { subst days. rewrite day_seq_seqZ. f_equal. lia. }
    rewrite <- E. fold weekends holidays.
    destruct (Z.ltb_spec daysCount total) as [Lt | Ge].
    + unfold excluded_suffix.
      destruct weekends, holidays; cbn [andb]; try reflexivity.
      now rewrite append_empty_r.
    + assert (L : length holidayDates = length days).
      { rewrite E, length_seqZ in *. lia. }
      apply All in L as [-> ->]. simpl. now rewrite append_empty_r.
Qed.

(** A request that succeeds has a start date, has read the public
    holidays and has generated at least one day. *)
Lemma success_request (w : World) (userId : N) (body : Body)
    (table : list HolidayRow) (dates : list string) :
  (post_holidays w userId body table).1 = success dates ->
  exists start phs,
    truthy (start_date body) = Some start
    /\ findByDateRange w start (default start (truthy (end_date body)))
       = Some phs
    /\ dates
       = generateDateRange start (default start (truthy (end_date body))) phs
    /\ dates <> [].
Proof.
  unfold post_holidays, check_and_write.
  destruct (truthy (start_date body)) as [start | ] eqn:ES; [ | discriminate].
  destruct (bool_decide _); [discriminate | ].
  destruct (findByDateRange w start _) as [phs | ] eqn:EP; [ | discriminate].
  destruct (formatDate_input start); [ | discriminate].
  destruct (existsb _ phs); [discriminate | ].
  destruct (length _ =? 0)%nat eqn:L; [discriminate | ].
  destruct (transaction _ table); [ | discriminate].
  cbn [fst]. intros [= <-]. exists start, phs.
  repeat match goal with |- _ /\ _ => split end;
    try reflexivity; try assumption.
  intros E. rewrite E in L. discriminate L.
Qed.

(** The messages prepared for the page after a request that succeeds. *)
Lemma success_prepared (w : World) (userId : N) (body : Body)
    (table : list HolidayRow) (holidayDates : list string) :
  (post_holidays w userId body table).1 = success holidayDates ->
  let start := default "" (truthy (start_date body)) in
  let actualEndDate := default start (truthy (end_date body)) in
  let publicHolidays := default [] (findByDateRange w start actualEndDate) in
  let days := interval_days start actualEndDate in
  let weekends := existsb isWeekend days in
  let holidays :=
    existsb (fun d => existsb (fun ph => PublicHoliday.holiday_date ph =? d)
                              publicHolidays) days in
  let daysCount := Z.of_nat (length holidayDates) in
  prepareMessages (Some (redirect_query w userId body table))
  = {| result_success :=
         Some (Text
           ((if 1 <? daysCount
             then "Pomyślnie dodano " +:+ Number_toString daysCount
                  +:+ " dni urlopowych."
             else if weekends || holidays then "Pomyślnie dodano urlop."
             else "Pomyślnie dodano wpis.")
            +:+ excluded_sentence weekends holidays));
       result_error := None;
       result_info := None;
       result_warning := None |}.
Proof.
  intros S start actualEndDate publicHolidays days weekends holidays daysCount.
  destruct (success_request _ _ _ _ _ S) as (start0 & phs & ES & EP & ED & NE).
  assert (E1 : start = start0) by (subst start; now rewrite ES).
  assert (E2 : publicHolidays = phs).
  { subst publicHolidays actualEndDate. rewrite E1. now rewrite EP. }
  unfold redirect_query. rewrite S. fold start actualEndDate publicHolidays.
  unfold prepareMessages. cbn [Query.success Query.error Query.info Query.warning].
  assert (ED' : holidayDates
                = generateDateRange start actualEndDate publicHolidays).
  { rewrite E2. subst actualEndDate. rewrite E1. exact ED. }
  pose proof (successMessage_code start actualEndDate publicHolidays)
    as [M _]. cbv zeta in M. rewrite <- ED' in M.
  fold days weekends holidays daysCount in M. rewrite M.
  assert (T : forall code, code <> "" -> truthy (Some code) = Some code).
  { intros [ | c code] N; [congruence | reflexivity]. }
  assert (Pos : 1 <= daysCount).
  { subst daysCount. destruct holidayDates; [congruence | simpl; lia]. }
  destruct (Z.ltb_spec 1 daysCount) as [Many | One].
  - destruct (count_text daysCount ltac:(lia)) as (d & rest & EN & Hd & Hr).
    rewrite EN. rewrite T by (simpl; discriminate).
    cbn [fmap option_fmap option_map truthy].
    rewrite success_text_days by assumption.
    rewrite !append_assoc. reflexivity.
  - destruct weekends, holidays; reflexivity.
Qed.

End SuccessMessageFacts.

Module SuccessMessageProperties.
Import CalendarMath BusinessDays Js JsText AddHoliday Messages AddHolidayMessage.
Import CalendarFacts BusinessDaysFacts HandlerFacts MessageFacts.
Import HomeCalendarFacts SuccessMessageFacts.
#[local] Arguments String.append !_ _ / : simpl nomatch.

(** X4.  The success code of the add-holiday handler names the kinds of days
    that the interval holds: the weekend part is there exactly when a
    Saturday or a Sunday lies in the interval, the holiday part exactly
    when the day of a public holiday lies in it (also one that falls on a
    weekend), and no part when neither does.  The days added are all the
    days of the interval exactly when the code has no such part. *)
Theorem successMessage_exclusions (start_date actualEndDate : string)
    (publicHolidays : list PublicHoliday.t) :
  let holidayDates := generateDateRange start_date actualEndDate publicHolidays in
  let days := interval_days start_date actualEndDate in
  let weekends := existsb isWeekend days in
  let holidays :=
    existsb (fun d => existsb (fun ph => PublicHoliday.holiday_date ph =? d)
                              publicHolidays) days in
  let daysCount := Z.of_nat (length holidayDates) in
  successMessage start_date actualEndDate publicHolidays holidayDates
  = (if 1 <? daysCount
     then "added_" +:+ Number_toString daysCount +:+ "_days"
     else "added")
    +:+ excluded_suffix weekends holidays
  /\ (length holidayDates = length days
      <-> weekends = false /\ holidays = false).
Proof. apply successMessage_code. Qed.


End SuccessMessageProperties.

Module RedirectProperties.
Import CalendarMath BusinessDays Js JsText AddHoliday Messages AddHolidayMessage.
Import CalendarFacts BusinessDaysFacts HandlerFacts MessageFacts.
Import HomeCalendarFacts SuccessMessageFacts SuccessMessageProperties.
#[local] Arguments String.append !_ _ / : simpl nomatch.

(** X5.  After a request that succeeds the page shows the number of days added
    and the kinds of days left out: for several days "Pomyślnie dodano n
    dni urlopowych.", for one day "Pomyślnie dodano wpis." or, when days
    were left out, "Pomyślnie dodano urlop.", followed by the sentence
    about weekends and public holidays; no error is shown. *)
Theorem success_text_shown (w : World) (userId : N) (body : Body)
    (table : list HolidayRow) (holidayDates : list string) :
  (post_holidays w userId body table).1 = success holidayDates ->
  let start := default "" (truthy (start_date body)) in
  let actualEndDate := default start (truthy (end_date body)) in
  let publicHolidays := default [] (findByDateRange w start actualEndDate) in
  let days := interval_days start actualEndDate in
  let weekends := existsb isWeekend days in
  let holidays :=
    existsb (fun d => existsb (fun ph => PublicHoliday.holiday_date ph =? d)
                              publicHolidays) days in
  let daysCount := Z.of_nat (length holidayDates) in
  prepareMessages (Some (redirect_query w userId body table))
  = {| result_success :=
         Some (Text
           ((if 1 <? daysCount
             then "Pomyślnie dodano " +:+ Number_toString daysCount
                  +:+ " dni urlopowych."
             else if weekends || holidays then "Pomyślnie dodano urlop."
             else "Pomyślnie dodano wpis.")
            +:+ excluded_sentence weekends holidays));
       result_error := None;
       result_info := None;
       result_warning := None |}.
Proof. apply success_prepared. Qed.

Lemma success_text_shown_witness :
  let w := quiet_world [ByPerson.labour_day] in
  let body := {| start_date := Some "2024-04-29";
                 end_date := Some "2024-05-06" |} in
  prepareMessages (Some (redirect_query w 7 body []))
  = {| result_success :=
         Some (Text "Pomyślnie dodano 5 dni urlopowych. Pominięto weekendy i dni ustawowo wolne.");
       result_error := None;
       result_info := None;
       result_warning := None |}.
Proof.
  apply (success_text_shown (quiet_world [ByPerson.labour_day]) 7
           {| start_date := Some "2024-04-29"; end_date := Some "2024-05-06" |}
           []
           ["2024-04-29"; "2024-04-30"; "2024-05-02"; "2024-05-03";
            "2024-05-06"]).
  vm_compute. reflexivity.
Defined.

(** X6.  After a request that is rejected the page shows the sentence of the
    rejection, one for each kind of rejection, and no success text: a
    missing start date, a start on a weekend, a start on a public holiday,
    an interval without a business day and a failure each have a text of
    their own in the table of the messages. *)
Theorem rejection_text_shown (w : World) (userId : N) (body : Body)
    (table : list HolidayRow) :
  let shown := prepareMessages (Some (redirect_query w userId body table)) in
  match (post_holidays w userId body table).1 with
  | invalid_date =>
      result_error shown = Some (Text "Proszę wybrać prawidłową datę.")
      /\ result_success shown = None
  | weekend_not_allowed =>
      result_error shown = Some (Text "Nie można ustawić urlopu w weekend.")
      /\ result_success shown = None
  | public_holiday_not_allowed =>
      result_error shown
      = Some (Text "Nie można ustawić urlopu w dzień ustawowo wolny.")
      /\ result_success shown = None
  | no_valid_days =>
      result_error shown
      = Some (Text "Wybrany zakres nie zawiera żadnych dni roboczych (wykluczono weekendy i dni ustawowo wolne).")
      /\ result_success shown = None
  | failed =>
      result_error shown = Some (Text "Wystąpił błąd. Spróbuj ponownie.")
      /\ result_success shown = None
  | success _ => result_error shown = None /\ is_Some (result_success shown)
  end.
Proof.
  intros shown. subst shown. unfold redirect_query.
  destruct (post_holidays w userId body table).1 eqn:O;
    try (split; reflexivity).
  split; [reflexivity | ].
  pose proof (success_prepared w userId body table holidayDates O) as T.
  cbv zeta in T. unfold redirect_query in T. rewrite O in T.
  rewrite T. cbn [result_success]. eauto.
Qed.

End RedirectProperties.

(** ** Deleting a holiday *)

Module DeleteHolidayProperties.
Import DeleteHoliday.

Lemma findById_Some (table : list Entry) (entryId : N) (entry : Entry) :
  findById table entryId = Some entry -> entry ∈ table /\ id entry = entryId.
Proof.
  unfold findById. intros F. apply find_some in F as [I E].
  split; [now apply list_elem_of_In | now apply N.eqb_eq].
Qed.

(** X7.  The delete handler removes an entry only for its owner or for an
    administrator: the redirect is [deleted] exactly when the read and the
    delete succeed and the entry exists and belongs to the requester or
    the requester is an administrator; then the rows with the id of the
    request are gone and every other row is kept.  In every other case the
    table is unchanged. *)
Theorem delete_holiday_authorized (w : World) (user : Requester) (entryId : N)
    (table : list Entry) :
  let redirect := (delete_holiday w user entryId table).1 in
  let table' := (delete_holiday w user entryId table).2 in
  (redirect = deleted
   <-> find_ok w = true /\ delete_ok w = true
       /\ exists entry, findById table entryId = Some entry
                        /\ (user_id entry = userId user \/ isAdmin user = true))
  /\ (redirect = deleted ->
      table' = filter (fun entry => id entry <> entryId) table)
  /\ (redirect <> deleted -> table' = table).
Proof.
  intros redirect table'. subst redirect table'. unfold delete_holiday.
  destruct (find_ok w); cbn [negb].
  2: { cbn. repeat match goal with |- _ /\ _ => split end; easy. }
  destruct (findById table entryId) as [entry | ] eqn:F.
  2: { destruct (isAdmin user); cbn;
         repeat match goal with |- _ /\ _ => split end; try easy;
         (split; [discriminate | intros (_ & _ & e & ? & _); discriminate]). }
  apply findById_Some in F as [I E].
  destruct (N.eqb_spec (user_id entry) (userId user)) as [Own | NotOwn];
    destruct (isAdmin user) eqn:A; destruct (delete_ok w); cbn;
    repeat match goal with |- _ /\ _ => split end;
    try easy;
    try (intros _; unfold delete; now rewrite E);
    first
      [ split; [discriminate | intros (_ & ? & _); discriminate]
      | split; [discriminate
               | intros (_ & _ & e & [= <-] & [? | ?]); congruence]
      | split; [intros _; repeat split; exists entry;
                split; [reflexivity | tauto]
               | reflexivity] ].
Qed.

(** X8.  For an entry that does not exist the handler answers [not_found] to a
    user and [failed] to an administrator, for whom the missing entry is
    only met at the delete; the table is unchanged. *)
Theorem delete_missing_entry (w : World) (user : Requester) (entryId : N)
    (table : list Entry) :
  find_ok w = true ->
  (forall entry, entry ∈ table -> id entry <> entryId) ->
  delete_holiday w user entryId table
  = (if isAdmin user then failed else not_found, table).
Proof.
  intros F Missing. unfold delete_holiday. rewrite F. cbn [negb].
  destruct (findById table entryId) as [entry | ] eqn:E.
  - apply findById_Some in E as [I E]. now apply Missing in I.
  - now destruct (isAdmin user).
Qed.

Lemma delete_missing_entry_witness :
  delete_holiday {| find_ok := true; delete_ok := true |}
    {| userId := 1; isAdmin := true |} 7
    [ {| id := 3; user_id := 2; holiday_date := "2024-05-06" |} ]
  = (failed, [ {| id := 3; user_id := 2; holiday_date := "2024-05-06" |} ]).
Proof.
  apply (delete_missing_entry {| find_ok := true; delete_ok := true |}
           {| userId := 1; isAdmin := true |} 7
           [ {| id := 3; user_id := 2; holiday_date := "2024-05-06" |} ]).
  - reflexivity.
  - intros entry I. apply list_elem_of_singleton in I. subst entry. simpl. lia.
Defined.

End DeleteHolidayProperties.

(** ** The by-date view *)

Module ByDateFacts.
Import CalendarMath Js ByDate.
Import CalendarFacts ByPersonFacts.

Section Objects.
Context {V : Type}.

Lemma str_get_None (k : string) (o : list (string * V)) :
  str_get k o = None <-> k ∉ map fst o.
Proof.
  induction o as [ | [k' v] o IH]; simpl.
  - split; [intros _; apply not_elem_of_nil | reflexivity].
  - rewrite not_elem_of_cons.
    destruct (String.eqb_spec k k') as [-> | NE].
    + split; [discriminate | intros [N _]; congruence].
    + rewrite IH. tauto.
Qed.

Lemma str_get_snoc (k k' : string) (v : V) (o : list (string * V)) :
  str_get k (o ++ [(k', v)])
  = match str_get k o with
    | Some x => Some x
    | None => if String.eqb k k' then Some v else None
    end.
Proof.
  induction o as [ | [k0 v0] o IH]; simpl; [reflexivity | ].
  destruct (String.eqb k k0); [reflexivity | exact IH].
Qed.

Lemma str_get_update (k k' : string) (f : V -> V) (o : list (string * V)) :
  str_get k (str_update k' f o)
  = if String.eqb k k' then f <$> str_get k o else str_get k o.
Proof.
  induction o as [ | [k0 v0] o IH]; simpl.
  - now destruct (String.eqb k k').
  - destruct (String.eqb_spec k' k0) as [-> | NE]; simpl.
    + destruct (String.eqb_spec k k0) as [-> | NE']; reflexivity.
    + destruct (String.eqb_spec k k0) as [-> | NE'].
      * destruct (String.eqb_spec k0 k') as [<- | _]; [congruence | reflexivity].
      * exact IH.
Qed.

Lemma str_update_keys (k : string) (f : V -> V) (o : list (string * V)) :
  map fst (str_update k f o) = map fst o.
Proof.
  induction o as [ | [k0 v0] o IH]; simpl; [reflexivity | ].
  destruct (String.eqb k k0); simpl; [reflexivity | now rewrite IH].
Qed.

End Objects.

Section Display.
Variables formatDayAndMonthGenitive getDayOfWeekName : Z -> string.


(** The view is one pass over the holidays in the order of the scan. *)
Lemma groupByDate_scan (allUsers : list User.t) (allHolidays : list Holiday.t) :
  groupByDate formatDayAndMonthGenitive getDayOfWeekName allUsers allHolidays
  = foldl (fun acc p =>
             add_employee formatDayAndMonthGenitive getDayOfWeekName
               p.1 acc p.2) []
          (scanned allUsers allHolidays).
Proof.
  unfold groupByDate, scanned. generalize (@nil (string * DateEntry)).
  induction allUsers as [ | u rest IH]; intros acc; [reflexivity | ].
  cbn [foldl flat_map]. rewrite foldl_app, IH. f_equal.
  rewrite holidaysByUser_lookup.
  generalize (filter (fun h => Holiday.user_id h = User.id u) allHolidays).
  intros hs. revert acc. induction hs as [ | h hs IHh]; intros acc;
    [reflexivity | ].
  cbn [foldl map]. apply IHh.
Qed.

Lemma add_employee_keys (user : User.t) (acc : list (string * DateEntry))
    (holiday : Holiday.t) :
  map fst (add_employee formatDayAndMonthGenitive getDayOfWeekName user acc
     holiday)
  = let key := formatDate (Holiday.holiday_date holiday) in
    if bool_decide (key ∈ map fst acc) then map fst acc
    else map fst acc ++ [key].
Proof.
  unfold add_employee. cbv zeta. rewrite str_update_keys.
  destruct (str_get _ acc) as [e | ] eqn:G.
  - rewrite bool_decide_eq_true_2; [reflexivity | ].
    destruct (decide (formatDate (Holiday.holiday_date holiday) ∈ map fst acc))
      as [I | N]; [exact I | ].
    apply str_get_None in N. congruence.
  - apply str_get_None in G. rewrite bool_decide_eq_false_2 by exact G.
    now rewrite map_app.
Qed.

Lemma add_employee_get (user : User.t) (acc : list (string * DateEntry))
    (holiday : Holiday.t) (k : string) :
  str_get k (add_employee formatDayAndMonthGenitive getDayOfWeekName user acc
     holiday)
  = let key := formatDate (Holiday.holiday_date holiday) in
    if String.eqb k key
    then Some
           match str_get k acc with
           | Some entry =>
               {| date := date entry; day_of_week := day_of_week entry;
                  employees := employees entry ++ [date_employee user] |}
           | None =>
               {| date :=
                    formatDayAndMonthGenitive (Holiday.holiday_date holiday);
                  day_of_week := getDayOfWeekName (Holiday.holiday_date holiday);
                  employees := [date_employee user] |}
           end
    else str_get k acc.
Proof.
  unfold add_employee. cbv zeta. rewrite str_get_update.
  destruct (String.eqb_spec k (formatDate (Holiday.holiday_date holiday)))
    as [-> | NE].
  - destruct (str_get _ acc) as [e | ] eqn:G.
    + rewrite G. reflexivity.
    + rewrite str_get_snoc, G, String.eqb_refl. reflexivity.
  - destruct (str_get (formatDate _) acc) as [e | ] eqn:G; [reflexivity | ].
    rewrite str_get_snoc.
    destruct (str_get k acc); [reflexivity | ].
    now apply String.eqb_neq in NE as ->.
Qed.

(** The entry of a day after a pass over a list of holidays. *)
Lemma scan_get (ps : list (User.t * Holiday.t)) (d : Z) :
  str_get (formatDate d) (foldl (fun acc p =>
              add_employee formatDayAndMonthGenitive getDayOfWeekName
                p.1 acc p.2) [] ps)
  = let on_day := filter (fun p => Holiday.holiday_date p.2 = d) ps in
    match on_day with
    | [] => None
    | _ :: _ =>
        Some {| date := formatDayAndMonthGenitive d;
                day_of_week := getDayOfWeekName d;
                employees := map (fun p => date_employee p.1) on_day |}
    end.
Proof.
  induction ps as [ | [u h] ps IH] using rev_ind; [reflexivity | ].
  rewrite foldl_app. cbn [foldl fst snd].
  rewrite add_employee_get. cbv zeta. rewrite IH. cbv zeta.
  rewrite filter_app, filter_cons, filter_nil. cbn [snd].
  destruct (decide (Holiday.holiday_date h = d)) as [E | NE].
  - rewrite E, String.eqb_refl.
    destruct (filter _ ps) as [ | p on_day]; [reflexivity | ].
    cbn [app date day_of_week employees map]. rewrite map_app. reflexivity.
  - assert (F : String.eqb (formatDate d) (formatDate (Holiday.holiday_date h))
                = false).
    { apply String.eqb_neq. intros F. apply formatDate_inj in F. congruence. }
    rewrite F, app_nil_r. reflexivity.
Qed.

Lemma scan_keys (ps : list (User.t * Holiday.t)) :
  map fst (foldl (fun acc p =>
              add_employee formatDayAndMonthGenitive getDayOfWeekName
                p.1 acc p.2) [] ps)
  = first_occurrences
      (map (fun p => formatDate (Holiday.holiday_date p.2)) ps).
Proof.
  unfold first_occurrences.
  assert (G : forall acc,
            map fst (foldl (fun acc p =>
                              add_employee formatDayAndMonthGenitive
                                getDayOfWeekName p.1 acc p.2) acc ps)
            = foldl (fun seen key =>
                       if bool_decide (key ∈ seen) then seen else seen ++ [key])
                    (map fst acc)
                    (map (fun p => formatDate (Holiday.holiday_date p.2)) ps)).
  { induction ps as [ | [u h] ps IH]; intros acc; [reflexivity | ].
    cbn [foldl map fst snd]. rewrite IH, add_employee_keys. reflexivity. }
  apply G.
Qed.

End Display.

Lemma str_get_elem {V} (k : string) (v : V) (o : list (string * V)) :
  NoDup (map fst o) -> (k, v) ∈ o -> str_get k o = Some v.
Proof.
  induction o as [ | [k0 v0] o IH]; intros N I; [now apply elem_of_nil in I | ].
  simpl in *. apply NoDup_cons in N as [N0 N].
  apply elem_of_cons in I as [[= -> ->] | I].
  - now rewrite String.eqb_refl.
  - destruct (String.eqb_spec k k0) as [-> | NE]; [ | now apply IH].
    exfalso. apply N0. apply list_elem_of_fmap. now exists (k0, v).
Qed.

Lemma first_occurrences_NoDup (keys : list string) :
  NoDup (first_occurrences keys).
Proof.
  unfold first_occurrences.
  assert (G : forall seen, NoDup seen ->
            NoDup (foldl (fun seen key =>
                            if bool_decide (key ∈ seen) then seen
                            else seen ++ [key]) seen keys)).
  { induction keys as [ | k keys IH]; intros seen N; [exact N | ].
    cbn [foldl]. apply IH. destruct (bool_decide_reflect (k ∈ seen)) as [I | NI];
      [exact N | ].
    apply NoDup_app. split; [exact N | ]. split.
    - intros x Ix Ik. apply list_elem_of_singleton in Ik. now subst x.
    - apply NoDup_singleton. }
  apply G. constructor.
Qed.

Lemma first_occurrences_elem (keys : list string) (k : string) :
  k ∈ first_occurrences keys <-> k ∈ keys.
Proof.
  unfold first_occurrences.
  assert (G : forall seen,
            k ∈ foldl (fun seen key =>
                         if bool_decide (key ∈ seen) then seen
                         else seen ++ [key]) seen keys
            <-> k ∈ seen \/ k ∈ keys).
  { induction keys as [ | k0 keys IH]; intros seen.
    - simpl. rewrite elem_of_nil. tauto.
    - cbn [foldl]. rewrite IH, elem_of_cons.
      destruct (bool_decide_reflect (k0 ∈ seen)) as [I | NI].
      + split; [tauto | ]. intros [? | [-> | ?]]; tauto.
      + rewrite elem_of_app, list_elem_of_singleton. tauto. }
  rewrite G, elem_of_nil. tauto.
Qed.

End ByDateFacts.

Module ByDateProperties.
Import CalendarMath Js ByDate.
Import CalendarFacts ByPersonFacts ByDateFacts.

(** X9.  In the by-date view the entry of a day lists one employee for every
    holiday record of that day that belongs to a user of the directory:
    the users in the order of the directory, a user once for each record,
    under the display texts of the day.  A day has an entry exactly when
    some user of the directory has a holiday record on it; the records of
    users who are not in the directory are not shown. *)
Theorem groupByDate_employees
    (formatDayAndMonthGenitive getDayOfWeekName : Z -> string)
    (allUsers : list User.t) (allHolidays : list Holiday.t) (d : Z) :
  let view :=
    groupByDate formatDayAndMonthGenitive getDayOfWeekName allUsers
      allHolidays in
  let on_day :=
    filter (fun p => Holiday.holiday_date p.2 = d)
           (scanned allUsers allHolidays) in
  str_get (formatDate d) view
  = match on_day with
    | [] => None
    | _ :: _ =>
        Some {| date := formatDayAndMonthGenitive d;
                day_of_week := getDayOfWeekName d;
                employees := map (fun p => date_employee p.1) on_day |}
    end
  /\ (is_Some (str_get (formatDate d) view)
      <-> exists user holiday,
            user ∈ allUsers /\ holiday ∈ allHolidays
            /\ Holiday.user_id holiday = User.id user
            /\ Holiday.holiday_date holiday = d).
Proof.
  intros view on_day. subst view.
  rewrite groupByDate_scan, scan_get. cbv zeta. fold on_day.
  split; [reflexivity | ].
  assert (M : forall p, p ∈ on_day
              <-> p.1 ∈ allUsers /\ p.2 ∈ allHolidays
                  /\ Holiday.user_id p.2 = User.id p.1
                  /\ Holiday.holiday_date p.2 = d).
  { intros [u h]. subst on_day. unfold scanned.
    rewrite list_elem_of_filter, list_elem_of_In, in_flat_map. simpl.
    split.
    - intros (D & u' & Iu & Ih). apply list_elem_of_In in Iu.
      apply list_elem_of_In, list_elem_of_fmap in Ih as (h' & [= <- <-] & Ih).
      apply list_elem_of_filter in Ih as [U Ih]. tauto.
    - intros (Iu & Ih & U & D). split; [exact D | ].
      exists u. split; [now apply list_elem_of_In | ].
      apply list_elem_of_In, list_elem_of_fmap. exists h.
      split; [reflexivity | ]. now apply list_elem_of_filter. }
  split.
  - intros S. destruct on_day as [ | [u h] rest] eqn:E.
    + now destruct S.
    + exists u, h. apply (M (u, h)). left.
  - intros (u & h & H). apply (M (u, h)) in H.
    destruct on_day; [now apply elem_of_nil in H | eauto].
Qed.

(** X10.  The dates of the by-date view are listed in the order in which the
    scan first comes across them (the users in the order of the directory,
    the holidays of a user in the order of the records), which need not be
    the order of the calendar; no date is listed twice and every date
    listed has at least one employee. *)
Theorem groupByDate_keys
    (formatDayAndMonthGenitive getDayOfWeekName : Z -> string)
    (allUsers : list User.t) (allHolidays : list Holiday.t) :
  let view :=
    groupByDate formatDayAndMonthGenitive getDayOfWeekName allUsers
      allHolidays in
  map fst view
  = first_occurrences
      (map (fun p => formatDate (Holiday.holiday_date p.2))
           (scanned allUsers allHolidays))
  /\ NoDup (map fst view)
  /\ (forall key entry, (key, entry) ∈ view -> employees entry <> []).
Proof.
  intros view.
  assert (K : map fst view
              = first_occurrences
                  (map (fun p => formatDate (Holiday.holiday_date p.2))
                       (scanned allUsers allHolidays))).
  { subst view. now rewrite groupByDate_scan, scan_keys. }
  assert (N : NoDup (map fst view)).
  { rewrite K. apply first_occurrences_NoDup. }
  split; [exact K | ]. split; [exact N | ].
  intros key entry I.
  assert (Ik : key ∈ map fst view).
  { apply list_elem_of_fmap. now exists (key, entry). }
  rewrite K in Ik. apply (proj1 (first_occurrences_elem _ _)) in Ik.
  apply list_elem_of_fmap in Ik as ([u h] & -> & _). cbn [snd] in I.
  apply (str_get_elem _ _ _ N) in I.
  subst view. rewrite groupByDate_scan, scan_get in I. cbv zeta in I.
  destruct (filter _ (scanned allUsers allHolidays)) as [ | p rest];
    [discriminate | ].
  injection I as <-. discriminate.
Qed.

(** Two users and three holidays: the day met first in the scan comes
    first, although it is the later day. *)
Example groupByDate_order :
  map fst (groupByDate (fun _ => "") (fun _ => "")
             [ByPerson.ewa; ByPerson.anna] ByPerson.may_holidays)
  = ["2024-05-22"; "2024-05-06"; "2024-05-07"; "2024-05-08"].
Proof. vm_compute. reflexivity. Qed.

End ByDateProperties.

(** ** The by-person view for every year, and the missing group *)

Module ByPersonExtraFacts.
Import CalendarMath Js MonthQuery ByPerson.
Import CalendarFacts JsFacts ByPersonFacts MonthFacts HomeCalendarFacts.

Lemma getMonth1_in_month (y m i : Z) :
  1 <= m <= 12 -> 0 <= i < days_in_month y m ->
  getMonth1 (days_from_civil y m 1 + i) = m.
Proof.
  intros Hm Hi.
  replace (days_from_civil y m 1 + i) with (days_from_civil y m (i + 1))
    by (rewrite (days_from_civil_day y m (i + 1)); lia).
  unfold getMonth1. rewrite civil_of_days_from_civil by lia. reflexivity.
Qed.

Lemma getMonth1_after_month (y m : Z) :
  1 <= m <= 12 ->
  getMonth1 (days_from_civil y m 1 + days_in_month y m) <> m.
Proof.
  intros Hm. rewrite <- first_of_next_month by exact Hm.
  destruct (Z.eq_dec m 12) as [-> | NE].
  - replace (days_from_civil y (12 + 1) 1) with (days_from_civil (y + 1) 1 1).
    + unfold getMonth1. rewrite civil_of_days_from_civil; [simpl; lia | lia | ].
      pose proof (days_in_month_range (y + 1) 1). lia.
    + unfold days_from_civil. simpl.
      replace (y + 1 - 1) with y by lia. reflexivity.
  - unfold getMonth1. rewrite civil_of_days_from_civil; [simpl; lia | lia | ].
    pose proof (days_in_month_range y (m + 1)). lia.
Qed.

(** The loop over the days of a month, from any day of the month on. *)
Lemma daysInMonth_loop_runs (year month : Z) (extra : nat) :
  1 <= month <= 12 ->
  forall (left : nat) (acc : list string),
    (Z.of_nat left <= days_in_month year month) ->
    let i := days_in_month year month - Z.of_nat left in
    daysInMonth_loop (left + extra) month
      (days_from_civil year month 1 + i) acc
    = Some (acc ++ map formatDate
                     (seqZ (days_from_civil year month 1 + i)
                           (Z.of_nat left))).
Proof.
  intros Hm left. induction left as [ | left IH]; intros acc Hl i.
  - subst i. rewrite Z.sub_0_r. simpl (0 + extra)%nat.
    pose proof (getMonth1_after_month year month Hm) as NE.
    destruct extra; simpl;
      (destruct (Z.eqb_spec (getMonth1 (days_from_civil year month 1
                                        + days_in_month year month)) month);
       [congruence | now rewrite app_nil_r]).
  - cbn [Nat.add daysInMonth_loop].
    rewrite getMonth1_in_month by (subst i; lia).
    rewrite Z.eqb_refl.
    specialize (IH (acc ++ [formatDate (days_from_civil year month 1 + i)])
                  ltac:(lia)).
    cbv zeta in IH.
    replace (days_in_month year month - Z.of_nat left) with (i + 1) in IH
      by (subst i; lia).
    replace (days_from_civil year month 1 + i + 1)
      with (days_from_civil year month 1 + (i + 1)) by lia.
    rewrite IH, <- app_assoc. f_equal.
    rewrite (seqZ_cons _ (Z.of_nat (S left))) by lia.
    replace (Z.succ (days_from_civil year month 1 + i))
      with (days_from_civil year month 1 + (i + 1)) by lia.
    replace (Z.pred (Z.of_nat (S left))) with (Z.of_nat left) by lia.
    reflexivity.
Qed.

End ByPersonExtraFacts.

Module ByPersonExtraProperties.
Import CalendarMath Js MonthQuery ByPerson.
Import CalendarFacts JsFacts ByPersonFacts MonthFacts HomeCalendarFacts.
Import ByPersonExtraFacts.

(** X11.  For every year from 100 to 9999, where [new Date(year, month - 1,
    1)] is the first day of that month of that year, and every month from
    1 to 12, the loop that lists the days of the month ends by its own
    test after as many turns as the month has days, never more than 31,
    and lists the days of the month in order, in the canonical form.
    (Below 100 the constructor reads the year as 1900 + year, which
    [days_from_civil] does not model; the route only sends years from 2020
    to 2030.) *)
Theorem daysInMonth_loop_every_month (year month : Z) (extra : nat) :
  100 <= year <= 9999 ->
  1 <= month <= 12 ->
  daysInMonth_fuel (Z.to_nat (days_in_month year month) + extra) year month
  = Some (map formatDate (month_days year month))
  /\ allDaysInMonth year month = map formatDate (month_days year month)
  /\ (28 <= length (allDaysInMonth year month) <= 31)%nat.
Proof.
  intros _ Hm. pose proof (days_in_month_range year month) as R.
  assert (F : forall extra,
            daysInMonth_fuel (Z.to_nat (days_in_month year month) + extra)
              year month
            = Some (map formatDate (month_days year month))).
  { intros e. unfold daysInMonth_fuel.
    pose proof (daysInMonth_loop_runs year month e Hm
                  (Z.to_nat (days_in_month year month)) [] ltac:(lia)) as L.
    cbv zeta in L. rewrite Z2Nat.id, Z.sub_diag, Z.add_0_r in L by lia.
    rewrite L. unfold month_days. now rewrite day_seq_seqZ, Z2Nat.id by lia. }
  assert (A : allDaysInMonth year month
              = map formatDate (month_days year month)).
  { unfold allDaysInMonth.
    specialize (F (32 - Z.to_nat (days_in_month year month))%nat).
    replace (Z.to_nat (days_in_month year month)
             + (32 - Z.to_nat (days_in_month year month)))%nat
      with 32%nat in F by lia.
    now rewrite F. }
  split; [apply F | ]. split; [exact A | ].
  rewrite A, length_map. unfold month_days.
  assert (L : forall first count, length (day_seq first count) = count).
  { intros first count. revert first.
    induction count as [ | n IH]; intros first; simpl; [ | rewrite IH];
      reflexivity. }
  rewrite L. lia.
Qed.

Lemma daysInMonth_loop_every_month_witness :
  daysInMonth_fuel (Z.to_nat (days_in_month 2024 2) + 0) 2024 2
  = Some (map formatDate (month_days 2024 2))
  /\ allDaysInMonth 2024 2 = map formatDate (month_days 2024 2)
  /\ (28 <= length (allDaysInMonth 2024 2) <= 31)%nat.
Proof. apply (daysInMonth_loop_every_month 2024 2 0); lia. Defined.

(** X12.  The by-person view fails as a whole, and the page of the catch branch
    is shown, exactly when a user who has a holiday or a remote day in the
    month belongs to a group that is not among the groups read: the entry
    of that group is missing from the group map and the push on it
    raises. *)
Theorem groupByPerson_missing_group (localeCompare : string -> string -> Z)
    (year month : Z) (allUsers : list User.t) (allGroups : list Group.t)
    (publicHolidaysRaw : list PublicHoliday.t) (allHolidays : list Holiday.t)
    (allWorkLocations : list WorkLocation.t) :
  let data :=
    employeeData (publicHolidaysMap publicHolidaysRaw)
      (holidaysByUser allHolidays) (workLocationsByUser allWorkLocations)
      (allDaysInMonth year month) in
  groupByPerson localeCompare year month allUsers allGroups publicHolidaysRaw
    allHolidays allWorkLocations = None
  <-> exists user,
        user ∈ allUsers /\ included (data user) = true
        /\ groupId_of user <> 0%N
        /\ ~ (exists group, group ∈ allGroups
                            /\ Group.id group = groupId_of user).
Proof.
  intros data. unfold groupByPerson. fold data.
  pose proof (initial_groupMap_spec allGroups) as (S & K & _).
  set (P := fun u : User.t =>
              included (data u) = true ->
              groupId_of u ∈ map fst (initial_groupMap allGroups)).
  assert (D : forall u, Decision (P u)) by (intros u; unfold P; apply _).
  split.
  - intros E.
    destruct (decide (Forall P allUsers)) as [F | NF].
    + rewrite Forall_forall in F.
      destruct (process_users_runs data allUsers _ S F) as [gm G].
      rewrite G in E. discriminate.
    + apply not_Forall_Exists in NF; [ | exact D].
      apply Exists_exists in NF as (u & I & NP). exists u.
      unfold P in NP.
      destruct (decide (included (data u) = true)) as [Inc | NInc];
        [ | exfalso; apply NP; intros Inc; congruence].
      assert (NK : groupId_of u ∉ map fst (initial_groupMap allGroups))
        by (intros I'; apply NP; intros _; exact I').
      rewrite K in NK.
      repeat match goal with |- _ /\ _ => split end;
        [exact I | exact Inc | tauto | tauto].
  - intros (u & I & Inc & NZ & NG).
    destruct (process_users data allUsers (initial_groupMap allGroups))
      as [gm | ] eqn:G; [ | reflexivity].
    exfalso.
    destruct (process_users_groups_present data allUsers _ _ S G u I Inc)
      as [g Hg].
    apply obj_get_key in Hg.
    assert (Ik : groupId_of u ∈ map fst (initial_groupMap allGroups)).
    { apply list_elem_of_fmap. now exists (groupId_of u, g). }
    apply K in Ik as [Z0 | Ex]; [congruence | now apply NG].
Qed.

(** Anna belongs to group 1 and has holidays in May 2024; with only the
    groups 2 and 3 read, the view fails. *)
Example groupByPerson_without_group_1 :
  groupByPerson codepoint_compare 2024 5 [anna; bartek]
    [ {| Group.id := 2; Group.name := "Analitycy" |};
      {| Group.id := 3; Group.name := "Kadry" |} ]
    [] may_holidays []
  = None.
Proof. vm_compute. reflexivity. Qed.

End ByPersonExtraProperties.

(** ** The planning page and the generated days *)

Module HolidaysPageProperties.
Import CalendarMath HomeCalendar HolidaysPage.
Import CalendarFacts MonthFacts HomeCalendarFacts HomeCalendarLookups.

Lemma month_number_first (k : Z) :
  civil_from_days (MakeDay 0 k 1) = (k / 12, k mod 12 + 1, 1).
Proof.
  unfold MakeDay. rewrite Z.add_0_l, Z.sub_diag, Z.add_0_r.
  apply civil_of_days_from_civil.
  - Z.to_euclidean_division_equations; lia.
  - pose proof (days_in_month_range (k / 12) (k mod 12 + 1)). lia.
Qed.

Lemma month_number_last (k : Z) :
  civil_from_days (MakeDay 0 (k + 1) 1 - 1)
  = (k / 12, k mod 12 + 1, days_in_month (k / 12) (k mod 12 + 1)).
Proof.
  rewrite MakeDay_succ. unfold MakeDay.
  rewrite Z.add_0_l, Z.sub_diag, Z.add_0_r.
  pose proof (days_in_month_range (k / 12) (k mod 12 + 1)).
  rewrite <- civil_of_days_from_civil with (y := k / 12) (m := k mod 12 + 1)
    (d := days_in_month (k / 12) (k mod 12 + 1));
    [ | Z.to_euclidean_division_equations; lia | lia].
  f_equal.
  rewrite (days_from_civil_day _ _ (days_in_month (k / 12) (k mod 12 + 1))).
  lia.
Qed.

(** X13.  The range of the planning page starts on the first day of the sixth
    month before the month of today and ends on the last day of the sixth
    month after it, across the turn of the year, so it holds the thirteen
    whole months around today. *)
Theorem highlight_range_months (todayDate : Z) :
  100 <= getFullYear todayDate ->
  let sixMonthsAgo := (highlight_range todayDate).1 in
  let sixMonthsAhead := (highlight_range todayDate).2 in
  getDate sixMonthsAgo = 1
  /\ month_number sixMonthsAgo = month_number todayDate - 6
  /\ getDate (sixMonthsAhead + 1) = 1
  /\ month_number sixMonthsAhead = month_number todayDate + 6
  /\ sixMonthsAgo <= todayDate <= sixMonthsAhead.
Proof.
  intros Hy ago ahead.
  pose proof (civil_ranges todayDate) as [HM HD].
  pose proof (getDate_le_days_in_month todayDate) as HD'.
  set (k := month_number todayDate).
  assert (A : ago = MakeDay 0 (k - 6) 1).
  { subst ago k. unfold highlight_range, month_number. cbn [fst].
    unfold new_Date_fields.
    replace ((0 <=? getFullYear todayDate) && (getFullYear todayDate <=? 99))
      with false by lia.
    rewrite MakeDay_index. rewrite Z.sub_diag, Z.add_0_r. f_equal. lia. }
  assert (B : ahead = MakeDay 0 (k + 6 + 1) 1 - 1).
  { subst ahead k. unfold highlight_range, month_number. cbn [snd].
    unfold new_Date_fields.
    replace ((0 <=? getFullYear todayDate) && (getFullYear todayDate <=? 99))
      with false by lia.
    rewrite MakeDay_index.
    replace (12 * getFullYear todayDate + (getMonth1 todayDate - 1 + 7))
      with (12 * getFullYear todayDate + (getMonth1 todayDate - 1) + 6 + 1)
      by lia.
    lia. }
  pose proof (month_number_first (k - 6)) as F.
  pose proof (month_number_last (k + 6)) as L.
  pose proof (month_number_first (k + 6 + 1)) as N.
  rewrite <- A in F. rewrite <- B in L.
  replace (MakeDay 0 (k + 6 + 1) 1) with (ahead + 1) in N by lia.
  unfold month_number at 1 2, getDate, getFullYear, getMonth1.
  rewrite F, L, N. cbn [fst snd].
  repeat match goal with |- _ /\ _ => split end;
    try reflexivity;
    try (Z.to_euclidean_division_equations; lia).
  - pose proof (MakeDay_lt (k - 6 - 1) k ltac:(lia)) as M.
    replace (k - 6 - 1 + 1) with (k - 6) in M by lia.
    pose proof (day_in_its_month (getFullYear todayDate) (getMonth1 todayDate)
                  (getDate todayDate) HM ltac:(lia)) as I.
    cbv zeta in I. rewrite days_from_civil_from_days in I.
    fold (month_number todayDate) in I. fold k in I. lia.
  - pose proof (MakeDay_lt k (k + 6 + 1) ltac:(lia)) as M.
    pose proof (day_in_its_month (getFullYear todayDate) (getMonth1 todayDate)
                  (getDate todayDate) HM ltac:(lia)) as I.
    cbv zeta in I. rewrite days_from_civil_from_days in I.
    fold (month_number todayDate) in I. fold k in I. lia.
Qed.

Lemma highlight_range_months_witness :
  let sixMonthsAgo := (highlight_range 19847).1 in
  let sixMonthsAhead := (highlight_range 19847).2 in
  getDate sixMonthsAgo = 1
  /\ month_number sixMonthsAgo = month_number 19847 - 6
  /\ getDate (sixMonthsAhead + 1) = 1
  /\ month_number sixMonthsAhead = month_number 19847 + 6
  /\ sixMonthsAgo <= 19847 <= sixMonthsAhead.
Proof. apply (highlight_range_months 19847). vm_compute. discriminate. Defined.

End HolidaysPageProperties.

Module GeneratedDaysFacts.
Import CalendarMath BusinessDays Js.
Import CalendarFacts BusinessDaysFacts MonthFacts.
#[local] Arguments String.append !_ _ / : simpl nomatch.

Lemma digit_value_digit (n : Z) : digit_value (digit n) = Some (n mod 10).
Proof.
  unfold digit_value, digit.
  rewrite N_ascii_embedding by (Z.to_euclidean_division_equations; lia).
  rewrite Z2N.id by (Z.to_euclidean_division_equations; lia).
  replace ((48 <=? 48 + n mod 10) && (48 + n mod 10 <=? 57)) with true
    by (symmetry; apply andb_true_intro; split; apply Z.leb_le;
        Z.to_euclidean_division_equations; lia).
  f_equal. lia.
Qed.

(** The canonical form of a date with its fields read back by [new Date]. *)
Lemma new_Date_canonical (y m d : Z) :
  0 <= y <= 9999 -> 1 <= m <= 12 -> 1 <= d <= 31 ->
  new_Date (pad4 y +:+ "-" +:+ pad2 m +:+ "-" +:+ pad2 d)
  = Day (days_from_civil y m d).
Proof.
  intros Hy Hm Hd. unfold new_Date, pad4, pad2.
  cbn [String.append list_ascii_of_string].
  change (Ascii.eqb "-" "-") with true. cbn [andb negb].
  rewrite !digit_value_digit.
  replace (1000 * ((y / 1000) mod 10) + 100 * ((y / 100) mod 10)
           + 10 * ((y / 10) mod 10) + y mod 10) with y
    by (Z.to_euclidean_division_equations; lia).
  replace (10 * ((m / 10) mod 10) + m mod 10) with m
    by (Z.to_euclidean_division_equations; lia).
  replace (10 * ((d / 10) mod 10) + d mod 10) with d
    by (Z.to_euclidean_division_equations; lia).
  replace ((1 <=? m) && (m <=? 12) && (1 <=? d) && (d <=? 31)) with true
    by lia.
  reflexivity.
Qed.

Lemma day_seq_app (first : Z) (n k : nat) :
  day_seq first (n + k) = day_seq first n ++ day_seq (first + Z.of_nat n) k.
Proof.
  revert first. induction n as [ | n IH]; intros first.
  - simpl. now rewrite Z.add_0_r.
  - cbn [Nat.add day_seq app]. rewrite IH. do 3 f_equal. lia.
Qed.

End GeneratedDaysFacts.

Module GeneratedDaysProperties.
Import CalendarMath BusinessDays Js.
Import CalendarFacts BusinessDaysFacts MonthFacts GeneratedDaysFacts.

(** X3.  A date in the canonical form reads back as the same day: [new Date]
    of the text that formatDate gives for a day is that day, and
    formatting the text again gives the same text.  Years from 0 to
    9999. *)
Theorem formatDate_reads_back (z : Z) :
  0 <= getFullYear z <= 9999 ->
  new_Date (formatDate z) = Day z
  /\ formatDate_input (formatDate z) = Some (formatDate z).
Proof.
  intros Hy.
  assert (R : new_Date (formatDate z) = Day z).
  { pose proof (civil_ranges z) as [HM HD].
    pose proof (days_from_civil_from_days z) as E.
    unfold getFullYear, getMonth1, getDate in *. unfold formatDate.
    destruct (civil_from_days z) as [[y m] d]. cbn [fst snd] in *.
    unfold year_text.
    replace ((0 <=? y) && (y <=? 9999)) with true by lia.
    rewrite new_Date_canonical by lia. now rewrite E. }
  split; [exact R | ]. unfold formatDate_input. now rewrite R.
Qed.

Lemma formatDate_reads_back_witness :
  new_Date (formatDate 19847) = Day 19847
  /\ formatDate_input (formatDate 19847) = Some (formatDate 19847).
Proof. apply (formatDate_reads_back 19847). vm_compute. split; discriminate. Defined.

(** X1.  An interval cut in two gives the same days: the days generated from
    the start to a day in between, followed by the days generated from the
    next day to the end, are the days generated for the whole interval. *)
Theorem generateDateRange_split (startDate middle next endDate : string)
    (publicHolidays : list PublicHoliday.t) (a b c : Z) :
  new_Date startDate = Day a -> new_Date middle = Day b ->
  new_Date next = Day (b + 1) -> new_Date endDate = Day c ->
  a <= b + 1 -> b <= c ->
  generateDateRange startDate endDate publicHolidays
  = generateDateRange startDate middle publicHolidays
    ++ generateDateRange next endDate publicHolidays.
Proof.
  intros Ea Eb En Ec Hab Hbc.
  rewrite !generateDateRange_spec. unfold interval_days.
  rewrite Ea, Eb, En, Ec.
  replace (Z.to_nat (c - a + 1))
    with (Z.to_nat (b - a + 1) + Z.to_nat (c - (b + 1) + 1))%nat by lia.
  rewrite day_seq_app, filter_app, map_app.
  replace (a + Z.of_nat (Z.to_nat (b - a + 1))) with (b + 1) by lia.
  reflexivity.
Qed.

Lemma generateDateRange_split_witness :
  generateDateRange "2024-04-29" "2024-05-10" [ByPerson.labour_day]
  = generateDateRange "2024-04-29" "2024-05-03" [ByPerson.labour_day]
    ++ generateDateRange "2024-05-04" "2024-05-10" [ByPerson.labour_day].
Proof.
  apply (generateDateRange_split "2024-04-29" "2024-05-03" "2024-05-04"
           "2024-05-10" [ByPerson.labour_day] 19842 19846 19853);
    try reflexivity; lia.
Defined.

(** X2.  A further public holiday takes away its own date from the generated
    days and nothing else. *)
Theorem generateDateRange_more_holidays (startDate endDate : string)
    (holiday : PublicHoliday.t) (publicHolidays : list PublicHoliday.t) :
  generateDateRange startDate endDate (holiday :: publicHolidays)
  = filter (fun dateStr =>
              dateStr <> formatDate (PublicHoliday.holiday_date holiday))
           (generateDateRange startDate endDate publicHolidays).
Proof.
  rewrite !generateDateRange_spec.
  generalize (interval_days startDate endDate). intros days.
  induction days as [ | d days IH]; [reflexivity | ].
  rewrite !filter_cons.
  assert (B : business_day (publicHolidayDates (holiday :: publicHolidays)) d
              <-> business_day (publicHolidayDates publicHolidays) d
                  /\ formatDate d
                     <> formatDate (PublicHoliday.holiday_date holiday)).
  { unfold business_day, publicHolidayDates. cbn [map list_to_set].
    rewrite not_elem_of_union, not_elem_of_singleton. tauto. }
  destruct (decide (business_day (publicHolidayDates publicHolidays) d))
    as [Bd | NBd].
  - cbn [map]. rewrite filter_cons.
    destruct (decide (formatDate d
                      <> formatDate (PublicHoliday.holiday_date holiday)))
      as [NE | E].
    + rewrite decide_True by (apply B; tauto). cbn [map]. now rewrite IH.
    + rewrite decide_False by (rewrite B; tauto). exact IH.
  - rewrite decide_False by (rewrite B; tauto). exact IH.
Qed.

End GeneratedDaysProperties.

(** ** The Auth0 Management API *)

Module Auth0Properties.
Import Js Auth0.

Lemma fetch_pages_ends {U} (get : Z -> option (UsersPage U)) (extra : nat) :
  forall (left : nat) (page : Z) (allUsers : list U),
    page = 11 - Z.of_nat left -> (left <= 11)%nat -> (0 < left)%nat ->
    exists r, fetch_pages (left + extra) get page allUsers = Some r
              /\ fetch_pages left get page allUsers = Some r.
Proof.
  induction left as [ | left IH]; intros page allUsers Ep Hl Hp; [lia | ].
  cbn [Nat.add fetch_pages].
  destruct (get page) as [data | ]; [ | eauto].
  cbv zeta.
  destruct (Z.ltb_spec 10 (page + 1)) as [Last | More]; [eauto | ].
  destruct ((start data + length data <? total data)
            && (length data =? perPage)); [ | eauto].
  apply IH; lia.
Qed.

(** X18.  getAuth0Users always ends, after at most 11 requests: with fuel for
    eleven turns the loop returns, whatever the answers are, and more fuel
    does not change the result. *)
Theorem getAuth0Users_ends {U} (token : Result string)
    (get : Z -> option (UsersPage U)) (extra : nat) :
  exists r, getAuth0Users 11 token get = Some r
            /\ getAuth0Users (11 + extra) token get = Some r.
Proof.
  unfold getAuth0Users. destruct token as [t | m]; [ | eauto].
  destruct (fetch_pages_ends get extra 11 0 [] ltac:(lia) ltac:(lia)
              ltac:(lia)) as (r & E1 & E2).
  eauto.
Qed.

Lemma fetch_pages_directory {U} (all : list U)
    (get : Z -> option (UsersPage U)) :
  (forall page, 0 <= page ->
     get page
     = Some {| users := take 100 (drop (Z.to_nat (100 * page)) all);
               total := Z.of_nat (List.length all);
               start := 100 * page;
               length :=
                 Z.of_nat (List.length
                             (take 100 (drop (Z.to_nat (100 * page)) all))) |}) ->
  forall (left : nat) (page : Z),
    page = 11 - Z.of_nat left -> (left <= 11)%nat -> (0 < left)%nat ->
    fetch_pages left get page (take (Z.to_nat (100 * page)) all)
    = Some (ok (take 1100 all)).
Proof.
  intros Honest.
  induction left as [ | left IH]; intros page Ep Hl Hp; [lia | ].
  cbn [fetch_pages]. rewrite Honest by lia. cbv zeta.
  cbn [users total start length].
  assert (T : take (Z.to_nat (100 * page)) all
              ++ take 100 (drop (Z.to_nat (100 * page)) all)
              = take (Z.to_nat (100 * (page + 1))) all).
  { rewrite take_take_drop. f_equal. lia. }
  rewrite T.
  destruct (Z.ltb_spec 10 (page + 1)) as [Last | More].
  - do 3 f_equal. lia.
  - rewrite length_take, length_drop. unfold perPage.
    destruct (Z.ltb_spec
                (100 * page
                 + Z.of_nat (100 `min` (List.length all - Z.to_nat (100 * page))))
                (Z.of_nat (List.length all))) as [Lt | Ge];
      destruct (Z.eqb_spec
                  (Z.of_nat (100 `min` (List.length all
                                        - Z.to_nat (100 * page)))) 100)
        as [Full | Short]; cbn [andb].
    + apply IH; lia.
    + rewrite !take_ge by lia. reflexivity.
    + rewrite !take_ge by lia. reflexivity.
    + rewrite !take_ge by lia. reflexivity.
Qed.

(** X19.  When the directory is served in pages of 100 with its total, the
    fetch returns the users in order, up to the first 1100: every user of a
    directory of at most 1100, and only the first 1100 of a larger one,
    without an error. *)
Theorem getAuth0Users_directory {U} (all : list U) (token : string)
    (get : Z -> option (UsersPage U)) :
  (forall page, 0 <= page ->
     get page
     = Some {| users := take 100 (drop (Z.to_nat (100 * page)) all);
               total := Z.of_nat (List.length all);
               start := 100 * page;
               length :=
                 Z.of_nat (List.length
                             (take 100 (drop (Z.to_nat (100 * page)) all))) |}) ->
  getAuth0Users 11 (ok token) get = Some (ok (take 1100 all))
  /\ ((List.length all <= 1100)%nat ->
      getAuth0Users 11 (ok token) get = Some (ok all)).
Proof.
  intros Honest.
  assert (E : getAuth0Users 11 (ok token) get = Some (ok (take 1100 all))).
  { unfold getAuth0Users.
    apply (fetch_pages_directory all get Honest 11 0); lia. }
  split; [exact E | ]. intros Small. rewrite E, take_ge by lia. reflexivity.
Qed.

Lemma getAuth0Users_directory_witness :
  let get page :=
    Some {| users := take 100 (drop (Z.to_nat (100 * page)) [1; 2; 3]);
            total := Z.of_nat (List.length [1; 2; 3]);
            start := 100 * page;
            length :=
              Z.of_nat (List.length
                          (take 100 (drop (Z.to_nat (100 * page)) [1; 2; 3]))) |} in
  getAuth0Users 11 (ok "token") get = Some (ok (take 1100 [1; 2; 3]))
  /\ ((List.length [1; 2; 3] <= 1100)%nat ->
      getAuth0Users 11 (ok "token") get = Some (ok [1; 2; 3])).
Proof.
  apply (getAuth0Users_directory [1; 2; 3] "token"). reflexivity.
Defined.

(** X20.  A token of the cache is used again only while more than five minutes
    of its lifetime are left: after a token request answered at the time
    [received] with a lifetime of [expires_in] seconds, a call before
    [received + expires_in * 1000 - 300000] returns the token of the cache
    without a request and leaves the cache as it is, and a call from then
    on does what a call on an empty cache does: it asks again. *)
Theorem token_reused_until_expiry (config : Config) (data : TokenResponse)
    (now : Z) (cache : Cache) (later : Z) (post : option TokenResponse) :
  valid_token cache now = None ->
  complete config = true ->
  access_token data <> "" ->
  received data + expires_in data * 1000 - 300000 <> 0 ->
  let fetched := getManagementApiToken config (Some data) now cache in
  let expiry := received data + expires_in data * 1000 - 300000 in
  fetched.1 = ok (access_token data)
  /\ (later < expiry ->
      getManagementApiToken config post later fetched.2
      = (ok (access_token data), fetched.2))
  /\ (expiry <= later ->
      (getManagementApiToken config post later fetched.2).1
      = (getManagementApiToken config post later empty_cache).1
      /\ (is_Some post ->
          (getManagementApiToken config post later fetched.2).2
          = (getManagementApiToken config post later empty_cache).2)).
Proof.
  intros Miss Complete Token Expiry fetched expiry.
  assert (F : fetched
              = (ok (access_token data),
                 {| managementApiToken := Some (access_token data);
                    tokenExpiry := Some expiry |})).
  { subst fetched. unfold getManagementApiToken.
    rewrite Miss, Complete. cbn [negb]. subst expiry.
    repeat f_equal; lia. }
  rewrite F. cbn [fst snd].
  assert (T : truthy (Some (access_token data)) = Some (access_token data)).
  { destruct (access_token data); [congruence | reflexivity]. }
  unfold getManagementApiToken, valid_token.
  cbn [managementApiToken tokenExpiry empty_cache]. rewrite T, Complete.
  replace (expiry =? 0) with false by (subst expiry; lia).
  cbn [negb andb truthy].
  split; [reflexivity | ]. split.
  - intros L. replace (later <? expiry) with true by lia. reflexivity.
  - intros G. replace (later <? expiry) with false by lia.
    destruct post as [data' | ]; cbn [fst snd]; split; try reflexivity.
    intros [? [=]].
Qed.

Lemma token_reused_until_expiry_witness :
  let config :=
    {| domain := Some "tenant.example.com"; clientId := Some "id";
       clientSecret := Some "secret";
       audience := Some "https://tenant.example.com/api/v2/" |} in
  let data :=
    {| access_token := "abc"; expires_in := 86400; received := 1000 |} in
  let fetched := getManagementApiToken config (Some data) 900 empty_cache in
  let expiry := received data + expires_in data * 1000 - 300000 in
  fetched.1 = ok (access_token data)
  /\ (5000 < expiry ->
      getManagementApiToken config None 5000 fetched.2
      = (ok (access_token data), fetched.2))
  /\ (expiry <= 5000 ->
      (getManagementApiToken config None 5000 fetched.2).1
      = (getManagementApiToken config None 5000 empty_cache).1
      /\ (is_Some (@None TokenResponse) ->
          (getManagementApiToken config None 5000 fetched.2).2
          = (getManagementApiToken config None 5000 empty_cache).2)).
Proof.
  apply (token_reused_until_expiry
           {| domain := Some "tenant.example.com"; clientId := Some "id";
              clientSecret := Some "secret";
              audience := Some "https://tenant.example.com/api/v2/" |}
           {| access_token := "abc"; expires_in := 86400; received := 1000 |}
           900 empty_cache 5000 None).
  - reflexivity.
  - vm_compute. reflexivity.
  - discriminate.
  - vm_compute. discriminate.
Defined.

End Auth0Properties.

(** ** Changing the role of a user *)

Module RoleUpdateProperties.
Import Js MonthQuery Messages RoleUpdate.

(** X21.  The role handler never lets an administrator take the
    administrator role from their own account: User.setRole is called only
    with one of the three roles, and when the id of the route reads as the
    id of the requester, only with the role admin; a rejected request makes
    no call.  The success code is always the one of the new role, never the
    general role_updated, and prepareMessages has a sentence for it. *)
Theorem update_role_guard (userId : N) (id : string) (parsedId : JsNumber)
    (role : option string) (setRole : string -> string -> bool) :
  let response := (update_role userId id parsedId role setRole).1 in
  let call := (update_role userId id parsedId role setRole).2 in
  (forall id' role',
     call = Some (id', role') ->
     id' = id /\ role = Some role'
     /\ role' ∈ ["admin"; "user"; "manager"]
     /\ (parsedId = Num (Z.of_N userId) -> role' = "admin"))
  /\ (forall code,
        response = redirect_success code ->
        (exists role', role = Some role'
                       /\ code = "role_changed_to_" +:+ role'
                       /\ call = Some (id, role'))
        /\ is_Some (own_text messageMap_success code))
  /\ (forall code,
        response = redirect_error code ->
        code = "cannot_demote_self" /\ call = None
        /\ parsedId = Num (Z.of_N userId))
  /\ (response = invalid_role -> call = None).
Proof.
  intros response call. subst response call. unfold update_role.
  destruct role as [[ | c r] | ]; cbn [truthy];
    try (repeat match goal with |- _ /\ _ => split end; intros; discriminate);
    try (repeat match goal with |- _ /\ _ => split end; intros;
         first [discriminate | reflexivity]).
  set (role := String c r).
  destruct (decide (role ∈ ["admin"; "user"; "manager"])) as [In | NotIn].
  2: { rewrite bool_decide_eq_false_2 by exact NotIn. cbn [negb fst snd].
       repeat match goal with |- _ /\ _ => split end; intros;
         first [discriminate | reflexivity]. }
  rewrite bool_decide_eq_true_2 by exact In. cbn [negb].
  assert (Code : (if String.eqb role "admin" then "role_changed_to_admin"
                  else if String.eqb role "manager"
                       then "role_changed_to_manager"
                  else if String.eqb role "user" then "role_changed_to_user"
                  else "role_updated")
                 = "role_changed_to_" +:+ role
                 /\ is_Some (own_text messageMap_success
                               ("role_changed_to_" +:+ role))).
  { rewrite !elem_of_cons, elem_of_nil in In.
    destruct In as [-> | [-> | [-> | []]]]; vm_compute; eauto. }
  destruct Code as [Code Text]. rewrite Code.
  assert (Eq : is_number parsedId (Z.of_N userId) = true
               <-> parsedId = Num (Z.of_N userId)).
  { destruct parsedId as [ | x]; simpl; [easy | ].
    rewrite Z.eqb_eq. split; [now intros -> | now intros [= ->]]. }
  destruct (is_number parsedId (Z.of_N userId)) eqn:Test.
  - assert (Own : parsedId = Num (Z.of_N userId)) by now apply Eq.
    cbn [andb].
    destruct (String.eqb_spec role "admin") as [Admin | NotAdmin]; cbn [negb].
    + destruct (setRole id role); cbn [fst snd];
        repeat match goal with |- _ /\ _ => split end;
        try (intros; discriminate).
      * intros id' role' [= <- <-]. tauto.
      * intros code [= <-]. split; [ | exact Text]. now exists role.
      * intros id' role' [= <- <-]. tauto.
    + cbn [fst snd].
      repeat match goal with |- _ /\ _ => split end;
        try (intros; discriminate).
      intros code [= <-]. tauto.
  - assert (Other : parsedId <> Num (Z.of_N userId))
      by (intros Own; apply Eq in Own; discriminate).
    cbn [andb].
    destruct (setRole id role); cbn [fst snd];
      repeat match goal with |- _ /\ _ => split end;
      try (intros; discriminate).
    * intros id' role' [= <- <-]. tauto.
    * intros code [= <-]. split; [ | exact Text]. now exists role.
    * intros id' role' [= <- <-]. tauto.
Qed.

End RoleUpdateProperties.
